(** * Benchmark kernels: 2D convolution (gem5, GPGPU-Sim) and tiled GEMM

    A shallow embedding of the three C/CUDA benchmark programs and the
    properties their description states about them.

    - [int] values are integers of [Z] wrapped to 32 bits after every
      arithmetic operation ([Int.wrap]); [unsigned] and [size_t] values wrap
      modulo 2^32 and 2^64.
    - [float] is an abstract type with the three operations the programs
      use ([FloatOps]); [Binary32] instantiates it with IEEE-754 single
      precision as specified by the standard library's [SpecFloat].
    - a [float*] allocation is a [buffer]: a length and its cells; an access
      outside [0, len) is a [Fault].
    - loops carry fuel: a run that exhausts it ends in [OutOfFuel]. *)

From Stdlib Require Import ZArith List Lia Bool Arith.
From Stdlib Require Import Floats.SpecFloat.
Import ListNotations.
Local Open Scope Z_scope.

(* ================================================================= *)
(** ** Machine integers *)

Module Int.
Definition min_int : Z := -2147483648.
Definition max_int : Z := 2147483647.

(** Two's complement wrap-around of a 32-bit [int]. *)
Definition wrap (z : Z) : Z := (z + 2147483648) mod 4294967296 - 2147483648.

Definition in_range (z : Z) : Prop := min_int <= z <= max_int.

Definition add (a b : Z) : Z := wrap (a + b).
Definition sub (a b : Z) : Z := wrap (a - b).
Definition mul (a b : Z) : Z := wrap (a * b).
(** C division truncates toward zero. *)
Definition div (a b : Z) : Z := wrap (Z.quot a b).
End Int.

Module UInt.
(** [unsigned int]: arithmetic modulo 2^32. *)
Definition wrap (z : Z) : Z := z mod 4294967296.
Definition of_int (z : Z) : Z := wrap z.
Definition add (a b : Z) : Z := wrap (a + b).
Definition sub (a b : Z) : Z := wrap (a - b).
Definition mul (a b : Z) : Z := wrap (a * b).
Definition div (a b : Z) : Z := Z.quot a b.
(** Conversion of an [unsigned] value to [int]. *)
Definition to_int (z : Z) : Z := Int.wrap z.
End UInt.

Module Size.
(** [size_t] on the 64-bit hosts the benchmarks target. *)
Definition wrap (z : Z) : Z := z mod 18446744073709551616.
(** Conversion from [int]: sign extension, then reduction modulo 2^64. *)
Definition of_int (z : Z) : Z := wrap z.
Definition mul (a b : Z) : Z := wrap (a * b).
Definition sizeof_float : Z := 4.
End Size.

Declare Scope int_scope.
Delimit Scope int_scope with int.
Infix "+i" := Int.add (at level 50, left associativity).
Infix "-i" := Int.sub (at level 50, left associativity).
Infix "*i" := Int.mul (at level 40, left associativity).
Infix "/i" := Int.div (at level 40, left associativity).

(* ================================================================= *)
(** ** Floating point *)

(** The operations on [float] the programs use: the literals [0.0f] and
    [1.0f], [+] and [*]. *)
Class FloatOps (F : Type) : Type := {
  fzero : F;
  fone : F;
  fadd : F -> F -> F;
  fmul : F -> F -> F
}.

Module Binary32.
Definition prec : Z := 24.
Definition emax : Z := 128.
Definition float : Type := spec_float.
Definition zero : float := S754_zero false.
Definition one : float := S754_finite false 8388608 (-23).
Definition nan : float := S754_nan.
Definition add : float -> float -> float := SFadd prec emax.
Definition mul : float -> float -> float := SFmul prec emax.
(** [64.0f] *)
Definition sixty_four : float := S754_finite false 8388608 (-17).
End Binary32.

#[export] Instance binary32_ops : FloatOps Binary32.float := {
  fzero := Binary32.zero;
  fone := Binary32.one;
  fadd := Binary32.add;
  fmul := Binary32.mul
}.

(* ================================================================= *)
(** ** Outcomes and the state monad of a run *)

Inductive outcome (St A : Type) : Type :=
| Done (a : A) (s : St)      (* normal completion *)
| Exit (code : Z) (s : St)   (* [exit(code)] *)
| Fault                      (* access outside an allocation *)
| OutOfFuel.                 (* the fuel of a loop ran out *)
Arguments Done {St A} a s.
Arguments Exit {St A} code s.
Arguments Fault {St A}.
Arguments OutOfFuel {St A}.

Definition prog (St A : Type) : Type := St -> outcome St A.

Definition ret {St A} (a : A) : prog St A := fun s => Done a s.

Definition bind {St A B} (m : prog St A) (k : A -> prog St B) : prog St B :=
  fun s =>
    match m s with
    | Done a s' => k a s'
    | Exit code s' => Exit code s'
    | Fault => Fault
    | OutOfFuel => OutOfFuel
    end.

Definition get {St} : prog St St := fun s => Done s s.
Definition fault {St A} : prog St A := fun _ => Fault.
Definition exit {St A} (code : Z) : prog St A := fun s => Exit code s.

Declare Scope monad_scope.
Delimit Scope monad_scope with monad.
Notation "x <- c1 ;; c2" := (bind c1 (fun x => c2))
  (at level 61, c1 at next level, right associativity) : monad_scope.
Notation "c1 ;;; c2" := (bind c1 (fun _ => c2))
  (at level 61, right associativity) : monad_scope.
Local Open Scope monad_scope.

(** [for (i = lo; i < hi; i = next(i)) a = body(i, a);] with the
    loop-carried locals in [a]. One unit of fuel is spent per iteration. *)
Fixpoint for_gen {St A} (next : Z -> Z) (fuel : nat) (i hi : Z)
    (body : Z -> A -> prog St A) (a : A) : prog St A :=
  if i <? hi then
    match fuel with
    | O => fun _ => OutOfFuel
    | S fuel' => a' <- body i a ;; for_gen next fuel' (next i) hi body a'
    end
  else ret a.

(** [for (int i = lo; i < hi; i++)] *)
Definition for_ {St A} : nat -> Z -> Z -> (Z -> A -> prog St A) -> A -> prog St A :=
  for_gen (fun i => i +i 1).

(** [for (size_t i = lo; i < hi; i++)] *)
Definition for_size {St A} : nat -> Z -> Z -> (Z -> A -> prog St A) -> A -> prog St A :=
  for_gen (fun i => Size.wrap (i + 1)).

(** Iteration over a list: the blocks of a grid, the threads of a block. *)
Fixpoint foreach {St T} (l : list T) (body : T -> prog St unit) : prog St unit :=
  match l with
  | [] => ret tt
  | x :: l' => body x ;;; foreach l' body
  end.

(** The integers [lo], [lo+1], ..., [hi-1]. *)
Definition zrange (lo hi : Z) : list Z :=
  map (fun n => lo + Z.of_nat n) (seq 0 (Z.to_nat (hi - lo))).

(* ================================================================= *)
(** ** Buffers *)

Record buffer (F : Type) : Type := { len : Z; cell : Z -> F }.
Arguments len {F} b.
Arguments cell {F} b i.
Arguments Build_buffer {F} len cell.

Definition in_bounds {F} (b : buffer F) (i : Z) : bool :=
  (0 <=? i) && (i <? len b).

Definition load {F} (b : buffer F) (i : Z) : option F :=
  if in_bounds b i then Some (cell b i) else None.

Definition store {F} (b : buffer F) (i : Z) (v : F) : option (buffer F) :=
  if in_bounds b i
  then Some {| len := len b; cell := fun j => if j =? i then v else cell b j |}
  else None.

Definition of_list {F} (dflt : F) (l : list F) : buffer F :=
  {| len := Z.of_nat (length l); cell := fun i => nth (Z.to_nat i) l dflt |}.

Definition filled {F} (n : Z) (v : F) : buffer F :=
  {| len := n; cell := fun _ => v |}.

(* ================================================================= *)
(** ** Events of a run *)

Inductive array : Type := Input | Weight | Output.

Record dim3 : Type := { dx : Z; dy : Z; dz : Z }.

Inductive cudaError : Type := cudaSuccess | cudaFailure.

Inductive api : Type :=
| cudaMalloc | cudaMemcpy | cudaDeviceSynchronize | cudaFree.

Inductive event : Type :=
| Rd (arr : array) (idx : Z)
| Wr (arr : array) (idx : Z)
| Api (call : api) (status : cudaError)
| Launch (grid block : dim3)
| Barrier.

(* ================================================================= *)
(** ** Memory of the convolution programs *)

Module ConvMem.
Section Mem.
Context {F : Type} {FO : FloatOps F}.

(** The output array and the trace of array accesses, newest first. The
    input and weight arrays are only read: they are parameters. *)
Record state : Type := { output : buffer F; trace : list event }.

Definition log (e : event) (s : state) : state :=
  {| output := output s; trace := e :: trace s |}.

(** [b[idx]] for one of the two read-only arrays. *)
Definition read (arr : array) (b : buffer F) (idx : Z) : prog state F :=
  fun s =>
    match load b idx with
    | Some v => Done v (log (Rd arr idx) s)
    | None => Fault
    end.

(** [output[idx] = v] *)
Definition write (idx : Z) (v : F) : prog state unit :=
  fun s =>
    match store (output s) idx v with
    | Some o => Done tt {| output := o; trace := Wr Output idx :: trace s |}
    | None => Fault
    end.

(** The closed form: the sliding-window weighted sum of one output
    element, its terms added to [0.0f] in ascending (i, j, c) order, over
    unbounded integers. *)
Definition conv_sum (input weight : buffer F) (W I J C K h w k : Z) : F :=
  fold_left (fun acc i =>
    fold_left (fun acc j =>
      fold_left (fun acc c =>
        fadd acc (fmul (cell input (((h + i) * W + (w + j)) * C + c))
                       (cell weight (((i * J + j) * C + c) * K + k))))
        (zrange 0 C) acc)
      (zrange 0 J) acc)
    (zrange 0 I) fzero.

(** The indices written to [output], oldest first. *)
Definition writes (tr : list event) : list Z :=
  rev (flat_map (fun e => match e with Wr Output i => [i] | _ => [] end) tr).

(** An access of the trace lies inside its array. *)
Definition access_ok (n_in n_wt n_out : Z) (e : event) : Prop :=
  match e with
  | Rd Input i => 0 <= i < n_in
  | Rd Weight i => 0 <= i < n_wt
  | Wr Output i => 0 <= i < n_out
  | _ => False
  end.
End Mem.
End ConvMem.

(* ================================================================= *)
(** ** The sequential convolution (gem5 benchmark) *)

Module Seq.
Import ConvMem.
Section Conv.
Context {F : Type} {FO : FloatOps F}.

Definition conv2d (fuel : nat) (input weight : buffer F)
    (H W I J C K : Z) : prog (@state F) unit :=
  let Ho := H -i I +i 1 in
  let Wo := W -i J +i 1 in
  for_ fuel 0 Ho (fun h _ =>
    for_ fuel 0 Wo (fun w _ =>
      for_ fuel 0 K (fun k _ =>
        sum <- for_ fuel 0 I (fun i sum =>
                 for_ fuel 0 J (fun j sum =>
                   for_ fuel 0 C (fun c sum =>
                     let in_idx := ((h +i i) *i W +i (w +i j)) *i C +i c in
                     let wt_idx := ((i *i J +i j) *i C +i c) *i K +i k in
                     x <- read Input input in_idx ;;
                     y <- read Weight weight wt_idx ;;
                     ret (fadd sum (fmul x y))) sum) sum) fzero ;;
        let out_idx := (h *i Wo +i w) *i K +i k in
        write out_idx sum) tt) tt) tt.

(** Fuel that covers each of the six loops. *)
Definition conv2d_fuel (H W I J C K : Z) : nat :=
  Z.to_nat (Z.max (H -i I +i 1) (Z.max (W -i J +i 1)
             (Z.max K (Z.max I (Z.max J C))))).
End Conv.
End Seq.

(* ================================================================= *)
(** ** The CUDA runtime, as the host programs use it *)

Module Host.
Section World.
Context {F : Type} {FO : FloatOps F}.

(** What the programs cannot control: the status each runtime call
    returns (by call number) and the contents of fresh memory. *)
Record env : Type := {
  api_status : nat -> cudaError;
  fresh_host : nat -> Z -> F;
  fresh_device : nat -> Z -> F;
  fresh_shared : Z -> Z -> F
}.

(** Host and device heaps (a pointer is a position in its heap), the
    number of runtime calls made and the trace, newest first. *)
Record world : Type := {
  host : list (buffer F);
  device : list (buffer F);
  ncalls : nat;
  events : list event
}.

Definition set_host (h : list (buffer F)) (w : world) : world :=
  {| host := h; device := device w; ncalls := ncalls w; events := events w |}.
Definition set_device (d : list (buffer F)) (w : world) : world :=
  {| host := host w; device := d; ncalls := ncalls w; events := events w |}.
Definition record (e : event) (w : world) : world :=
  {| host := host w; device := device w; ncalls := ncalls w;
     events := e :: events w |}.

Fixpoint update {A} (n : nat) (x : A) (l : list A) : list A :=
  match l, n with
  | [], _ => []
  | _ :: l', O => x :: l'
  | y :: l', S n' => y :: update n' x l'
  end.

(** A device pointer variable is [None] until a successful [cudaMalloc]
    assigns it. *)
Definition dptr : Type := option nat.

Definition deref (p : dptr) (w : world) : option (buffer F) :=
  match p with
  | Some n => nth_error (device w) n
  | None => None
  end.

(** Every runtime call takes its status from the environment and is
    recorded. *)
Definition api_call (e : env) (c : api) : prog world cudaError :=
  fun w =>
    let st := api_status e (ncalls w) in
    Done st {| host := host w; device := device w; ncalls := S (ncalls w);
               events := Api c st :: events w |}.

Definition cudaMalloc_ (e : env) (size : Z) : prog world (cudaError * dptr) :=
  st <- api_call e cudaMalloc ;;
  match st with
  | cudaSuccess =>
      fun w =>
        let p := length (device w) in
        let b := {| len := Z.quot size Size.sizeof_float;
                    cell := fresh_device e p |} in
        Done (cudaSuccess, Some p) (set_device (device w ++ [b]) w)
  | cudaFailure => ret (cudaFailure, None)
  end.

(** Copy of the first [n] cells. *)
Definition copy (dst src : buffer F) (n : Z) : option (buffer F) :=
  if (n <=? len src) && (n <=? len dst)
  then Some {| len := len dst;
               cell := fun i => if (0 <=? i) && (i <? n) then cell src i
                                else cell dst i |}
  else None.

(** [cudaMemcpy(dst, src, size, cudaMemcpyHostToDevice)] *)
Definition cudaMemcpy_h2d (e : env) (dst : dptr) (src : nat) (size : Z)
  : prog world (cudaError * unit) :=
  st <- api_call e cudaMemcpy ;;
  match st with
  | cudaSuccess =>
      fun w =>
        match dst, deref dst w, nth_error (host w) src with
        | Some p, Some d, Some h =>
            match copy d h (Z.quot size Size.sizeof_float) with
            | Some d' => Done (cudaSuccess, tt) (set_device (update p d' (device w)) w)
            | None => Fault
            end
        | _, _, _ => Fault
        end
  | cudaFailure => ret (cudaFailure, tt)
  end.

(** [cudaMemcpy(dst, src, size, cudaMemcpyDeviceToHost)] *)
Definition cudaMemcpy_d2h (e : env) (dst : nat) (src : dptr) (size : Z)
  : prog world (cudaError * unit) :=
  st <- api_call e cudaMemcpy ;;
  match st with
  | cudaSuccess =>
      fun w =>
        match deref src w, nth_error (host w) dst with
        | Some d, Some h =>
            match copy h d (Z.quot size Size.sizeof_float) with
            | Some h' => Done (cudaSuccess, tt) (set_host (update dst h' (host w)) w)
            | None => Fault
            end
        | _, _ => Fault
        end
  | cudaFailure => ret (cudaFailure, tt)
  end.

Definition cudaDeviceSynchronize_ (e : env) : prog world (cudaError * unit) :=
  st <- api_call e cudaDeviceSynchronize ;; ret (st, tt).

(** The allocation stays in the heap of the model, so that its last
    contents can still be observed. *)
Definition cudaFree_ (e : env) (p : dptr) : prog world (cudaError * unit) :=
  st <- api_call e cudaFree ;;
  match p with
  | Some _ => ret (st, tt)
  | None => fault
  end.

(** [malloc(size)]: a fresh host buffer of [size / sizeof(float)] cells. *)
Definition malloc (e : env) (size : Z) : prog world nat :=
  fun w =>
    let p := length (host w) in
    let b := {| len := Z.quot size Size.sizeof_float; cell := fresh_host e p |} in
    Done p (set_host (host w ++ [b]) w).

Definition free (p : nat) : prog world unit := ret tt.

(** [p[i] = v] on the host. *)
Definition host_store (p : nat) (i : Z) (v : F) : prog world unit :=
  fun w =>
    match nth_error (host w) p with
    | Some b =>
        match store b i v with
        | Some b' => Done tt (set_host (update p b' (host w)) w)
        | None => Fault
        end
    | None => Fault
    end.

(** The grid of blocks, or the block of threads, below a [dim3]. *)
Definition indices (d : dim3) : list dim3 :=
  flat_map (fun z =>
    flat_map (fun y =>
      map (fun x => {| dx := x; dy := y; dz := z |}) (zrange 0 (dx d)))
      (zrange 0 (dy d)))
    (zrange 0 (dz d)).

Definition failures (evs : list event) : list event :=
  filter (fun e => match e with Api _ cudaFailure => true | _ => false end) evs.

Definition launches (evs : list event) : list event :=
  filter (fun e => match e with Launch _ _ => true | _ => false end) evs.
End World.
End Host.

(* ================================================================= *)
(** ** The tiled GEMM (GPGPU-Sim benchmark) *)

Module Gemm.
Import Host.
Section Kernel.
Context {F : Type} {FO : FloatOps F}.

Definition TILE_M : Z := 16.
Definition TILE_N : Z := 16.
Definition TILE_K : Z := 16.

(** The state a thread block works on: its two shared tiles, the
    register [sum] of each of its threads (by [threadIdx.y],
    [threadIdx.x]), the global array behind [C] and the trace. *)
Record block_state : Type := {
  sA : Z -> Z -> F;
  sB : Z -> Z -> F;
  sum : Z -> Z -> F;
  gC : buffer F;
  ktrace : list event
}.

Definition at2 (f : Z -> Z -> F) (y x : Z) (v : F) : Z -> Z -> F :=
  fun y' x' => if (y' =? y) && (x' =? x) then v else f y' x'.

Definition set_sA (y x : Z) (v : F) : prog block_state unit := fun s =>
  Done tt {| sA := at2 (sA s) y x v; sB := sB s; sum := sum s; gC := gC s;
             ktrace := ktrace s |}.
Definition set_sB (y x : Z) (v : F) : prog block_state unit := fun s =>
  Done tt {| sA := sA s; sB := at2 (sB s) y x v; sum := sum s; gC := gC s;
             ktrace := ktrace s |}.
Definition set_sum (y x : Z) (v : F) : prog block_state unit := fun s =>
  Done tt {| sA := sA s; sB := sB s; sum := at2 (sum s) y x v; gC := gC s;
             ktrace := ktrace s |}.

(** A read of global memory. *)
Definition gread (b : buffer F) (idx : Z) : prog block_state F := fun s =>
  match load b idx with
  | Some v => Done v s
  | None => Fault
  end.

(** [C[idx] = v] *)
Definition gwrite (idx : Z) (v : F) : prog block_state unit := fun s =>
  match store (gC s) idx v with
  | Some c => Done tt {| sA := sA s; sB := sB s; sum := sum s; gC := c;
                         ktrace := ktrace s |}
  | None => Fault
  end.

Definition syncthreads : prog block_state unit := fun s =>
  Done tt {| sA := sA s; sB := sB s; sum := sum s; gC := gC s;
             ktrace := Barrier :: ktrace s |}.

(** [blockIdx.y * TILE_M + threadIdx.y], computed in [unsigned] and
    converted to [int]; likewise [col]. *)
Definition row (blockIdx threadIdx : dim3) : Z :=
  UInt.to_int (UInt.add (UInt.mul (dy blockIdx) (UInt.of_int TILE_M)) (dy threadIdx)).
Definition col (blockIdx threadIdx : dim3) : Z :=
  UInt.to_int (UInt.add (UInt.mul (dx blockIdx) (UInt.of_int TILE_N)) (dx threadIdx)).

(** The code of one thread between the top of the tile loop and the
    first barrier. *)
Definition load_tiles (A B : buffer F) (M N K : Z)
    (blockIdx threadIdx : dim3) (t : Z) : prog block_state unit :=
  let row := row blockIdx threadIdx in
  let col := col blockIdx threadIdx in
  let tiled_k := UInt.to_int (UInt.add (UInt.of_int (t *i TILE_K)) (dx threadIdx)) in
  a <- (if (row <? M) && (tiled_k <? K)
        then gread A (row *i K +i tiled_k)
        else ret fzero) ;;
  set_sA (dy threadIdx) (dx threadIdx) a ;;;
  let tiled_row := UInt.to_int (UInt.add (UInt.of_int (t *i TILE_K)) (dy threadIdx)) in
  b <- (if (tiled_row <? K) && (col <? N)
        then gread B (tiled_row *i N +i col)
        else ret fzero) ;;
  set_sB (dy threadIdx) (dx threadIdx) b.

(** The code of one thread between the two barriers. *)
Definition compute_tile (fuel : nat) (threadIdx : dim3) : prog block_state unit :=
  for_ fuel 0 TILE_K (fun k _ =>
    s <- get ;;
    set_sum (dy threadIdx) (dx threadIdx)
      (fadd (sum s (dy threadIdx) (dx threadIdx))
            (fmul (sA s (dy threadIdx) k) (sB s k (dx threadIdx))))) tt.

(** The code of one thread after the tile loop. *)
Definition store_result (M N : Z) (blockIdx threadIdx : dim3)
  : prog block_state unit :=
  let row := row blockIdx threadIdx in
  let col := col blockIdx threadIdx in
  if (row <? M) && (col <? N)
  then s <- get ;; gwrite (row *i N +i col) (sum s (dy threadIdx) (dx threadIdx))
  else ret tt.

(** One iteration of the tile loop, by all threads of the block. The
    trip count of the loop depends on [K] alone, so the threads of a
    block meet at each barrier; between two barriers each thread writes
    cells of its own only. *)
Definition tile_iteration (fuel : nat) (A B : buffer F) (M N K : Z)
    (blockDim blockIdx : dim3) (t : Z) : prog block_state unit :=
  foreach (indices blockDim) (fun threadIdx =>
    load_tiles A B M N K blockIdx threadIdx t) ;;;
  syncthreads ;;;
  foreach (indices blockDim) (fun threadIdx => compute_tile fuel threadIdx) ;;;
  syncthreads.

(** [gemm_kernel], as one thread block executes it. *)
Definition gemm_kernel (fuel : nat) (A B : buffer F) (M N K : Z)
    (blockDim blockIdx : dim3) : prog block_state unit :=
  foreach (indices blockDim) (fun threadIdx =>
    set_sum (dy threadIdx) (dx threadIdx) fzero) ;;;
  for_ fuel 0 ((K +i TILE_K -i 1) /i TILE_K) (fun t _ =>
    tile_iteration fuel A B M N K blockDim blockIdx t) tt ;;;
  foreach (indices blockDim) (fun threadIdx =>
    store_result M N blockIdx threadIdx).

(** [gemm_kernel<<<grid, block>>>(dA, dB, dC, M, N, K)] *)
Definition launch (e : env) (fuel : nat) (grid block : dim3)
    (dA dB dC : dptr) (M N K : Z) : prog (@world F) unit :=
  fun w =>
    match dC, deref dA w, deref dB w, deref dC w with
    | Some pC, Some A, Some B, Some C =>
        let init := {| sA := fresh_shared e; sB := fresh_shared e;
                       sum := fresh_shared e; gC := C; ktrace := [] |} in
        match foreach (indices grid) (gemm_kernel fuel A B M N K block) init with
        | Done _ s =>
            Done tt (record (Launch grid block)
                       (set_device (update pC (gC s) (device w)) w))
        | OutOfFuel => OutOfFuel
        | _ => Fault
        end
    | _, _, _, _ => Fault
    end.

(** [CHECK_CUDA(call)]; the message printed before [exit(1)] is not
    modelled. *)
Definition CHECK_CUDA {A} (call : prog (@world F) (cudaError * A)) : prog world A :=
  r <- call ;;
  match fst r with
  | cudaSuccess => ret (snd r)
  | cudaFailure => exit 1
  end.

(** [dim3 block(TILE_N, TILE_M)] and
    [dim3 grid((N+TILE_N-1)/TILE_N, (M+TILE_M-1)/TILE_M)] *)
Definition block16 : dim3 :=
  {| dx := UInt.of_int TILE_N; dy := UInt.of_int TILE_M; dz := 1 |}.

Definition grid_of (M N : Z) : dim3 :=
  {| dx := UInt.of_int ((N +i TILE_N -i 1) /i TILE_N);
     dy := UInt.of_int ((M +i TILE_M -i 1) /i TILE_M);
     dz := 1 |}.

Definition gemm_kernel_test (e : env) (fuel : nat) (A B C : nat)
    (M N K : Z) : prog (@world F) unit :=
  let sizeA := Size.mul (Size.of_int (M *i K)) Size.sizeof_float in
  let sizeB := Size.mul (Size.of_int (K *i N)) Size.sizeof_float in
  let sizeC := Size.mul (Size.of_int (M *i N)) Size.sizeof_float in
  dA <- CHECK_CUDA (cudaMalloc_ e sizeA) ;;
  dB <- CHECK_CUDA (cudaMalloc_ e sizeB) ;;
  dC <- CHECK_CUDA (cudaMalloc_ e sizeC) ;;
  CHECK_CUDA (cudaMemcpy_h2d e dA A sizeA) ;;;
  CHECK_CUDA (cudaMemcpy_h2d e dB B sizeB) ;;;
  let block := block16 in
  let grid := grid_of M N in
  launch e fuel grid block dA dB dC M N K ;;;
  CHECK_CUDA (cudaDeviceSynchronize_ e) ;;;
  CHECK_CUDA (cudaFree_ e dA) ;;;
  CHECK_CUDA (cudaFree_ e dB) ;;;
  CHECK_CUDA (cudaFree_ e dC).

(** [main] up to the return of [gemm_kernel_test]; the result is the
    three host pointers. *)
Definition main_run (e : env) (fuel : nat) : prog (@world F) (nat * nat * nat) :=
  let M := 64 in
  let N := 64 in
  let K := 64 in
  let sizeA := Size.of_int (M *i K) in
  let sizeB := Size.of_int (K *i N) in
  let sizeC := Size.of_int (M *i N) in
  A <- malloc e (Size.mul sizeA Size.sizeof_float) ;;
  B <- malloc e (Size.mul sizeB Size.sizeof_float) ;;
  C <- malloc e (Size.mul sizeC Size.sizeof_float) ;;
  for_size fuel 0 sizeA (fun i _ => host_store A i fone) tt ;;;
  for_size fuel 0 sizeB (fun i _ => host_store B i fone) tt ;;;
  for_size fuel 0 sizeC (fun i _ => host_store C i fzero) tt ;;;
  gemm_kernel_test e fuel A B C M N K ;;;
  ret (A, B, C).

Definition main (e : env) (fuel : nat) : prog (@world F) Z :=
  p <- main_run e fuel ;;
  let '(A, B, C) := p in
  free A ;;; free B ;;; free C ;;;
  ret 0.

(** The naive product: the terms of one element of [C] added to [0.0f]
    in ascending [k] order, over unbounded integers. *)
Definition gemm_naive (A B : buffer F) (N K row col : Z) : F :=
  fold_left (fun acc k => fadd acc (fmul (cell A (row * K + k)) (cell B (k * N + col))))
    (zrange 0 K) fzero.

(** [n] more terms [0.0f * 0.0f]: the zero padding of the last tile. *)
Definition padded (n : Z) (x : F) : F :=
  fold_left (fun acc _ => fadd acc (fmul fzero fzero)) (zrange 0 n) x.

(** The number of tiles along a dimension of size [n]. *)
Definition tiles (n : Z) : Z := (n + 15) / 16.

(** Fuel that covers the tile loop and the loop over one tile. *)
Definition gemm_fuel (K : Z) : nat :=
  Z.to_nat (Z.max TILE_K ((K +i TILE_K -i 1) /i TILE_K)).

Definition barriers (tr : list event) : nat :=
  length (filter (fun e => match e with Barrier => true | _ => false end) tr).
End Kernel.
End Gemm.

(* ================================================================= *)
(** ** The CUDA convolution (GPGPU-Sim benchmark) *)

Module Gpu.
Import ConvMem Host.
Section Conv.
Context {F : Type} {FO : FloatOps F}.

(** [conv2d_kernel], as one thread executes it. *)
Definition conv2d_kernel (fuel : nat) (input weight : buffer F)
    (H W I J C K : Z) (blockDim blockIdx threadIdx : dim3)
  : prog (@state F) unit :=
  let Ho := H -i I +i 1 in
  let Wo := W -i J +i 1 in
  let h := UInt.to_int (UInt.add (UInt.mul (dy blockIdx) (dy blockDim)) (dy threadIdx)) in
  let w := UInt.to_int (UInt.add (UInt.mul (dx blockIdx) (dx blockDim)) (dx threadIdx)) in
  let k := UInt.to_int (UInt.add (UInt.mul (dz blockIdx) (dz blockDim)) (dz threadIdx)) in
  if (h <? Ho) && (w <? Wo) && (k <? K) then
    sum <- for_ fuel 0 I (fun i sum =>
             for_ fuel 0 J (fun j sum =>
               for_ fuel 0 C (fun c sum =>
                 let in_idx := ((h +i i) *i W +i (w +i j)) *i C +i c in
                 let wt_idx := ((i *i J +i j) *i C +i c) *i K +i k in
                 x <- read Input input in_idx ;;
                 y <- read Weight weight wt_idx ;;
                 ret (fadd sum (fmul x y))) sum) sum) fzero ;;
    let out_idx := (h *i Wo +i w) *i K +i k in
    write out_idx sum
  else ret tt.

(** [conv2d_kernel<<<grid, block>>>(d_input, d_weight, d_output, ...)] *)
Definition launch (fuel : nat) (grid block : dim3)
    (d_input d_weight d_output : dptr) (H W I J C K : Z) : prog (@world F) unit :=
  fun w =>
    match d_output, deref d_input w, deref d_weight w, deref d_output w with
    | Some p, Some input, Some weight, Some out =>
        match foreach (indices grid) (fun blockIdx =>
                foreach (indices block) (fun threadIdx =>
                  conv2d_kernel fuel input weight H W I J C K
                    block blockIdx threadIdx))
                {| output := out; trace := [] |} with
        | Done _ s =>
            Done tt (record (Launch grid block)
                       (set_device (update p (output s) (device w)) w))
        | OutOfFuel => OutOfFuel
        | _ => Fault
        end
    | _, _, _, _ => Fault
    end.

(** [dim3 block(16, 16, 1)] and [dim3 grid((Wo + block.x - 1) / block.x,
    (Ho + block.y - 1) / block.y, (K + block.z - 1) / block.z)], in
    [unsigned] arithmetic. *)
Definition block16 : dim3 := {| dx := 16; dy := 16; dz := 1 |}.

Definition grid_of (Ho Wo K : Z) (block : dim3) : dim3 :=
  {| dx := UInt.div (UInt.sub (UInt.add (UInt.of_int Wo) (dx block)) 1) (dx block);
     dy := UInt.div (UInt.sub (UInt.add (UInt.of_int Ho) (dy block)) 1) (dy block);
     dz := UInt.div (UInt.sub (UInt.add (UInt.of_int K) (dz block)) 1) (dz block) |}.

(** The host function [conv2d] of the CUDA program; no status is
    inspected. *)
Definition conv2d (e : env) (fuel : nat) (input weight output : nat)
    (H W I J C K : Z) : prog (@world F) unit :=
  let Ho := H -i I +i 1 in
  let Wo := W -i J +i 1 in
  let in_size := Size.mul (Size.of_int (H *i W *i C)) Size.sizeof_float in
  let wt_size := Size.mul (Size.of_int (I *i J *i C *i K)) Size.sizeof_float in
  let out_size := Size.mul (Size.of_int (Ho *i Wo *i K)) Size.sizeof_float in
  r1 <- cudaMalloc_ e in_size ;;
  let d_input := snd r1 in
  r2 <- cudaMalloc_ e wt_size ;;
  let d_weight := snd r2 in
  r3 <- cudaMalloc_ e out_size ;;
  let d_output := snd r3 in
  cudaMemcpy_h2d e d_input input in_size ;;;
  cudaMemcpy_h2d e d_weight weight wt_size ;;;
  let block := block16 in
  let grid := grid_of Ho Wo K block in
  launch fuel grid block d_input d_weight d_output H W I J C K ;;;
  cudaMemcpy_d2h e output d_output out_size ;;;
  cudaFree_ e d_input ;;;
  cudaFree_ e d_weight ;;;
  cudaFree_ e d_output ;;;
  ret tt.
End Conv.
End Gpu.

(** * Sample inputs *)

Section Samples.
Import ConvMem Host Gemm.

(** A 3x3 single-channel image and a 2x2 filter, in single precision. *)
Definition image3 : buffer Binary32.float :=
  of_list Binary32.zero
    [Binary32.one; Binary32.zero; Binary32.one;
     Binary32.one; Binary32.one; Binary32.zero;
     Binary32.zero; Binary32.one; Binary32.one].

Definition filter2 : buffer Binary32.float :=
  of_list Binary32.zero [Binary32.one; Binary32.one; Binary32.one; Binary32.one].

Definition ones (n : Z) : buffer Binary32.float := filled n Binary32.one.

(** A row of 2^31 - 1 elements whose first one is a NaN. *)
Definition nan_row : buffer Binary32.float :=
  {| len := 2147483647;
     cell := fun i => if i =? 0 then Binary32.nan else Binary32.one |}.

(** A runtime whose calls all succeed; fresh memory holds NaNs. *)
Definition env_ok : @env Binary32.float :=
  {| api_status := fun _ => cudaSuccess;
     fresh_host := fun _ _ => Binary32.nan;
     fresh_device := fun _ _ => Binary32.nan;
     fresh_shared := fun _ _ => Binary32.nan |}.

(** The runtime calls succeed, except call number [n]. *)
Definition env_failing (n : nat) : @env Binary32.float :=
  {| api_status := fun i => if Nat.eqb i n then cudaFailure else cudaSuccess;
     fresh_host := fun _ _ => Binary32.nan;
     fresh_device := fun _ _ => Binary32.nan;
     fresh_shared := fun _ _ => Binary32.nan |}.

(** The state [main] starts from: nothing allocated. *)
Definition world0 : @world Binary32.float :=
  {| host := []; device := []; ncalls := 0; events := [] |}.

(** Three buffers already on the device, and on the host. *)
Definition device3 (A B C : buffer Binary32.float) : @world Binary32.float :=
  {| host := []; device := [A; B; C]; ncalls := 0; events := [] |}.

Definition host3 (A B C : buffer Binary32.float) : @world Binary32.float :=
  {| host := [A; B; C]; device := []; ncalls := 0; events := [] |}.

(** A block before its first tile iteration. *)
Definition block_idle : @block_state Binary32.float :=
  {| sA := fun _ _ => Binary32.nan; sB := fun _ _ => Binary32.nan;
     sum := fun _ _ => Binary32.zero; gC := filled 4 Binary32.nan; ktrace := [] |}.

Definition origin : dim3 := {| dx := 0; dy := 0; dz := 0 |}.

End Samples.
(* ================================================================= *)
(** ** Counting the accesses of a run *)

(** The number of events of a trace that satisfy [p]. *)
Definition count_events (p : event -> bool) (tr : list event) : Z :=
  Z.of_nat (length (filter p tr)).

Definition is_read (arr : array) (e : event) : bool :=
  match e, arr with
  | Rd Input _, Input | Rd Weight _, Weight | Rd Output _, Output => true
  | _, _ => false
  end.

Definition is_write (e : event) : bool :=
  match e with Wr _ _ => true | _ => false end.

(** A run of [m] that completes adds [n] events satisfying [p] to the
    trace. *)
Definition adds {F A : Type} (p : event -> bool)
    (m : prog (@ConvMem.state F) A) (n : Z) : Prop :=
  forall s a s',
    m s = Done a s' ->
    count_events p (ConvMem.trace s') = count_events p (ConvMem.trace s) + n.

(** A run of [m] that completes keeps the length of the output array and
    adds to the trace only accesses that lie inside the arrays as they
    are allocated. *)
Definition emits {F A : Type} (input weight : buffer F)
    (m : prog (@ConvMem.state F) A) : Prop :=
  forall s a s',
    m s = Done a s' ->
    len (ConvMem.output s') = len (ConvMem.output s)
    /\ exists evs,
         ConvMem.trace s' = evs ++ ConvMem.trace s
         /\ Forall (ConvMem.access_ok (len input) (len weight)
                      (len (ConvMem.output s))) evs.

(* ================================================================= *)
(** ** The threads of a launch, seen on the output array *)

(** The stores to [output[idx]]. *)
Definition writes_to (idx : Z) (e : event) : bool :=
  match e with Wr Output i => i =? idx | _ => false end.

Fixpoint zsum {T : Type} (f : T -> Z) (l : list T) : Z :=
  match l with
  | [] => 0
  | x :: l' => f x + zsum f l'
  end.

(** All threads of [conv2d_kernel<<<grid, block>>>], as [Gpu.launch] runs
    them, with the trace of their array accesses. *)
Definition conv2d_kernel_threads {F : Type} {FO : FloatOps F} (fuel : nat)
    (input weight : buffer F) (H W I J C K : Z) (grid block : dim3)
  : prog (@ConvMem.state F) unit :=
  foreach (Host.indices grid) (fun blockIdx =>
    foreach (Host.indices block) (fun threadIdx =>
      Gpu.conv2d_kernel fuel input weight H W I J C K block blockIdx threadIdx)).

(* ================================================================= *)
(** ** Observations on host memory *)

(** A run of [m] allocates no host memory and leaves every host
    allocation other than [p] as it was. *)
Definition keeps_host_but {F A : Type} (p : nat)
    (m : prog (@Host.world F) A) : Prop :=
  forall w,
    match m w with
    | Done _ w' | Exit _ w' =>
        length (Host.host w') = length (Host.host w)
        /\ forall q, q <> p ->
             nth_error (Host.host w') q = nth_error (Host.host w) q
    | _ => True
    end.

(** The world after a runtime call that failed: the call is counted and
    recorded, nothing else changes. *)
Definition failed {F : Type} (c : api) (w : @Host.world F) : @Host.world F :=
  {| Host.host := Host.host w; Host.device := Host.device w;
     Host.ncalls := S (Host.ncalls w);
     Host.events := Api c cudaFailure :: Host.events w |}.

(* ================================================================= *)
(** ** The drivers of the two convolution programs *)

(** [0.1f]: the single-precision number nearest to 1/10. *)
Definition tenth : Binary32.float := S754_finite false 13421773 (-27).

(** [main] of the gem5 benchmark. The calls [m5_reset_stats] and
    [m5_dump_stats] address the simulator, not the memory of the program,
    and are left out. *)
Module SeqMain.
Import Host.

(** The call [conv2d(input, weight, output, ...)] on three host
    allocations; [main] passes three distinct ones, of which [conv2d]
    writes the third only. *)
Definition conv2d_call (fuel : nat) (input weight output : nat)
    (H W I J C K : Z) : prog (@world Binary32.float) unit :=
  fun w =>
    match nth_error (host w) input, nth_error (host w) weight,
          nth_error (host w) output with
    | Some hin, Some hwt, Some hout =>
        match Seq.conv2d fuel hin hwt H W I J C K
                {| ConvMem.output := hout; ConvMem.trace := [] |} with
        | Done _ s => Done tt (set_host (update output (ConvMem.output s) (host w)) w)
        | OutOfFuel => OutOfFuel
        | _ => Fault
        end
    | _, _, _ => Fault
    end.

(** [main] up to the return of [conv2d]; the result is the three
    pointers. *)
Definition main_run (e : @env Binary32.float) (fuel : nat)
  : prog (@world Binary32.float) (nat * nat * nat) :=
  let H := 7 in
  let W := 56 in
  let I := 3 in
  let J := 3 in
  let C := 32 in
  let K := 8 in
  let Ho := H -i I +i 1 in
  let Wo := W -i J +i 1 in
  input <- malloc e (Size.mul (Size.of_int (H *i W *i C)) Size.sizeof_float) ;;
  weight <- malloc e (Size.mul (Size.of_int (I *i J *i C *i K)) Size.sizeof_float) ;;
  output <- malloc e (Size.mul (Size.of_int (Ho *i Wo *i K)) Size.sizeof_float) ;;
  for_ fuel 0 (H *i W *i C) (fun idx _ => host_store input idx Binary32.one) tt ;;;
  for_ fuel 0 (I *i J *i C *i K) (fun idx _ => host_store weight idx tenth) tt ;;;
  conv2d_call fuel input weight output H W I J C K ;;;
  ret (input, weight, output).

Definition main (e : @env Binary32.float) (fuel : nat)
  : prog (@world Binary32.float) Z :=
  p <- main_run e fuel ;;
  let '(input, weight, output) := p in
  free input ;;; free weight ;;; free output ;;;
  ret 0.
End SeqMain.

(** [main] of the GPGPU-Sim benchmark. *)
Module GpuMain.
Import Host.

Definition main_run (e : @env Binary32.float) (fuel : nat)
  : prog (@world Binary32.float) (nat * nat * nat) :=
  let H := 7 in
  let W := 56 in
  let I := 3 in
  let J := 3 in
  let C := 32 in
  let K := 32 in
  let Ho := H -i I +i 1 in
  let Wo := W -i J +i 1 in
  input <- malloc e (Size.mul (Size.of_int (H *i W *i C)) Size.sizeof_float) ;;
  weight <- malloc e (Size.mul (Size.of_int (I *i J *i C *i K)) Size.sizeof_float) ;;
  output <- malloc e (Size.mul (Size.of_int (Ho *i Wo *i K)) Size.sizeof_float) ;;
  for_ fuel 0 (H *i W *i C) (fun idx _ => host_store input idx Binary32.one) tt ;;;
  for_ fuel 0 (I *i J *i C *i K) (fun idx _ => host_store weight idx tenth) tt ;;;
  Gpu.conv2d e fuel input weight output H W I J C K ;;;
  ret (input, weight, output).

Definition main (e : @env Binary32.float) (fuel : nat)
  : prog (@world Binary32.float) Z :=
  p <- main_run e fuel ;;
  let '(input, weight, output) := p in
  free input ;;; free weight ;;; free output ;;;
  ret 0.
End GpuMain.

(** The first [p] output elements hold [0.0f], in an output of [n]
    elements. *)
Definition zeroed {F : Type} {FO : FloatOps F} (n p : Z)
    (s : @ConvMem.state F) : Prop :=
  len (ConvMem.output s) = n /\
  forall idx, 0 <= idx < p -> cell (ConvMem.output s) idx = fzero.

(** An array access, the only kind of event of a sequential run. *)
Definition is_access (ev : event) : Prop :=
  match ev with
  | Rd _ _ | Wr _ _ => True
  | _ => False
  end.

(** The first [n] runtime calls succeed, all later ones fail. *)
Definition env_failing_from (n : nat) : @Host.env Binary32.float :=
  {| Host.api_status := fun i => if Nat.ltb i n then cudaSuccess else cudaFailure;
     Host.fresh_host := fun _ _ => Binary32.nan;
     Host.fresh_device := fun _ _ => Binary32.nan;
     Host.fresh_shared := fun _ _ => Binary32.nan |}.

(* ================================================================= *)
(** * Facts *)

(** ** Integer arithmetic without overflow *)

Lemma wrap_id z : Int.in_range z -> Int.wrap z = z.
Proof.
  unfold Int.in_range, Int.wrap, Int.min_int, Int.max_int. intros Hz.
  rewrite Z.mod_small; lia.
Qed.

Lemma add_id a b : Int.in_range (a + b) -> a +i b = a + b.
Proof. apply wrap_id. Qed.

Lemma sub_id a b : Int.in_range (a - b) -> a -i b = a - b.
Proof. apply wrap_id. Qed.

Lemma mul_id a b : Int.in_range (a * b) -> a *i b = a * b.
Proof. apply wrap_id. Qed.

Lemma wrap_in_range z : Int.in_range (Int.wrap z).
Proof.
  unfold Int.in_range, Int.wrap, Int.min_int, Int.max_int.
  pose proof (Z.mod_pos_bound (z + 2147483648) 4294967296). lia.
Qed.

(** Row-major flattening stays below the product of the extents. *)
Lemma flat_bound a b A B :
  0 <= a < A -> 0 <= b < B -> 0 <= a * B + b < A * B.
Proof. intros Ha Hb. nia. Qed.

Lemma flat_inj a b a' b' B :
  0 <= b < B -> 0 <= b' < B -> a * B + b = a' * B + b' -> a = a' /\ b = b'.
Proof.
  intros Hb Hb' E.
  assert (a = a') by (destruct (Z.lt_trichotomy a a') as [Hlt|[Heq|Hgt]]; [nia|auto|nia]).
  subst a'. lia.
Qed.

Lemma flat2_id a b A B :
  0 <= a < A -> 0 <= b < B -> A * B <= Int.max_int + 1 ->
  a *i B +i b = a * B + b.
Proof.
  intros Ha Hb Hm. pose proof (flat_bound a 0 A B Ha ltac:(lia)).
  pose proof (flat_bound a b A B Ha Hb).
  unfold Int.max_int in Hm.
  rewrite mul_id; [rewrite add_id|]; unfold Int.in_range, Int.min_int, Int.max_int; lia.
Qed.

Lemma flat3_id a b c A B C :
  0 <= a < A -> 0 <= b < B -> 0 <= c < C -> A * B * C <= Int.max_int + 1 ->
  (a *i B +i b) *i C +i c = (a * B + b) * C + c.
Proof.
  intros Ha Hb Hc Hm.
  assert (A * B <= Int.max_int + 1) by (unfold Int.max_int in *; nia).
  rewrite (flat2_id a b A B) by assumption.
  pose proof (flat_bound a b A B Ha Hb).
  apply (flat2_id (a * B + b) c (A * B) C); auto.
Qed.

Lemma flat3_bound a b c A B C :
  0 <= a < A -> 0 <= b < B -> 0 <= c < C ->
  0 <= (a * B + b) * C + c < A * B * C.
Proof.
  intros Ha Hb Hc. pose proof (flat_bound a b A B Ha Hb).
  apply flat_bound; auto.
Qed.

Lemma flat3_inj a b c a' b' c' B C :
  0 <= b < B -> 0 <= b' < B -> 0 <= c < C -> 0 <= c' < C ->
  (a * B + b) * C + c = (a' * B + b') * C + c' ->
  a = a' /\ b = b' /\ c = c'.
Proof.
  intros Hb Hb' Hc Hc' E.
  destruct (flat_inj _ _ _ _ C Hc Hc' E) as [E1 E2].
  destruct (flat_inj _ _ _ _ B Hb Hb' E1). auto.
Qed.

Lemma mul_ge_1 a b : 1 <= a -> 1 <= b -> 1 <= a * b /\ a <= a * b /\ b <= a * b.
Proof. intros. nia. Qed.

Lemma prod3_ge a b c :
  1 <= a -> 1 <= b -> 1 <= c ->
  a <= a * b * c /\ b <= a * b * c /\ c <= a * b * c.
Proof.
  intros Ha Hb Hc.
  assert (a <= a * b) by nia. assert (b <= a * b) by nia.
  assert (1 <= a * b) by lia.
  repeat split; nia.
Qed.

Lemma tiles_bound n :
  0 <= n -> 0 <= Gemm.tiles n /\ n <= 16 * Gemm.tiles n <= n + 15.
Proof.
  intros Hn. unfold Gemm.tiles.
  pose proof (Z.div_mod (n + 15) 16 ltac:(lia)).
  pose proof (Z.mod_pos_bound (n + 15) 16 ltac:(lia)). lia.
Qed.

Lemma tiles_int n : 0 <= n <= Int.max_int -> 16 * Gemm.tiles n <= 2147483648.
Proof.
  unfold Int.max_int, Gemm.tiles. intros Hn.
  assert ((n + 15) / 16 <= (2147483647 + 15) / 16) by (apply Z.div_le_mono; lia).
  change ((2147483647 + 15) / 16) with 134217728 in *. lia.
Qed.

Lemma uint_id z : 0 <= z < 4294967296 -> UInt.wrap z = z.
Proof. intros. unfold UInt.wrap. apply Z.mod_small. lia. Qed.

Lemma flat3_decode idx A B C :
  0 < B -> 0 < C -> 0 <= idx < A * B * C ->
  exists a b c, 0 <= a < A /\ 0 <= b < B /\ 0 <= c < C
                /\ idx = (a * B + b) * C + c.
Proof.
  intros HB HC Hidx.
  exists (idx / C / B), ((idx / C) mod B), (idx mod C).
  pose proof (Z.div_mod idx C ltac:(lia)).
  pose proof (Z.mod_pos_bound idx C ltac:(lia)).
  pose proof (Z.div_mod (idx / C) B ltac:(lia)).
  pose proof (Z.mod_pos_bound (idx / C) B ltac:(lia)).
  assert (0 <= idx / C) by (apply Z.div_pos; lia).
  assert (idx / C < A * B) by (apply Z.div_lt_upper_bound; lia).
  assert (0 <= idx / C / B) by (apply Z.div_pos; lia).
  assert (idx / C / B < A) by (apply Z.div_lt_upper_bound; lia).
  repeat split; try lia.
Qed.

(** ** Ranges *)

Lemma zrange_nil lo hi : hi <= lo -> zrange lo hi = [].
Proof. intros. unfold zrange. replace (Z.to_nat (hi - lo)) with O by lia. reflexivity. Qed.

Lemma zrange_snoc lo hi : lo <= hi -> zrange lo (hi + 1) = zrange lo hi ++ [hi].
Proof.
  intros. unfold zrange.
  replace (Z.to_nat (hi + 1 - lo)) with (S (Z.to_nat (hi - lo))) by lia.
  rewrite seq_S, map_app. simpl. do 2 f_equal. lia.
Qed.

Lemma zrange_cons lo hi : lo < hi -> zrange lo hi = lo :: zrange (lo + 1) hi.
Proof.
  intros. unfold zrange.
  replace (Z.to_nat (hi - lo)) with (S (Z.to_nat (hi - (lo + 1)))) by lia.
  simpl. f_equal; [lia|]. rewrite <- seq_shift, map_map.
  apply map_ext. intros. lia.
Qed.

Lemma in_zrange lo hi x : In x (zrange lo hi) <-> lo <= x < hi.
Proof.
  unfold zrange. rewrite in_map_iff. split.
  - intros (n & <- & Hn). apply in_seq in Hn. lia.
  - intros Hx. exists (Z.to_nat (x - lo)). split; [lia|]. apply in_seq. lia.
Qed.

Lemma NoDup_zrange lo hi : NoDup (zrange lo hi).
Proof.
  unfold zrange. generalize (seq_NoDup (Z.to_nat (hi - lo)) 0).
  generalize (seq 0 (Z.to_nat (hi - lo))) as l.
  induction l as [|x l IH]; simpl; intros Hnd; [constructor|].
  inversion Hnd as [|? ? Hx Hl]; subst. constructor; auto.
  rewrite in_map_iff. intros (y & Hy & Hin).
  assert (y = x) by lia. subst y. contradiction.
Qed.

(** ** The loop rules *)

Lemma bind_done {St A B} (m : prog St A) (k : A -> prog St B) s a s' :
  m s = Done a s' -> bind m k s = k a s'.
Proof. intros E. unfold bind. rewrite E. reflexivity. Qed.

(** Total correctness of a counted loop whose counter steps by one: an
    invariant that each iteration carries from [i] to [i+1] holds at [hi]
    on exit, and the loop completes within [hi - lo] units of fuel. *)
Lemma for_gen_rule {St A} (Inv : Z -> A -> St -> Prop) next fuel lo hi
    (body : Z -> A -> prog St A) a s :
  lo <= hi ->
  (forall i, lo <= i < hi -> next i = i + 1) ->
  (Z.to_nat (hi - lo) <= fuel)%nat ->
  Inv lo a s ->
  (forall i a s, lo <= i < hi -> Inv i a s ->
     exists a' s', body i a s = Done a' s' /\ Inv (i + 1) a' s') ->
  exists a' s', for_gen next fuel lo hi body a s = Done a' s' /\ Inv hi a' s'.
Proof.
  intros Hle Hnext Hfuel HI Hstep.
  remember (Z.to_nat (hi - lo)) as n eqn:En.
  revert fuel lo a s Hle Hnext Hfuel HI Hstep En.
  induction n as [|n IH]; intros.
  - assert (lo = hi) by lia. subst lo.
    destruct fuel; simpl; rewrite Z.ltb_irrefl; eauto.
  - assert (Hlt : lo < hi) by lia.
    destruct fuel as [|fuel]; [lia|]. simpl.
    apply Z.ltb_lt in Hlt as Hb. rewrite Hb.
    destruct (Hstep lo a s ltac:(lia) HI) as (a' & s' & Hbody & HI').
    unfold bind at 1. rewrite Hbody.
    rewrite Hnext by lia.
    apply IH; try lia; auto.
    + intros. apply Hnext. lia.
    + intros. apply Hstep; auto. lia.
Qed.

Lemma for_rule {St A} (Inv : Z -> A -> St -> Prop) fuel lo hi
    (body : Z -> A -> prog St A) a s :
  Int.min_int <= lo -> lo <= hi -> hi <= Int.max_int ->
  (Z.to_nat (hi - lo) <= fuel)%nat ->
  Inv lo a s ->
  (forall i a s, lo <= i < hi -> Inv i a s ->
     exists a' s', body i a s = Done a' s' /\ Inv (i + 1) a' s') ->
  exists a' s', for_ fuel lo hi body a s = Done a' s' /\ Inv hi a' s'.
Proof.
  intros Hlo Hle Hhi. apply for_gen_rule; auto.
  intros i Hi. apply add_id. unfold Int.in_range. lia.
Qed.

Lemma for_size_rule {St A} (Inv : Z -> A -> St -> Prop) fuel lo hi
    (body : Z -> A -> prog St A) a s :
  0 <= lo -> lo <= hi -> hi <= 18446744073709551615 ->
  (Z.to_nat (hi - lo) <= fuel)%nat ->
  Inv lo a s ->
  (forall i a s, lo <= i < hi -> Inv i a s ->
     exists a' s', body i a s = Done a' s' /\ Inv (i + 1) a' s') ->
  exists a' s', for_size fuel lo hi body a s = Done a' s' /\ Inv hi a' s'.
Proof.
  intros Hlo Hle Hhi. apply for_gen_rule; auto.
  intros i Hi. unfold Size.wrap. apply Z.mod_small. lia.
Qed.

(** A counted loop whose bounds are [int] values runs out of fuel only if
    its body does: the counter increases by one per iteration and cannot
    wrap below [hi]. *)
Lemma for_terminates {St A} fuel lo hi (body : Z -> A -> prog St A) a s :
  Int.in_range lo -> Int.in_range hi ->
  (Z.to_nat (hi - lo) <= fuel)%nat ->
  (forall i a s, body i a s <> OutOfFuel) ->
  for_ fuel lo hi body a s <> OutOfFuel.
Proof.
  intros Hlo Hhi Hfuel Hbody. unfold for_.
  remember (Z.to_nat (hi - lo)) as n eqn:En.
  revert fuel lo a s Hlo Hfuel En.
  induction n as [|n IH]; intros.
  - destruct fuel; simpl;
      (replace (lo <? hi) with false by (symmetry; apply Z.ltb_ge; lia));
      discriminate.
  - destruct fuel as [|fuel]; [lia|]. simpl.
    replace (lo <? hi) with true by (symmetry; apply Z.ltb_lt; lia).
    unfold bind at 1. specialize (Hbody lo a s).
    destruct (body lo a s) as [a' s'| | |]; try discriminate; [|congruence].
    unfold Int.in_range in *.
    rewrite add_id by (unfold Int.in_range; lia).
    apply IH; try lia.
Qed.

(** Iteration over a list with an invariant indexed by the elements
    already processed. *)
Lemma foreach_rule {St T} (Inv : list T -> St -> Prop) (l : list T)
    (body : T -> prog St unit) s :
  Inv [] s ->
  (forall done x rest s, l = done ++ x :: rest -> Inv done s ->
     exists s', body x s = Done tt s' /\ Inv (done ++ [x]) s') ->
  exists s', foreach l body s = Done tt s' /\ Inv l s'.
Proof.
  intros HI Hstep.
  assert (G : forall rest done s, l = done ++ rest -> Inv done s ->
            exists s', foreach rest body s = Done tt s' /\ Inv l s').
  { induction rest as [|x rest IH]; intros done s1 E HI1.
    - rewrite app_nil_r in E. subst done. simpl. eauto.
    - simpl. destruct (Hstep done x rest s1 E HI1) as (s2 & E2 & HI2).
      unfold bind. rewrite E2. apply (IH (done ++ [x])); auto.
      rewrite <- app_assoc. exact E. }
  apply (G l [] s); auto.
Qed.

(* ================================================================= *)
(** ** Grids, blocks and folds over ranges *)

Lemma in_indices_iff (d t : dim3) :
  In t (Host.indices d) <->
  0 <= dx t < dx d /\ 0 <= dy t < dy d /\ 0 <= dz t < dz d.
Proof.
  unfold Host.indices. rewrite in_flat_map. split.
  - intros (z & Hz & Hin). apply in_flat_map in Hin as (y & Hy & Hin).
    apply in_map_iff in Hin as (x & <- & Hx).
    apply in_zrange in Hx, Hy, Hz. simpl. lia.
  - intros (Hx & Hy & Hz). exists (dz t). split; [apply in_zrange; lia|].
    apply in_flat_map. exists (dy t). split; [apply in_zrange; lia|].
    apply in_map_iff. exists (dx t). split; [destruct t; reflexivity|].
    apply in_zrange. lia.
Qed.

Fixpoint distinct (l : list (Z * Z)) : bool :=
  match l with
  | [] => true
  | (y, x) :: l' =>
      negb (existsb (fun p => (fst p =? y) && (snd p =? x)) l') && distinct l'
  end.

Lemma distinct_NoDup l : distinct l = true -> NoDup l.
Proof.
  induction l as [|[y x] l IH]; simpl; intros Hd; [constructor|].
  apply andb_true_iff in Hd as [Hn Hd]. constructor; auto.
  intros Hin. apply negb_true_iff in Hn.
  assert (existsb (fun p => (fst p =? y) && (snd p =? x)) l = true); [|congruence].
  apply existsb_exists. exists (y, x). split; auto. simpl.
  rewrite !Z.eqb_refl. reflexivity.
Qed.

Lemma zrange_app lo mid hi :
  lo <= mid <= hi -> zrange lo hi = zrange lo mid ++ zrange mid hi.
Proof.
  intros Hm. remember (Z.to_nat (hi - mid)) as n eqn:En.
  revert hi Hm En. induction n as [|n IH]; intros.
  - assert (hi = mid) by lia. subst hi.
    rewrite (zrange_nil mid mid) by lia. rewrite app_nil_r. reflexivity.
  - replace hi with (hi - 1 + 1) by lia.
    rewrite (zrange_snoc lo) by lia. rewrite (zrange_snoc mid) by lia.
    rewrite (IH (hi - 1)) by lia. rewrite app_assoc. reflexivity.
Qed.

Lemma fold_zrange_shift {A} (f : A -> Z -> A) lo n a :
  0 <= n ->
  fold_left (fun acc k => f acc (lo + k)) (zrange 0 n) a
  = fold_left f (zrange lo (lo + n)) a.
Proof.
  intros Hn. unfold zrange.
  replace (lo + n - lo) with (n - 0) by lia.
  generalize (seq 0 (Z.to_nat (n - 0))) as l. intros l. revert a.
  induction l as [|x l IH]; simpl; intros; auto.
Qed.

Lemma fold_left_ext_in {A B} (f g : A -> B -> A) l a :
  (forall acc x, In x l -> f acc x = g acc x) ->
  fold_left f l a = fold_left g l a.
Proof.
  revert a. induction l as [|x l IH]; simpl; intros a Hfg; auto.
  rewrite Hfg by auto. apply IH. intros. apply Hfg. auto.
Qed.

(* ================================================================= *)
(** ** The sequential convolution *)

Module SeqFacts.
Import ConvMem Seq.
Section Conv.
Context {F : Type} {FO : FloatOps F}.
Variables (input weight : buffer F) (H W I J C K : Z).
Variable fuel : nat.

Let Ho := H - I + 1.
Let Wo := W - J + 1.

Hypothesis HI : 1 <= I <= H.
Hypothesis HJ : 1 <= J <= W.
Hypothesis HC : 1 <= C.
Hypothesis HK : 1 <= K.
Hypothesis Hin : len input = H * W * C.
Hypothesis Hwt : len weight = I * J * C * K.
Hypothesis Hin_fit : H * W * C <= Int.max_int.
Hypothesis Hwt_fit : I * J * C * K <= Int.max_int.
Hypothesis Hout_fit : Ho * Wo * K <= Int.max_int.
Let n_out := Ho * Wo * K.

(** The three loop nests of the accumulation, innermost first. *)
Let body_c (h w k i j : Z) : Z -> F -> prog (@state F) F := fun c sum =>
  let in_idx := ((h +i i) *i W +i (w +i j)) *i C +i c in
  let wt_idx := ((i *i J +i j) *i C +i c) *i K +i k in
  x <- read Input input in_idx ;;
  y <- read Weight weight wt_idx ;;
  ret (fadd sum (fmul x y)).
Let body_j (h w k i : Z) : Z -> F -> prog (@state F) F := fun j sum =>
  for_ fuel 0 C (body_c h w k i j) sum.
Let body_i (h w k : Z) : Z -> F -> prog (@state F) F := fun i sum =>
  for_ fuel 0 J (body_j h w k i) sum.
Let body_k (h w : Z) : Z -> unit -> prog (@state F) unit := fun k _ =>
  sum <- for_ fuel 0 I (body_i h w k) fzero ;;
  write ((h *i (W -i J +i 1) +i w) *i K +i k) sum.
Let body_w (h : Z) : Z -> unit -> prog (@state F) unit := fun w _ =>
  for_ fuel 0 K (body_k h w) tt.
Let body_h : Z -> unit -> prog (@state F) unit := fun h _ =>
  for_ fuel 0 (W -i J +i 1) (body_w h) tt.

Lemma conv2d_unfold :
  conv2d fuel input weight H W I J C K = for_ fuel 0 (H -i I +i 1) body_h tt.
Proof. reflexivity. Qed.

Lemma facts :
  1 <= Ho /\ 1 <= Wo /\ Int.in_range H /\ Int.in_range W /\ Int.in_range I /\
  Int.in_range J /\ Int.in_range C /\ Int.in_range K /\
  Ho <= Int.max_int /\ Wo <= Int.max_int.
Proof.
  unfold Ho, Wo in *. unfold Int.in_range, Int.min_int, Int.max_int in *.
  pose proof (prod3_ge H W C ltac:(lia) ltac:(lia) ltac:(lia)) as (? & ? & ?).
  pose proof (prod3_ge (H - I + 1) (W - J + 1) K
                ltac:(lia) ltac:(lia) ltac:(lia)) as (? & ? & ?).
  repeat split; lia.
Qed.

Lemma Ho_id : H -i I +i 1 = Ho.
Proof.
  destruct facts as (? & ? & ? & ? & ? & ? & ? & ? & ? & ?). unfold Ho, Wo in *.
  unfold Int.in_range, Int.min_int, Int.max_int in *.
  rewrite sub_id, add_id; unfold Int.in_range, Int.min_int, Int.max_int; lia.
Qed.

Lemma Wo_id : W -i J +i 1 = Wo.
Proof.
  destruct facts as (? & ? & ? & ? & ? & ? & ? & ? & ? & ?). unfold Ho, Wo in *.
  unfold Int.in_range, Int.min_int, Int.max_int in *.
  rewrite sub_id, add_id; unfold Int.in_range, Int.min_int, Int.max_int; lia.
Qed.

Hypothesis Hfuel : (conv2d_fuel H W I J C K <= fuel)%nat.

Lemma fuel_facts :
  (Z.to_nat (Ho - 0) <= fuel /\ Z.to_nat (Wo - 0) <= fuel /\
   Z.to_nat (K - 0) <= fuel /\ Z.to_nat (I - 0) <= fuel /\
   Z.to_nat (J - 0) <= fuel /\ Z.to_nat (C - 0) <= fuel)%nat.
Proof.
  revert Hfuel. unfold conv2d_fuel. rewrite Ho_id, Wo_id. lia.
Qed.

(** *** Index arithmetic *)

Lemma in_idx_ok h w i j c :
  0 <= h < Ho -> 0 <= w < Wo -> 0 <= i < I -> 0 <= j < J -> 0 <= c < C ->
  ((h +i i) *i W +i (w +i j)) *i C +i c = ((h + i) * W + (w + j)) * C + c /\
  0 <= ((h + i) * W + (w + j)) * C + c < H * W * C.
Proof.
  intros Hh Hw Hi Hj Hc. unfold Ho, Wo in *.
  destruct facts as (_ & _ & RH & RW & _).
  unfold Int.in_range, Int.min_int, Int.max_int in *.
  rewrite (add_id h i), (add_id w j)
    by (unfold Int.in_range, Int.min_int, Int.max_int; lia).
  split.
  - apply (flat3_id _ _ _ H W C); unfold Int.max_int; lia.
  - apply flat3_bound; lia.
Qed.

Lemma wt_idx_ok i j c k :
  0 <= i < I -> 0 <= j < J -> 0 <= c < C -> 0 <= k < K ->
  ((i *i J +i j) *i C +i c) *i K +i k = ((i * J + j) * C + c) * K + k /\
  0 <= ((i * J + j) * C + c) * K + k < I * J * C * K.
Proof.
  intros Hi Hj Hc Hk.
  pose proof (flat_bound i j I J Hi Hj) as Hij.
  assert (I * J <= Int.max_int + 1) by (unfold Int.max_int in *; nia).
  rewrite (flat2_id i j I J) by assumption.
  split.
  - apply (flat3_id _ _ _ (I * J) C K); auto. unfold Int.max_int in *; lia.
  - apply flat3_bound; lia.
Qed.

Lemma out_idx_ok h w k :
  0 <= h < Ho -> 0 <= w < Wo -> 0 <= k < K ->
  (h *i (W -i J +i 1) +i w) *i K +i k = (h * Wo + w) * K + k /\
  0 <= (h * Wo + w) * K + k < n_out.
Proof.
  intros Hh Hw Hk. rewrite Wo_id. split.
  - apply (flat3_id _ _ _ Ho Wo K); auto. unfold Int.max_int in *; lia.
  - apply flat3_bound; lia.
Qed.

(** *** The accumulation *)

(** Events that read inside the two input arrays. *)
Definition quiet (evs : list event) : Prop :=
  Forall (fun e => match e with
                   | Rd Input i => 0 <= i < len input
                   | Rd Weight i => 0 <= i < len weight
                   | _ => False
                   end) evs.

(** [s'] extends [s] by in-bounds reads and leaves the output alone. *)
Definition frame (s s' : @state F) : Prop :=
  output s' = output s /\ exists evs, trace s' = evs ++ trace s /\ quiet evs.

Lemma frame_refl s : frame s s.
Proof. split; auto. exists []. split; auto. constructor. Qed.

Lemma frame_trans s1 s2 s3 : frame s1 s2 -> frame s2 s3 -> frame s1 s3.
Proof.
  intros (E1 & evs1 & T1 & Q1) (E2 & evs2 & T2 & Q2). split; [congruence|].
  exists (evs2 ++ evs1). rewrite T2, T1, app_assoc. split; auto.
  apply Forall_app; auto.
Qed.

Definition term (h w k i j c : Z) : F :=
  fmul (cell input (((h + i) * W + (w + j)) * C + c))
       (cell weight (((i * J + j) * C + c) * K + k)).

Definition sum_c (h w k i j : Z) (n : Z) (acc : F) : F :=
  fold_left (fun acc c => fadd acc (term h w k i j c)) (zrange 0 n) acc.
Definition sum_j (h w k i : Z) (n : Z) (acc : F) : F :=
  fold_left (fun acc j => sum_c h w k i j C acc) (zrange 0 n) acc.
Definition sum_i (h w k : Z) (n : Z) (acc : F) : F :=
  fold_left (fun acc i => sum_j h w k i J acc) (zrange 0 n) acc.

Lemma conv_sum_eq h w k : conv_sum input weight W I J C K h w k = sum_i h w k I fzero.
Proof. reflexivity. Qed.

Lemma body_c_ok h w k i j c sum s :
  0 <= h < Ho -> 0 <= w < Wo -> 0 <= k < K -> 0 <= i < I -> 0 <= j < J ->
  0 <= c < C ->
  exists s', body_c h w k i j c sum s = Done (fadd sum (term h w k i j c)) s'
             /\ frame s s'.
Proof.
  intros Hh Hw Hk Hi Hj Hc. unfold body_c. cbv zeta.
  destruct (in_idx_ok h w i j c) as [-> Bi]; auto.
  destruct (wt_idx_ok i j c k) as [-> Bw]; auto.
  unfold bind, read, load, in_bounds, ret.
  rewrite Hin, Hwt.
  replace (0 <=? ((h + i) * W + (w + j)) * C + c) with true by (symmetry; apply Z.leb_le; lia).
  replace (((h + i) * W + (w + j)) * C + c <? H * W * C) with true by (symmetry; apply Z.ltb_lt; lia).
  replace (0 <=? ((i * J + j) * C + c) * K + k) with true by (symmetry; apply Z.leb_le; lia).
  replace (((i * J + j) * C + c) * K + k <? I * J * C * K) with true by (symmetry; apply Z.ltb_lt; lia).
  simpl. eexists. split; [reflexivity|].
  split; [reflexivity|]. simpl.
  exists [Rd Weight (((i * J + j) * C + c) * K + k); Rd Input (((h + i) * W + (w + j)) * C + c)].
  split; [reflexivity|].
  repeat constructor; rewrite ?Hin, ?Hwt; lia.
Qed.

Lemma loop_c_ok h w k i j sum s :
  0 <= h < Ho -> 0 <= w < Wo -> 0 <= k < K -> 0 <= i < I -> 0 <= j < J ->
  exists s', for_ fuel 0 C (body_c h w k i j) sum s = Done (sum_c h w k i j C sum) s'
             /\ frame s s'.
Proof.
  intros Hh Hw Hk Hi Hj.
  destruct facts as (_ & _ & _ & _ & _ & _ & RC & _).
  destruct fuel_facts as (_ & _ & _ & _ & _ & FC).
  destruct (for_rule (fun c a s' => a = sum_c h w k i j c sum /\ frame s s')
              fuel 0 C (body_c h w k i j) sum s) as (a' & s' & E & -> & Fr);
    try (unfold Int.in_range, Int.min_int in *; lia); auto.
  - split; [reflexivity | apply frame_refl].
  - intros c a s1 Hc [-> Fr].
    destruct (body_c_ok h w k i j c (sum_c h w k i j c sum) s1) as (s2 & E2 & Fr2); auto.
    exists (fadd (sum_c h w k i j c sum) (term h w k i j c)), s2.
    split; [exact E2|]. split; [|eapply frame_trans; eauto].
    unfold sum_c. rewrite zrange_snoc by lia. rewrite fold_left_app. reflexivity.
  - eauto.
Qed.

Lemma loop_j_ok h w k i sum s :
  0 <= h < Ho -> 0 <= w < Wo -> 0 <= k < K -> 0 <= i < I ->
  exists s', for_ fuel 0 J (body_j h w k i) sum s = Done (sum_j h w k i J sum) s'
             /\ frame s s'.
Proof.
  intros Hh Hw Hk Hi.
  destruct facts as (_ & _ & _ & _ & _ & RJ & _).
  destruct fuel_facts as (_ & _ & _ & _ & FJ & _).
  destruct (for_rule (fun j a s' => a = sum_j h w k i j sum /\ frame s s')
              fuel 0 J (body_j h w k i) sum s) as (a' & s' & E & -> & Fr);
    try (unfold Int.in_range, Int.min_int in *; lia); auto.
  - split; [reflexivity | apply frame_refl].
  - intros j a s1 Hj [-> Fr]. unfold body_j.
    destruct (loop_c_ok h w k i j (sum_j h w k i j sum) s1) as (s2 & E2 & Fr2); auto.
    eexists _, s2. split; [exact E2|]. split; [|eapply frame_trans; eauto].
    unfold sum_j. rewrite zrange_snoc by lia. rewrite fold_left_app. reflexivity.
  - eauto.
Qed.

Lemma loop_i_ok h w k s :
  0 <= h < Ho -> 0 <= w < Wo -> 0 <= k < K ->
  exists s', for_ fuel 0 I (body_i h w k) fzero s
               = Done (conv_sum input weight W I J C K h w k) s'
             /\ frame s s'.
Proof.
  intros Hh Hw Hk. rewrite conv_sum_eq.
  destruct facts as (_ & _ & _ & _ & RI & _).
  destruct fuel_facts as (_ & _ & _ & FI & _ & _).
  destruct (for_rule (fun i a s' => a = sum_i h w k i fzero /\ frame s s')
              fuel 0 I (body_i h w k) fzero s) as (a' & s' & E & -> & Fr);
    try (unfold Int.in_range, Int.min_int in *; lia); auto.
  - split; [reflexivity | apply frame_refl].
  - intros i a s1 Hi [-> Fr]. unfold body_i.
    destruct (loop_j_ok h w k i (sum_i h w k i fzero) s1) as (s2 & E2 & Fr2); auto.
    eexists _, s2. split; [exact E2|]. split; [|eapply frame_trans; eauto].
    unfold sum_i. rewrite zrange_snoc by lia. rewrite fold_left_app. reflexivity.
  - eauto.
Qed.

(** *** The three output loops *)

Variable s0 : @state F.
Hypothesis Hout : len (output s0) = Ho * Wo * K.

(** After the first [p] output positions (in row-major order) have been
    processed: they hold the closed form, the accesses so far were in
    bounds and the indices written are 0, 1, ..., p-1 in this order. *)
Definition processed (p : Z) (s : @state F) : Prop :=
  len (output s) = n_out /\
  (forall h w k, 0 <= h < Ho -> 0 <= w < Wo -> 0 <= k < K ->
     (h * Wo + w) * K + k < p ->
     cell (output s) ((h * Wo + w) * K + k)
     = conv_sum input weight W I J C K h w k) /\
  exists evs, trace s = evs ++ trace s0 /\
    Forall (access_ok (len input) (len weight) n_out) evs /\
    writes evs = zrange 0 p.

Lemma quiet_no_writes evs :
  quiet evs ->
  flat_map (fun e => match e with Wr Output i => [i] | _ => [] end) evs = [].
Proof.
  induction 1 as [|e evs He _ IH]; simpl; auto.
  destruct e as [[] ?|[] ?| | |]; simpl; auto; contradiction.
Qed.

Lemma quiet_access_ok evs :
  quiet evs -> Forall (access_ok (len input) (len weight) n_out) evs.
Proof.
  intros Q. eapply Forall_impl; [|exact Q].
  intros [[] ?|[] ?| | |]; simpl; tauto.
Qed.

Lemma processed_init : processed 0 s0.
Proof.
  split; [exact Hout|]. split.
  - intros h w k Hh Hw Hk Hlt.
    pose proof (flat3_bound h w k Ho Wo K Hh Hw Hk). lia.
  - exists []. repeat split; auto.
Qed.

Lemma body_k_ok h w k s :
  0 <= h < Ho -> 0 <= w < Wo -> 0 <= k < K ->
  processed ((h * Wo + w) * K + k) s ->
  exists s', body_k h w k tt s = Done tt s'
             /\ processed ((h * Wo + w) * K + (k + 1)) s'.
Proof.
  intros Hh Hw Hk (Hlen & Hval & evs & Htr & Hok & Hwr).
  destruct (loop_i_ok h w k s) as (s1 & E1 & Eo & q & Tq & Q); auto.
  destruct (out_idx_ok h w k) as [Eidx Bidx]; auto.
  unfold body_k, bind. rewrite E1. unfold write, store, in_bounds.
  rewrite Eidx, Eo, Hlen.
  replace (0 <=? (h * Wo + w) * K + k) with true by (symmetry; apply Z.leb_le; lia).
  replace ((h * Wo + w) * K + k <? n_out) with true by (symmetry; apply Z.ltb_lt; lia).
  simpl. eexists. split; [reflexivity|].
  split; [reflexivity|]. split.
  - intros h' w' k' Hh' Hw' Hk' Hlt. simpl.
    destruct (Z.eqb_spec ((h' * Wo + w') * K + k') ((h * Wo + w) * K + k)) as [E|NE].
    + apply flat3_inj with (B := Wo) (C := K) in E; try lia.
      destruct E as (-> & -> & ->). reflexivity.
    + apply Hval; auto. lia.
  - exists (Wr Output ((h * Wo + w) * K + k) :: q ++ evs). simpl.
    rewrite Tq, Htr, app_assoc. split; [reflexivity|]. split.
    + constructor; [simpl; lia|]. apply Forall_app. split; auto.
      apply quiet_access_ok; auto.
    + unfold writes in *. simpl. rewrite flat_map_app, quiet_no_writes by auto.
      simpl. rewrite Hwr.
      replace ((h * Wo + w) * K + (k + 1)) with ((h * Wo + w) * K + k + 1) by lia.
      rewrite zrange_snoc by lia. reflexivity.
Qed.

Lemma body_w_ok h w s :
  0 <= h < Ho -> 0 <= w < Wo ->
  processed ((h * Wo + w) * K) s ->
  exists s', body_w h w tt s = Done tt s'
             /\ processed ((h * Wo + (w + 1)) * K) s'.
Proof.
  intros Hh Hw HP.
  destruct facts as (_ & _ & _ & _ & _ & _ & _ & RK & _).
  destruct fuel_facts as (_ & _ & FK & _).
  destruct (for_rule (fun k (_ : unit) s' => processed ((h * Wo + w) * K + k) s')
              fuel 0 K (body_k h w) tt s) as ([] & s' & E & HP');
    try (unfold Int.in_range, Int.min_int in *; lia); auto.
  - replace ((h * Wo + w) * K + 0) with ((h * Wo + w) * K) by lia. exact HP.
  - intros k [] s1 Hk HP1. destruct (body_k_ok h w k s1) as (s2 & E2 & HP2); eauto.
  - exists s'. split; [exact E|].
    replace ((h * Wo + (w + 1)) * K) with ((h * Wo + w) * K + K) by lia. exact HP'.
Qed.

Lemma body_h_ok h s :
  0 <= h < Ho ->
  processed (h * Wo * K) s ->
  exists s', body_h h tt s = Done tt s' /\ processed ((h + 1) * Wo * K) s'.
Proof.
  intros Hh HP.
  destruct facts as (_ & ? & _ & _ & _ & _ & _ & _ & _ & RWo).
  destruct fuel_facts as (_ & FW & _).
  unfold body_h. rewrite Wo_id.
  destruct (for_rule (fun w (_ : unit) s' => processed ((h * Wo + w) * K) s')
              fuel 0 Wo (body_w h) tt s) as ([] & s' & E & HP');
    try (unfold Int.in_range, Int.min_int in *; lia); auto.
  - replace ((h * Wo + 0) * K) with (h * Wo * K) by lia. exact HP.
  - intros w [] s1 Hw HP1. destruct (body_w_ok h w s1) as (s2 & E2 & HP2); eauto.
  - exists s'. split; [exact E|].
    replace ((h + 1) * Wo * K) with ((h * Wo + Wo) * K) by lia. exact HP'.
Qed.

Lemma conv2d_processed :
  exists s', conv2d fuel input weight H W I J C K s0 = Done tt s'
             /\ processed n_out s'.
Proof.
  rewrite conv2d_unfold, Ho_id.
  destruct facts as (? & _ & _ & _ & _ & _ & _ & _ & RHo & _).
  destruct fuel_facts as (FH & _).
  destruct (for_rule (fun h (_ : unit) s' => processed (h * Wo * K) s')
              fuel 0 Ho body_h tt s0) as ([] & s' & E & HP');
    try (unfold Int.in_range, Int.min_int in *; lia); auto.
  - apply processed_init.
  - intros h [] s1 Hh HP1. destruct (body_h_ok h s1) as (s2 & E2 & HP2); eauto.
  - eauto.
Qed.

(** *** The CUDA kernel on the same arrays *)

Definition good (h w k : Z) (s : @state F) : Prop :=
  cell (output s) ((h * Wo + w) * K + k) = conv_sum input weight W I J C K h w k.

Lemma gpu_grid_id :
  Gpu.grid_of (H -i I +i 1) (W -i J +i 1) K Gpu.block16
  = {| dx := Gemm.tiles Wo; dy := Gemm.tiles Ho; dz := K |}.
Proof.
  rewrite Ho_id, Wo_id.
  destruct facts as (? & ? & _ & _ & _ & _ & _ & RK & ? & ?).
  unfold Gpu.grid_of, Gpu.block16, UInt.div, UInt.sub, UInt.add, UInt.of_int.
  cbn [dx dy dz]. unfold Int.in_range, Int.min_int, Int.max_int in *.
  rewrite (uint_id Wo), (uint_id Ho), (uint_id K) by lia.
  rewrite (uint_id (Wo + 16)), (uint_id (Ho + 16)), (uint_id (K + 1)) by lia.
  rewrite !uint_id by lia.
  rewrite !Z.quot_div_nonneg by lia. unfold Gemm.tiles.
  f_equal; try (f_equal; lia).
  replace (K + 1 - 1) with K by lia. apply Z.div_1_r.
Qed.

Section Thread.
Variables b t : dim3.
Hypothesis Hbx : 0 <= dx b < Gemm.tiles Wo.
Hypothesis Hby : 0 <= dy b < Gemm.tiles Ho.
Hypothesis Hbz : 0 <= dz b < K.
Hypothesis Htx : 0 <= dx t < 16.
Hypothesis Hty : 0 <= dy t < 16.
Hypothesis Htz : dz t = 0.

Let h := dy b * 16 + dy t.
Let w := dx b * 16 + dx t.
Let k := dz b.

Lemma thread_coords :
  UInt.to_int (UInt.add (UInt.mul (dy b) (dy Gpu.block16)) (dy t)) = h /\
  UInt.to_int (UInt.add (UInt.mul (dx b) (dx Gpu.block16)) (dx t)) = w /\
  UInt.to_int (UInt.add (UInt.mul (dz b) (dz Gpu.block16)) (dz t)) = k /\
  0 <= h /\ 0 <= w.
Proof.
  destruct facts as (? & ? & _ & _ & _ & _ & _ & RK & ? & ?).
  pose proof (tiles_int Ho ltac:(lia)).
  pose proof (tiles_int Wo ltac:(lia)).
  unfold Int.in_range, Int.min_int, Int.max_int in *.
  assert (0 <= h < 2147483648) by (unfold h; lia).
  assert (0 <= w < 2147483648) by (unfold w; lia).
  unfold UInt.to_int, UInt.add, UInt.mul, Gpu.block16. cbn [dx dy dz].
  rewrite Htz.
  rewrite (uint_id (dy b * 16)), (uint_id (dx b * 16)), (uint_id (dz b * 1)) by lia.
  fold h. fold w. rewrite !uint_id by lia.
  rewrite !wrap_id by (unfold Int.in_range, Int.min_int, Int.max_int; lia).
  repeat split; lia.
Qed.

Lemma kernel_thread_ok (s : @state F) :
  len (output s) = n_out ->
  exists s',
    Gpu.conv2d_kernel fuel input weight H W I J C K Gpu.block16 b t s = Done tt s'
    /\ len (output s') = n_out
    /\ forall idx,
         cell (output s') idx
         = if (h <? Ho) && (w <? Wo) && (idx =? (h * Wo + w) * K + k)
           then conv_sum input weight W I J C K h w k
           else cell (output s) idx.
Proof.
  intros Hlen. unfold Gpu.conv2d_kernel. cbv zeta.
  destruct thread_coords as (-> & -> & -> & Bh & Bw).
  replace (h <? H -i I +i 1) with (h <? Ho) by (rewrite Ho_id; reflexivity).
  replace (w <? W -i J +i 1) with (w <? Wo) by (rewrite Wo_id; reflexivity).
  replace (k <? K) with true by (symmetry; apply Z.ltb_lt; unfold k; lia).
  rewrite andb_true_r.
  destruct ((h <? Ho) && (w <? Wo)) eqn:G.
  - apply andb_true_iff in G as [G1 G2]. apply Z.ltb_lt in G1, G2.
    destruct (loop_i_ok h w k s) as (s1 & E1 & Eo & q & Tq & Q);
      try (unfold k; lia).
    destruct (out_idx_ok h w k) as [Eidx Bidx]; try (unfold k; lia).
    rewrite (bind_done _ _ _ _ _ E1). unfold write, store, in_bounds.
    rewrite Eidx, Eo, Hlen.
    replace (0 <=? (h * Wo + w) * K + k) with true by (symmetry; apply Z.leb_le; lia).
    replace ((h * Wo + w) * K + k <? n_out) with true by (symmetry; apply Z.ltb_lt; lia).
    simpl. eexists. split; [reflexivity|]. split; [reflexivity|].
    intros idx. simpl. reflexivity.
  - exists s. unfold ret. repeat split; auto.
Qed.

Lemma kernel_thread_keeps (s s' : @state F) :
  (forall idx,
     cell (output s') idx
     = if (h <? Ho) && (w <? Wo) && (idx =? (h * Wo + w) * K + k)
       then conv_sum input weight W I J C K h w k
       else cell (output s) idx) ->
  (forall h' w' k', 0 <= h' < Ho -> 0 <= w' < Wo -> 0 <= k' < K ->
     good h' w' k' s -> good h' w' k' s')
  /\ (h < Ho -> w < Wo -> good h w k s').
Proof.
  intros Hc. split.
  - intros h' w' k' Hh' Hw' Hk' Hg. unfold good. rewrite Hc.
    destruct ((h <? Ho) && (w <? Wo)
              && ((h' * Wo + w') * K + k' =? (h * Wo + w) * K + k)) eqn:G; auto.
    apply andb_true_iff in G as [G G3]. apply andb_true_iff in G as [G1 G2].
    apply Z.ltb_lt in G1, G2. apply Z.eqb_eq in G3.
    apply flat3_inj in G3 as (-> & -> & ->); unfold h, w, k in *; try lia.
    reflexivity.
  - intros G1 G2. unfold good. rewrite Hc.
    replace (h <? Ho) with true by (symmetry; apply Z.ltb_lt; lia).
    replace (w <? Wo) with true by (symmetry; apply Z.ltb_lt; lia).
    rewrite Z.eqb_refl. reflexivity.
Qed.
End Thread.

Lemma in_gpu_block t :
  In t (Host.indices Gpu.block16) <-> 0 <= dx t < 16 /\ 0 <= dy t < 16 /\ dz t = 0.
Proof. rewrite in_indices_iff. unfold Gpu.block16. simpl. lia. Qed.

Lemma in_gpu_grid b :
  In b (Host.indices (Gpu.grid_of (H -i I +i 1) (W -i J +i 1) K Gpu.block16)) <->
  0 <= dx b < Gemm.tiles Wo /\ 0 <= dy b < Gemm.tiles Ho /\ 0 <= dz b < K.
Proof. rewrite gpu_grid_id, in_indices_iff. simpl. lia. Qed.

Lemma gpu_block_ok b (s : @state F) :
  0 <= dx b < Gemm.tiles Wo -> 0 <= dy b < Gemm.tiles Ho -> 0 <= dz b < K ->
  len (output s) = n_out ->
  exists s',
    foreach (Host.indices Gpu.block16)
      (fun threadIdx =>
         Gpu.conv2d_kernel fuel input weight H W I J C K Gpu.block16 b threadIdx) s
    = Done tt s'
    /\ len (output s') = n_out
    /\ (forall h w k, 0 <= h < Ho -> 0 <= w < Wo -> 0 <= k < K ->
          good h w k s -> good h w k s')
    /\ (forall y x, 0 <= y < 16 -> 0 <= x < 16 ->
          dy b * 16 + y < Ho -> dx b * 16 + x < Wo ->
          good (dy b * 16 + y) (dx b * 16 + x) (dz b) s').
Proof.
  intros Hbx Hby Hbz Hlen.
  destruct (foreach_rule (fun done s' =>
      len (output s') = n_out
      /\ (forall h w k, 0 <= h < Ho -> 0 <= w < Wo -> 0 <= k < K ->
            good h w k s -> good h w k s')
      /\ (forall t, In t done ->
            dy b * 16 + dy t < Ho -> dx b * 16 + dx t < Wo ->
            good (dy b * 16 + dy t) (dx b * 16 + dx t) (dz b) s'))
    (Host.indices Gpu.block16)
    (fun threadIdx =>
       Gpu.conv2d_kernel fuel input weight H W I J C K Gpu.block16 b threadIdx) s)
    as (s' & E & L & Kp & G).
  - repeat split; auto. intros ? [].
  - intros done t rest s1 El (L1 & K1 & G1).
    assert (Ht : In t (Host.indices Gpu.block16)) by (rewrite El; apply in_elt).
    apply in_gpu_block in Ht as (Ht1 & Ht2 & Ht3).
    destruct (kernel_thread_ok b t Hbx Hby Hbz Ht1 Ht2 Ht3 s1 L1) as (s2 & E & L2 & C2).
    assert (KK :
      (forall h' w' k', 0 <= h' < Ho -> 0 <= w' < Wo -> 0 <= k' < K ->
         good h' w' k' s1 -> good h' w' k' s2)
      /\ (dy b * 16 + dy t < Ho -> dx b * 16 + dx t < Wo ->
          good (dy b * 16 + dy t) (dx b * 16 + dx t) (dz b) s2))
      by (eapply kernel_thread_keeps; eauto).
    destruct KK as [Keep New].
    exists s2. split; [exact E|]. repeat split; auto.
    intros t' Hin0 Hh Hw. apply in_app_or in Hin0 as [Hin0|[<-|[]]].
    + assert (Ht' : In t' (Host.indices Gpu.block16))
        by (rewrite El; apply in_or_app; auto).
      apply in_gpu_block in Ht' as (? & ? & _).
      apply Keep; try lia. apply G1; auto.
    + apply New; auto.
  - exists s'. split; [exact E|]. repeat split; auto.
    intros y x Hy Hx Hh Hw.
    apply (G {| dx := x; dy := y; dz := 0 |}); auto.
    apply in_gpu_block. simpl. lia.
Qed.

Lemma gpu_grid_ok (s : @state F) :
  len (output s) = n_out ->
  exists s',
    foreach (Host.indices (Gpu.grid_of (H -i I +i 1) (W -i J +i 1) K Gpu.block16))
      (fun blockIdx =>
         foreach (Host.indices Gpu.block16) (fun threadIdx =>
           Gpu.conv2d_kernel fuel input weight H W I J C K
             Gpu.block16 blockIdx threadIdx)) s
    = Done tt s'
    /\ len (output s') = n_out
    /\ forall h w k, 0 <= h < Ho -> 0 <= w < Wo -> 0 <= k < K -> good h w k s'.
Proof.
  intros Hlen.
  destruct (foreach_rule (fun done s' =>
      len (output s') = n_out
      /\ (forall b, In b done -> forall y x, 0 <= y < 16 -> 0 <= x < 16 ->
            dy b * 16 + y < Ho -> dx b * 16 + x < Wo ->
            good (dy b * 16 + y) (dx b * 16 + x) (dz b) s'))
    (Host.indices (Gpu.grid_of (H -i I +i 1) (W -i J +i 1) K Gpu.block16))
    (fun blockIdx =>
       foreach (Host.indices Gpu.block16) (fun threadIdx =>
         Gpu.conv2d_kernel fuel input weight H W I J C K
           Gpu.block16 blockIdx threadIdx)) s)
    as (s' & E & L & G).
  - repeat split; auto. intros ? [].
  - intros done b rest s1 El (L1 & G1).
    assert (Hb : In b (Host.indices (Gpu.grid_of (H -i I +i 1) (W -i J +i 1) K Gpu.block16)))
      by (rewrite El; apply in_elt).
    apply in_gpu_grid in Hb as (Hb1 & Hb2 & Hb3).
    destruct (gpu_block_ok b s1 Hb1 Hb2 Hb3 L1) as (s2 & E & L2 & K2 & G2).
    exists s2. split; [exact E|]. repeat split; auto.
    intros b' Hin0 y x Hy Hx Hh Hw. apply in_app_or in Hin0 as [Hin0|[<-|[]]].
    + assert (Hb' : In b' (Host.indices (Gpu.grid_of (H -i I +i 1) (W -i J +i 1) K Gpu.block16)))
        by (rewrite El; apply in_or_app; auto).
      apply in_gpu_grid in Hb' as (? & ? & ?).
      apply K2; try lia. apply G1; auto.
    + apply G2; auto.
  - exists s'. split; [exact E|]. split; auto.
    intros h w k Hh Hw Hk.
    destruct facts as (? & ? & _).
    destruct (tiles_bound Ho) as [_ ?]; [lia|].
    destruct (tiles_bound Wo) as [_ ?]; [lia|].
    pose proof (Z.div_mod h 16 ltac:(lia)).
    pose proof (Z.div_mod w 16 ltac:(lia)).
    pose proof (Z.mod_pos_bound h 16 ltac:(lia)).
    pose proof (Z.mod_pos_bound w 16 ltac:(lia)).
    assert (0 <= h / 16 < Gemm.tiles Ho)
      by (split; [apply Z.div_pos; lia | apply Z.div_lt_upper_bound; lia]).
    assert (0 <= w / 16 < Gemm.tiles Wo)
      by (split; [apply Z.div_pos; lia | apply Z.div_lt_upper_bound; lia]).
    specialize (G {| dx := w / 16; dy := h / 16; dz := k |}
                  ltac:(apply in_gpu_grid; simpl; lia) (h mod 16) (w mod 16)).
    simpl in G.
    replace (h / 16 * 16 + h mod 16) with h in G by lia.
    replace (w / 16 * 16 + w mod 16) with w in G by lia.
    apply G; lia.
Qed.

Lemma gpu_launch_ok (w : @Host.world F) pin pwt pout out0 :
  nth_error (Host.device w) pin = Some input ->
  nth_error (Host.device w) pwt = Some weight ->
  nth_error (Host.device w) pout = Some out0 ->
  len out0 = n_out ->
  exists out',
    Gpu.launch fuel (Gpu.grid_of (H -i I +i 1) (W -i J +i 1) K Gpu.block16)
      Gpu.block16 (Some pin) (Some pwt) (Some pout) H W I J C K w
    = Done tt
        (Host.record
           (Launch (Gpu.grid_of (H -i I +i 1) (W -i J +i 1) K Gpu.block16) Gpu.block16)
           (Host.set_device (Host.update pout out' (Host.device w)) w))
    /\ len out' = n_out
    /\ forall h w k, 0 <= h < Ho -> 0 <= w < Wo -> 0 <= k < K ->
         cell out' ((h * Wo + w) * K + k) = conv_sum input weight W I J C K h w k.
Proof.
  intros Ei Ew Eo Hlen. unfold Gpu.launch, Host.deref. rewrite Ei, Ew, Eo.
  destruct (gpu_grid_ok {| output := out0; trace := [] |} Hlen) as (s' & E & L & G).
  rewrite E. exists (output s'). auto.
Qed.
End Conv.
End SeqFacts.

Lemma nth_error_update {A} (l : list A) n x y :
  nth_error l n = Some y -> nth_error (Host.update n x l) n = Some x.
Proof.
  revert n. induction l as [|z l IH]; intros [|n]; simpl; try discriminate; auto.
Qed.

Lemma nth_error_update_ne {A} (l : list A) n m x :
  n <> m -> nth_error (Host.update n x l) m = nth_error l m.
Proof.
  revert n m. induction l as [|z l IH]; intros [|n] [|m] Hne; simpl; auto;
    try congruence.
Qed.

Lemma length_update {A} (l : list A) n x : length (Host.update n x l) = length l.
Proof. revert n. induction l as [|z l IH]; intros [|n]; simpl; auto. Qed.

Lemma update_mid {A} (l r : list A) x y :
  Host.update (length l) y (l ++ x :: r) = l ++ y :: r.
Proof. induction l as [|z l IH]; simpl; congruence. Qed.

Lemma nth_error_mid {A} (l r : list A) x :
  nth_error (l ++ x :: r) (length l) = Some x.
Proof. induction l as [|z l IH]; simpl; auto. Qed.

Lemma length_snoc {A} (l : list A) x : length (l ++ [x]) = S (length l).
Proof. rewrite length_app. simpl. lia. Qed.

Lemma size_bytes n :
  0 <= n <= Int.max_int ->
  Z.quot (Size.mul (Size.of_int n) Size.sizeof_float) Size.sizeof_float = n.
Proof.
  unfold Int.max_int, Size.mul, Size.of_int, Size.wrap, Size.sizeof_float.
  intros Hn. rewrite (Z.mod_small n) by lia. rewrite Z.mod_small by lia.
  apply Z.quot_mul. lia.
Qed.

(* ================================================================= *)
(** ** The tiled GEMM kernel *)

Module GemmFacts.
Import Host Gemm.
Section Kernel.
Context {F : Type} {FO : FloatOps F}.
Variables (A B : buffer F) (M N K : Z) (fuel : nat).

Hypothesis HM : 1 <= M.
Hypothesis HN : 1 <= N.
Hypothesis HK : 1 <= K.
Hypothesis HlenA : len A = M * K.
Hypothesis HlenB : len B = K * N.
Hypothesis HMK : M * K <= Int.max_int.
Hypothesis HKN : K * N <= Int.max_int.
Hypothesis HMN : M * N <= Int.max_int.
Hypothesis HM16 : M + 16 <= Int.max_int.
Hypothesis HN16 : N + 16 <= Int.max_int.
Hypothesis HK16 : K + 16 <= Int.max_int.

(** The operands as the tiles hold them: zero outside the matrices. *)
Definition a_pad (r k : Z) : F :=
  if (r <? M) && (k <? K) then cell A (r * K + k) else fzero.
Definition b_pad (k c : Z) : F :=
  if (k <? K) && (c <? N) then cell B (k * N + c) else fzero.

(** The sum a thread has accumulated over the first [n] padded terms. *)
Definition partial (r c n : Z) : F :=
  fold_left (fun acc k => fadd acc (fmul (a_pad r k) (b_pad k c))) (zrange 0 n) fzero.

Lemma tiles_id n :
  0 <= n -> n + 16 <= Int.max_int ->
  (n +i 16 -i 1) /i 16 = tiles n.
Proof.
  intros Hn Hfit. unfold Int.max_int in *.
  rewrite add_id by (unfold Int.in_range, Int.min_int, Int.max_int; lia).
  rewrite sub_id by (unfold Int.in_range, Int.min_int, Int.max_int; lia).
  unfold Int.div. replace (n + 16 - 1) with (n + 15) by lia.
  rewrite Z.quot_div_nonneg by lia. fold (tiles n).
  destruct (tiles_bound n Hn). apply wrap_id.
  unfold Int.in_range, Int.min_int, Int.max_int. lia.
Qed.

Lemma grid_id : grid_of M N = {| dx := tiles N; dy := tiles M; dz := 1 |}.
Proof.
  unfold grid_of, TILE_N, TILE_M.
  rewrite !tiles_id by lia.
  destruct (tiles_bound M), (tiles_bound N); try lia.
  unfold UInt.of_int. rewrite !uint_id by (unfold Int.max_int in *; lia).
  reflexivity.
Qed.

Lemma in_block16 t :
  In t (indices block16) <-> 0 <= dx t < 16 /\ 0 <= dy t < 16 /\ dz t = 0.
Proof. rewrite in_indices_iff. simpl. vm_compute UInt.of_int. lia. Qed.

Lemma block16_distinct :
  NoDup (map (fun t => (dy t, dx t)) (indices block16)).
Proof. apply distinct_NoDup. vm_compute. reflexivity. Qed.

Lemma compute_tile_ok (threadIdx : dim3) (s : @block_state F) :
  (16 <= fuel)%nat ->
  exists s', compute_tile fuel threadIdx s = Done tt s'
    /\ sA s' = sA s /\ sB s' = sB s /\ gC s' = gC s /\ ktrace s' = ktrace s
    /\ sum s' (dy threadIdx) (dx threadIdx)
       = fold_left (fun acc k =>
                      fadd acc (fmul (sA s (dy threadIdx) k) (sB s k (dx threadIdx))))
           (zrange 0 16) (sum s (dy threadIdx) (dx threadIdx))
    /\ forall y x, (y, x) <> (dy threadIdx, dx threadIdx) ->
                   sum s' y x = sum s y x.
Proof.
  intros Hf. unfold compute_tile, TILE_K.
  destruct (for_rule (fun k (_ : unit) s' =>
      sA s' = sA s /\ sB s' = sB s /\ gC s' = gC s /\ ktrace s' = ktrace s
      /\ sum s' (dy threadIdx) (dx threadIdx)
         = fold_left (fun acc k =>
                        fadd acc (fmul (sA s (dy threadIdx) k) (sB s k (dx threadIdx))))
             (zrange 0 k) (sum s (dy threadIdx) (dx threadIdx))
      /\ forall y x, (y, x) <> (dy threadIdx, dx threadIdx) ->
                     sum s' y x = sum s y x)
    fuel 0 16
    (fun k (_ : unit) =>
       s <- get ;;
       set_sum (dy threadIdx) (dx threadIdx)
         (fadd (sum s (dy threadIdx) (dx threadIdx))
               (fmul (sA s (dy threadIdx) k) (sB s k (dx threadIdx)))))
    tt s) as ([] & s' & E & HI);
    try (unfold Int.min_int, Int.max_int; lia).
  - repeat split; auto.
  - intros k [] s1 Hk (E1 & E2 & E3 & E4 & E5 & E6).
    eexists tt, _. split; [reflexivity|]. simpl.
    repeat split; auto.
    + unfold at2. rewrite !Z.eqb_refl. simpl.
      rewrite zrange_snoc by lia. rewrite fold_left_app. simpl.
      rewrite E5, E1, E2. reflexivity.
    + intros y x Hne. unfold at2.
      destruct (Z.eqb_spec y (dy threadIdx)); destruct (Z.eqb_spec x (dx threadIdx));
        simpl; auto. subst. congruence.
  - exists s'. split; [exact E|]. exact HI.
Qed.

(** *** Index arithmetic of a thread *)

Section Thread.
Variables blockIdx threadIdx : dim3.
Hypothesis Hbx : 0 <= dx blockIdx < tiles N.
Hypothesis Hby : 0 <= dy blockIdx < tiles M.
Hypothesis Htx : 0 <= dx threadIdx < 16.
Hypothesis Hty : 0 <= dy threadIdx < 16.

Let r := dy blockIdx * 16 + dy threadIdx.
Let c := dx blockIdx * 16 + dx threadIdx.

Lemma row_id : row blockIdx threadIdx = r /\ 0 <= r < M + 15.
Proof.
  destruct (tiles_bound M) as [_ ?]; [lia|].
  assert (0 <= r < M + 15) by (unfold r; lia). split; auto.
  unfold row, UInt.to_int, UInt.add, UInt.mul, UInt.of_int, TILE_M.
  unfold Int.max_int in *.
  rewrite (uint_id 16) by lia.
  rewrite (uint_id (dy blockIdx * 16)) by lia.
  rewrite uint_id by (unfold r in *; lia).
  apply wrap_id. unfold Int.in_range, Int.min_int, Int.max_int, r in *. lia.
Qed.

Lemma col_id : col blockIdx threadIdx = c /\ 0 <= c < N + 15.
Proof.
  destruct (tiles_bound N) as [_ ?]; [lia|].
  assert (0 <= c < N + 15) by (unfold c; lia). split; auto.
  unfold col, UInt.to_int, UInt.add, UInt.mul, UInt.of_int, TILE_N.
  unfold Int.max_int in *.
  rewrite (uint_id 16) by lia.
  rewrite (uint_id (dx blockIdx * 16)) by lia.
  rewrite uint_id by (unfold c in *; lia).
  apply wrap_id. unfold Int.in_range, Int.min_int, Int.max_int, c in *. lia.
Qed.

Lemma tiled_id t x :
  0 <= t < tiles K -> 0 <= x < 16 ->
  UInt.to_int (UInt.add (UInt.of_int (t *i TILE_K)) x) = t * 16 + x
  /\ 0 <= t * 16 + x < K + 15.
Proof.
  intros Ht Hx. destruct (tiles_bound K) as [_ ?]; [lia|].
  assert (0 <= t * 16 + x < K + 15) by lia. split; auto.
  unfold TILE_K, Int.max_int in *.
  rewrite mul_id by (unfold Int.in_range, Int.min_int, Int.max_int; lia).
  unfold UInt.to_int, UInt.add, UInt.of_int.
  rewrite (uint_id (t * 16)) by lia. rewrite uint_id by lia.
  apply wrap_id. unfold Int.in_range, Int.min_int, Int.max_int. lia.
Qed.

Lemma load_tiles_ok t s :
  0 <= t < tiles K ->
  exists s', load_tiles A B M N K blockIdx threadIdx t s = Done tt s'
    /\ sA s' = at2 (sA s) (dy threadIdx) (dx threadIdx)
                 (a_pad r (t * 16 + dx threadIdx))
    /\ sB s' = at2 (sB s) (dy threadIdx) (dx threadIdx)
                 (b_pad (t * 16 + dy threadIdx) c)
    /\ sum s' = sum s /\ gC s' = gC s /\ ktrace s' = ktrace s.
Proof.
  intros Ht. unfold load_tiles. cbv zeta.
  destruct row_id as [-> Br]. destruct col_id as [-> Bc].
  destruct (tiled_id t (dx threadIdx) Ht Htx) as [-> Bk].
  destruct (tiled_id t (dy threadIdx) Ht Hty) as [-> Bk'].
  assert (Ea : forall s1,
    (if (r <? M) && (t * 16 + dx threadIdx <? K)
     then gread A (r *i K +i (t * 16 + dx threadIdx))
     else ret fzero) s1 = Done (a_pad r (t * 16 + dx threadIdx)) s1).
  { intros s1. unfold a_pad.
    destruct ((r <? M) && (t * 16 + dx threadIdx <? K)) eqn:G; [|reflexivity].
    apply andb_true_iff in G as [G1 G2].
    apply Z.ltb_lt in G1, G2.
    rewrite (flat2_id r _ M K) by (unfold Int.max_int in *; lia).
    pose proof (flat_bound r (t * 16 + dx threadIdx) M K ltac:(lia) ltac:(lia)).
    unfold gread, load, in_bounds. rewrite HlenA.
    replace (0 <=? r * K + (t * 16 + dx threadIdx)) with true
      by (symmetry; apply Z.leb_le; lia).
    replace (r * K + (t * 16 + dx threadIdx) <? M * K) with true
      by (symmetry; apply Z.ltb_lt; lia).
    reflexivity. }
  assert (Eb : forall s2,
    (if (t * 16 + dy threadIdx <? K) && (c <? N)
     then gread B ((t * 16 + dy threadIdx) *i N +i c)
     else ret fzero) s2 = Done (b_pad (t * 16 + dy threadIdx) c) s2).
  { intros s2. unfold b_pad.
    destruct ((t * 16 + dy threadIdx <? K) && (c <? N)) eqn:G; [|reflexivity].
    apply andb_true_iff in G as [G1 G2].
    apply Z.ltb_lt in G1, G2.
    rewrite (flat2_id _ c K N) by (unfold Int.max_int in *; lia).
    pose proof (flat_bound (t * 16 + dy threadIdx) c K N ltac:(lia) ltac:(lia)).
    unfold gread, load, in_bounds. rewrite HlenB.
    replace (0 <=? (t * 16 + dy threadIdx) * N + c) with true
      by (symmetry; apply Z.leb_le; lia).
    replace ((t * 16 + dy threadIdx) * N + c <? K * N) with true
      by (symmetry; apply Z.ltb_lt; lia).
    reflexivity. }
  unfold bind at 1. rewrite Ea.
  unfold bind at 1. unfold set_sA at 1.
  unfold bind at 1. rewrite Eb.
  unfold set_sB. eexists. split; [reflexivity|]. simpl. auto.
Qed.

Lemma store_result_ok (s : @block_state F) :
  len (gC s) = M * N ->
  exists s', store_result M N blockIdx threadIdx s = Done tt s'
    /\ sum s' = sum s /\ ktrace s' = ktrace s /\ len (gC s') = M * N
    /\ forall idx,
         cell (gC s') idx
         = if (r <? M) && (c <? N) && (idx =? r * N + c)
           then sum s (dy threadIdx) (dx threadIdx)
           else cell (gC s) idx.
Proof.
  intros Hlen. unfold store_result. cbv zeta.
  destruct row_id as [-> Br]. destruct col_id as [-> Bc].
  destruct ((r <? M) && (c <? N)) eqn:G.
  - apply andb_true_iff in G as [G1 G2]. apply Z.ltb_lt in G1, G2.
    rewrite (flat2_id r c M N) by (unfold Int.max_int in *; lia).
    pose proof (flat_bound r c M N ltac:(lia) ltac:(lia)).
    unfold bind, get, gwrite, store, in_bounds. rewrite Hlen.
    replace (0 <=? r * N + c) with true by (symmetry; apply Z.leb_le; lia).
    replace (r * N + c <? M * N) with true by (symmetry; apply Z.ltb_lt; lia).
    simpl. eexists. split; [reflexivity|]. simpl. repeat split; auto.
  - exists s. unfold ret. repeat split; auto.
Qed.
End Thread.

(** *** The phases of a block *)

Section Block.
Variable blockIdx : dim3.
Hypothesis Hbx : 0 <= dx blockIdx < tiles N.
Hypothesis Hby : 0 <= dy blockIdx < tiles M.
Hypothesis Hfuel : (gemm_fuel K <= fuel)%nat.

Lemma gemm_fuel_facts : (16 <= fuel)%nat /\ (Z.to_nat (tiles K - 0) <= fuel)%nat.
Proof.
  revert Hfuel. unfold gemm_fuel, TILE_K. rewrite (tiles_id K) by lia.
  lia.
Qed.

Lemma load_phase_ok t s :
  0 <= t < tiles K ->
  exists s',
    foreach (indices block16)
      (fun threadIdx => load_tiles A B M N K blockIdx threadIdx t) s = Done tt s'
    /\ (forall y x, 0 <= y < 16 -> 0 <= x < 16 ->
          sA s' y x = a_pad (dy blockIdx * 16 + y) (t * 16 + x)
          /\ sB s' y x = b_pad (t * 16 + y) (dx blockIdx * 16 + x))
    /\ sum s' = sum s /\ gC s' = gC s /\ ktrace s' = ktrace s.
Proof.
  intros Ht.
  destruct (foreach_rule (fun done s' =>
      (forall tid, In tid done ->
         sA s' (dy tid) (dx tid) = a_pad (dy blockIdx * 16 + dy tid) (t * 16 + dx tid)
         /\ sB s' (dy tid) (dx tid) = b_pad (t * 16 + dy tid) (dx blockIdx * 16 + dx tid))
      /\ sum s' = sum s /\ gC s' = gC s /\ ktrace s' = ktrace s)
    (indices block16)
    (fun threadIdx => load_tiles A B M N K blockIdx threadIdx t) s)
    as (s' & E & HI & Hrest).
  - repeat split; auto; contradiction.
  - intros done x rest s1 El (HI1 & E1 & E2 & E3).
    assert (Hx : In x (indices block16)) by (rewrite El; apply in_elt).
    apply in_block16 in Hx as (Hx1 & Hx2 & _).
    destruct (load_tiles_ok blockIdx x Hbx Hby Hx1 Hx2 t s1 Ht)
      as (s2 & E & EA & EB & ES & EC & ET).
    exists s2. split; [exact E|].
    split; [|repeat split; congruence].
    intros tid Hin. rewrite EA, EB. unfold at2.
    destruct ((dy tid =? dy x) && (dx tid =? dx x)) eqn:G.
    + apply andb_true_iff in G as [G1 G2].
      apply Z.eqb_eq in G1, G2. rewrite G1, G2. auto.
    + apply in_app_or in Hin as [Hin|[<-|[]]].
      * apply HI1; auto.
      * rewrite !Z.eqb_refl in G. discriminate.
  - exists s'. split; [exact E|]. split; [|exact Hrest].
    intros y x Hy Hx.
    apply (HI {| dx := x; dy := y; dz := 0 |}).
    apply in_block16. simpl. lia.
Qed.

Lemma compute_phase_ok s :
  exists s',
    foreach (indices block16) (fun threadIdx => compute_tile fuel threadIdx) s
    = Done tt s'
    /\ sA s' = sA s /\ sB s' = sB s /\ gC s' = gC s /\ ktrace s' = ktrace s
    /\ forall y x, 0 <= y < 16 -> 0 <= x < 16 ->
         sum s' y x
         = fold_left (fun acc k => fadd acc (fmul (sA s y k) (sB s k x)))
             (zrange 0 16) (sum s y x).
Proof.
  destruct gemm_fuel_facts as [F16 _].
  pose (key := fun t : dim3 => (dy t, dx t)).
  destruct (foreach_rule (fun done s' =>
      sA s' = sA s /\ sB s' = sB s /\ gC s' = gC s /\ ktrace s' = ktrace s
      /\ (forall tid, In tid done ->
            sum s' (dy tid) (dx tid)
            = fold_left (fun acc k => fadd acc (fmul (sA s (dy tid) k) (sB s k (dx tid))))
                (zrange 0 16) (sum s (dy tid) (dx tid)))
      /\ (forall y x, ~ In (y, x) (map key done) -> sum s' y x = sum s y x))
    (indices block16)
    (fun threadIdx => compute_tile fuel threadIdx) s)
    as (s' & E & HI).
  - repeat split; auto. intros ? [].
  - intros done x rest s1 El (E1 & E2 & E3 & E4 & Hd & Hn).
    assert (Hx : In x (indices block16)) by (rewrite El; apply in_elt).
    apply in_block16 in Hx as (Hx1 & Hx2 & _).
    assert (Hfresh : ~ In (key x) (map key done)).
    { pose proof block16_distinct as ND. fold key in ND.
      rewrite El, map_app in ND. simpl in ND.
      apply NoDup_remove_2 in ND. intros Hin. apply ND.
      apply in_or_app. auto. }
    destruct (compute_tile_ok x s1 F16)
      as (s2 & E & EA & EB & EC & ET & ES & EO).
    exists s2. split; [exact E|].
    repeat split; try congruence.
    + intros tid Hin. apply in_app_or in Hin as [Hin|[<-|[]]].
      * rewrite EO; [apply Hd; auto|].
        intros Heq. apply Hfresh. unfold key at 1. rewrite <- Heq.
        apply (in_map key) in Hin. exact Hin.
      * rewrite ES, E1, E2. f_equal. apply Hn. exact Hfresh.
    + intros y x0 Hnot. rewrite map_app in Hnot. simpl in Hnot.
      rewrite EO; [apply Hn|]; intros Hc; apply Hnot; apply in_or_app; auto.
      right. left. unfold key. congruence.
  - destruct HI as (E1 & E2 & E3 & E4 & Hd & _).
    exists s'. split; [exact E|]. repeat split; auto.
    intros y x Hy Hx.
    apply (Hd {| dx := x; dy := y; dz := 0 |}).
    apply in_block16. simpl. lia.
Qed.

Lemma partial_step r c t :
  0 <= t ->
  fold_left (fun acc k => fadd acc (fmul (a_pad r (t * 16 + k)) (b_pad (t * 16 + k) c)))
    (zrange 0 16) (partial r c (t * 16))
  = partial r c ((t + 1) * 16).
Proof.
  intros Ht.
  rewrite (fold_zrange_shift
             (fun acc k => fadd acc (fmul (a_pad r k) (b_pad k c))) (t * 16) 16)
    by lia.
  unfold partial. rewrite (zrange_app 0 (t * 16) ((t + 1) * 16)) by lia.
  rewrite fold_left_app. f_equal. f_equal. lia.
Qed.

Lemma tile_iteration_ok t s :
  0 <= t < tiles K ->
  (forall y x, 0 <= y < 16 -> 0 <= x < 16 ->
     sum s y x = partial (dy blockIdx * 16 + y) (dx blockIdx * 16 + x) (t * 16)) ->
  exists s',
    tile_iteration fuel A B M N K block16 blockIdx t s = Done tt s'
    /\ (forall y x, 0 <= y < 16 -> 0 <= x < 16 ->
          sum s' y x
          = partial (dy blockIdx * 16 + y) (dx blockIdx * 16 + x) ((t + 1) * 16))
    /\ gC s' = gC s
    /\ ktrace s' = Barrier :: Barrier :: ktrace s.
Proof.
  intros Ht Hsum. unfold tile_iteration.
  destruct (load_phase_ok t s Ht) as (s1 & E1 & Hsh & S1 & C1 & T1).
  destruct (compute_phase_ok
              {| sA := sA s1; sB := sB s1; sum := sum s1; gC := gC s1;
                 ktrace := Barrier :: ktrace s1 |})
    as (s3 & E3 & A3 & B3 & C3 & T3 & S3).
  unfold bind, syncthreads. rewrite E1. cbv beta iota. rewrite E3.
  eexists. split; [reflexivity|]. cbn [sA sB sum gC ktrace].
  cbn [sA sB sum gC ktrace] in C3, T3, S3, A3, B3.
  split; [|split; [congruence | rewrite T3, T1; reflexivity]].
  intros y x Hy Hx. rewrite S3 by auto.
  rewrite S1, Hsum by auto. rewrite <- partial_step by lia.
  apply fold_left_ext_in. intros acc k Hk. apply in_zrange in Hk.
  destruct (Hsh y k Hy ltac:(lia)) as [-> _].
  destruct (Hsh k x ltac:(lia) Hx) as [_ ->]. reflexivity.
Qed.

(** Whatever the registers hold, an iteration completes and passes
    two barriers. *)
Lemma tile_iteration_runs t (s : @block_state F) :
  0 <= t < tiles K ->
  exists s',
    tile_iteration fuel A B M N K block16 blockIdx t s = Done tt s'
    /\ ktrace s' = Barrier :: Barrier :: ktrace s.
Proof.
  intros Ht. unfold tile_iteration.
  destruct (load_phase_ok t s Ht) as (s1 & E1 & _ & _ & _ & T1).
  destruct (compute_phase_ok
              {| sA := sA s1; sB := sB s1; sum := sum s1; gC := gC s1;
                 ktrace := Barrier :: ktrace s1 |})
    as (s3 & E3 & _ & _ & _ & T3 & _).
  unfold bind, syncthreads. rewrite E1. cbv beta iota. rewrite E3.
  eexists. split; [reflexivity|]. cbn [ktrace] in *.
  rewrite T3, T1. reflexivity.
Qed.

(** What a thread holds in [sum] after the tile loop. *)
Definition ref (r c : Z) : F := partial r c (16 * tiles K).

Lemma init_phase_ok (s : @block_state F) :
  exists s',
    foreach (indices block16)
      (fun threadIdx => set_sum (dy threadIdx) (dx threadIdx) fzero) s = Done tt s'
    /\ gC s' = gC s /\ ktrace s' = ktrace s
    /\ forall y x, 0 <= y < 16 -> 0 <= x < 16 -> sum s' y x = fzero.
Proof.
  destruct (foreach_rule (fun done s' =>
      gC s' = gC s /\ ktrace s' = ktrace s
      /\ forall tid, In tid done -> sum s' (dy tid) (dx tid) = fzero)
    (indices block16)
    (fun threadIdx => set_sum (dy threadIdx) (dx threadIdx) fzero) s)
    as (s' & E & E1 & E2 & HI).
  - repeat split; auto. intros ? [].
  - intros done x rest s1 _ (E1 & E2 & HI1).
    eexists. split; [reflexivity|]. cbn [sA sB sum gC ktrace].
    repeat split; auto. intros tid Hin. unfold at2.
    destruct ((dy tid =? dy x) && (dx tid =? dx x)) eqn:G; auto.
    apply in_app_or in Hin as [Hin|[<-|[]]]; auto.
    rewrite !Z.eqb_refl in G. discriminate.
  - exists s'. repeat split; auto. intros y x Hy Hx.
    apply (HI {| dx := x; dy := y; dz := 0 |}).
    apply in_block16. simpl. lia.
Qed.

Lemma barriers_cons2 tr : barriers (Barrier :: Barrier :: tr) = S (S (barriers tr)).
Proof. reflexivity. Qed.

Lemma tile_loop_ok s :
  (forall y x, 0 <= y < 16 -> 0 <= x < 16 -> sum s y x = fzero) ->
  exists s',
    for_ fuel 0 ((K +i TILE_K -i 1) /i TILE_K)
      (fun t _ => tile_iteration fuel A B M N K block16 blockIdx t) tt s
    = Done tt s'
    /\ gC s' = gC s
    /\ (forall y x, 0 <= y < 16 -> 0 <= x < 16 ->
          sum s' y x = ref (dy blockIdx * 16 + y) (dx blockIdx * 16 + x))
    /\ barriers (ktrace s') = (barriers (ktrace s) + 2 * Z.to_nat (tiles K))%nat.
Proof.
  intros H0. unfold TILE_K. rewrite (tiles_id K) by lia.
  destruct (tiles_bound K) as [T0 T1]; [lia|].
  destruct gemm_fuel_facts as [_ FT].
  destruct (for_rule (fun t (_ : unit) s' =>
      gC s' = gC s
      /\ (forall y x, 0 <= y < 16 -> 0 <= x < 16 ->
            sum s' y x = partial (dy blockIdx * 16 + y) (dx blockIdx * 16 + x) (t * 16))
      /\ barriers (ktrace s') = (barriers (ktrace s) + 2 * Z.to_nat t)%nat)
    fuel 0 (tiles K)
    (fun t _ => tile_iteration fuel A B M N K block16 blockIdx t) tt s)
    as ([] & s' & E & E1 & E2 & E3);
    try (unfold Int.min_int, Int.max_int in *; lia).
  - repeat split; auto; simpl; lia.
  - intros t [] s1 Ht (E1 & E2 & E3).
    destruct (tile_iteration_ok t s1 Ht E2) as (s2 & E & S2 & C2 & T2).
    exists tt, s2. split; [exact E|]. repeat split; auto; try congruence.
    rewrite T2, barriers_cons2, E3. lia.
  - exists s'. split; [exact E|]. repeat split; auto.
    intros y x Hy Hx. unfold ref. rewrite E2 by auto. f_equal. lia.
Qed.

(** An element already in place stays in place when another thread
    stores its result. *)
Lemma store_phase_ok (s : @block_state F) :
  len (gC s) = M * N ->
  (forall y x, 0 <= y < 16 -> 0 <= x < 16 ->
     sum s y x = ref (dy blockIdx * 16 + y) (dx blockIdx * 16 + x)) ->
  exists s',
    foreach (indices block16)
      (fun threadIdx => store_result M N blockIdx threadIdx) s = Done tt s'
    /\ len (gC s') = M * N /\ ktrace s' = ktrace s
    /\ (forall r c, 0 <= r < M -> 0 <= c < N ->
          cell (gC s) (r * N + c) = ref r c -> cell (gC s') (r * N + c) = ref r c)
    /\ (forall y x, 0 <= y < 16 -> 0 <= x < 16 ->
          dy blockIdx * 16 + y < M -> dx blockIdx * 16 + x < N ->
          cell (gC s') ((dy blockIdx * 16 + y) * N + (dx blockIdx * 16 + x))
          = ref (dy blockIdx * 16 + y) (dx blockIdx * 16 + x)).
Proof.
  intros Hlen Hsum.
  destruct (foreach_rule (fun done s' =>
      sum s' = sum s /\ ktrace s' = ktrace s /\ len (gC s') = M * N
      /\ (forall r c, 0 <= r < M -> 0 <= c < N ->
            cell (gC s) (r * N + c) = ref r c -> cell (gC s') (r * N + c) = ref r c)
      /\ (forall tid, In tid done ->
            dy blockIdx * 16 + dy tid < M -> dx blockIdx * 16 + dx tid < N ->
            cell (gC s') ((dy blockIdx * 16 + dy tid) * N + (dx blockIdx * 16 + dx tid))
            = ref (dy blockIdx * 16 + dy tid) (dx blockIdx * 16 + dx tid)))
    (indices block16)
    (fun threadIdx => store_result M N blockIdx threadIdx) s)
    as (s' & E & E1 & E2 & E3 & E4 & HI).
  - repeat split; auto. intros ? [].
  - intros done x rest s1 El (E1 & E2 & E3 & E4 & HI1).
    assert (Hx : In x (indices block16)) by (rewrite El; apply in_elt).
    apply in_block16 in Hx as (Hx1 & Hx2 & _).
    destruct (store_result_ok blockIdx x Hbx Hby Hx1 Hx2 s1 E3)
      as (s2 & E & S2 & T2 & L2 & C2).
    assert (Keep : forall r c, 0 <= r < M -> 0 <= c < N ->
              cell (gC s1) (r * N + c) = ref r c ->
              cell (gC s2) (r * N + c) = ref r c).
    { intros r c Hr Hc Hgood. rewrite C2.
      destruct ((dy blockIdx * 16 + dy x <? M) && (dx blockIdx * 16 + dx x <? N)
                && (r * N + c =? (dy blockIdx * 16 + dy x) * N + (dx blockIdx * 16 + dx x)))
        eqn:G; auto.
      apply andb_true_iff in G as [G G3]. apply andb_true_iff in G as [G1 G2].
      apply Z.ltb_lt in G1, G2. apply Z.eqb_eq in G3.
      apply flat_inj in G3 as [-> ->]; try lia.
      rewrite E1. apply Hsum; auto. }
    exists s2. split; [exact E|].
    repeat split; try congruence.
    + intros r c Hr Hc Hgood. apply Keep; auto.
    + intros tid Hin Hr Hc. apply in_app_or in Hin as [Hin|[<-|[]]].
      * assert (In tid (indices block16)) as Ht
          by (rewrite El; apply in_or_app; auto).
        apply in_block16 in Ht as (? & ? & _).
        apply Keep; auto; lia.
      * rewrite C2.
        replace (dy blockIdx * 16 + dy x <? M) with true
          by (symmetry; apply Z.ltb_lt; lia).
        replace (dx blockIdx * 16 + dx x <? N) with true
          by (symmetry; apply Z.ltb_lt; lia).
        rewrite Z.eqb_refl. simpl. rewrite E1. apply Hsum; auto.
  - exists s'. split; [exact E|]. repeat split; auto.
    intros y x Hy Hx Hr Hc.
    apply (HI {| dx := x; dy := y; dz := 0 |}); auto.
    apply in_block16. simpl. lia.
Qed.

Lemma kernel_ok (s : @block_state F) :
  len (gC s) = M * N ->
  exists s',
    gemm_kernel fuel A B M N K block16 blockIdx s = Done tt s'
    /\ len (gC s') = M * N
    /\ (forall r c, 0 <= r < M -> 0 <= c < N ->
          cell (gC s) (r * N + c) = ref r c -> cell (gC s') (r * N + c) = ref r c)
    /\ (forall y x, 0 <= y < 16 -> 0 <= x < 16 ->
          dy blockIdx * 16 + y < M -> dx blockIdx * 16 + x < N ->
          cell (gC s') ((dy blockIdx * 16 + y) * N + (dx blockIdx * 16 + x))
          = ref (dy blockIdx * 16 + y) (dx blockIdx * 16 + x))
    /\ barriers (ktrace s') = (barriers (ktrace s) + 2 * Z.to_nat (tiles K))%nat.
Proof.
  intros Hlen. unfold gemm_kernel.
  destruct (init_phase_ok s) as (s1 & E1 & C1 & T1 & S1).
  destruct (tile_loop_ok s1 S1) as (s2 & E2 & C2 & S2 & T2).
  destruct (store_phase_ok s2) as (s3 & E3 & L3 & T3 & K3 & G3); auto.
  { congruence. }
  unfold bind. rewrite E1. cbv beta iota. rewrite E2. cbv beta iota.
  exists s3. split; [exact E3|]. repeat split; auto.
  - intros r c Hr Hc Hgood. apply K3; auto. congruence.
  - congruence.
Qed.
End Block.

(** *** The grid *)

Hypothesis Hfuel : (gemm_fuel K <= fuel)%nat.

Lemma in_grid b :
  In b (indices (grid_of M N)) <->
  0 <= dx b < tiles N /\ 0 <= dy b < tiles M /\ dz b = 0.
Proof. rewrite grid_id, in_indices_iff. simpl. lia. Qed.

Lemma grid_ok (s : @block_state F) :
  len (gC s) = M * N ->
  exists s',
    foreach (indices (grid_of M N)) (gemm_kernel fuel A B M N K block16) s
    = Done tt s'
    /\ len (gC s') = M * N
    /\ (forall r c, 0 <= r < M -> 0 <= c < N -> cell (gC s') (r * N + c) = ref r c)
    /\ barriers (ktrace s')
       = (barriers (ktrace s)
          + 2 * Z.to_nat (tiles K) * length (indices (grid_of M N)))%nat.
Proof.
  intros Hlen.
  destruct (foreach_rule (fun done s' =>
      len (gC s') = M * N
      /\ (forall b, In b done -> forall y x, 0 <= y < 16 -> 0 <= x < 16 ->
            dy b * 16 + y < M -> dx b * 16 + x < N ->
            cell (gC s') ((dy b * 16 + y) * N + (dx b * 16 + x))
            = ref (dy b * 16 + y) (dx b * 16 + x))
      /\ barriers (ktrace s')
         = (barriers (ktrace s) + 2 * Z.to_nat (tiles K) * length done)%nat)
    (indices (grid_of M N)) (gemm_kernel fuel A B M N K block16) s)
    as (s' & E & L & G & Bs).
  - repeat split; auto; [intros ? []|simpl; lia].
  - intros done b rest s1 El (L1 & G1 & B1).
    assert (Hb : In b (indices (grid_of M N))) by (rewrite El; apply in_elt).
    destruct (proj1 (in_grid b) Hb) as (Hb1 & Hb2 & _). clear Hb.
    destruct (kernel_ok b Hb1 Hb2 Hfuel s1 L1) as (s2 & E & L2 & K2 & G2 & B2).
    exists s2. split; [exact E|]. split; [exact L2|]. split.
    + intros b' Hin y x Hy Hx Hr Hc. apply in_app_or in Hin as [Hin|[<-|[]]].
      * assert (Hb' : In b' (indices (grid_of M N)))
          by (rewrite El; apply in_or_app; left; exact Hin).
        destruct (proj1 (in_grid b') Hb') as (? & ? & _). clear Hb'.
        apply K2; try lia. apply G1; assumption.
      * apply G2; assumption.
    + rewrite B2, B1, length_app. simpl. lia.
  - exists s'. split; [exact E|]. repeat split; auto.
    intros r c Hr Hc.
    destruct (tiles_bound M) as [_ ?]; [lia|].
    destruct (tiles_bound N) as [_ ?]; [lia|].
    pose proof (Z.div_mod r 16 ltac:(lia)) as Er.
    pose proof (Z.div_mod c 16 ltac:(lia)) as Ec.
    pose proof (Z.mod_pos_bound r 16 ltac:(lia)).
    pose proof (Z.mod_pos_bound c 16 ltac:(lia)).
    assert (0 <= r / 16 < tiles M)
      by (split; [apply Z.div_pos; lia | apply Z.div_lt_upper_bound; lia]).
    assert (0 <= c / 16 < tiles N)
      by (split; [apply Z.div_pos; lia | apply Z.div_lt_upper_bound; lia]).
    specialize (G {| dx := c / 16; dy := r / 16; dz := 0 |}
                  ltac:(apply in_grid; simpl; lia) (r mod 16) (c mod 16)).
    simpl in G.
    replace (r / 16 * 16 + r mod 16) with r in G by lia.
    replace (c / 16 * 16 + c mod 16) with c in G by lia.
    apply G; lia.
Qed.

(** Inside the matrices the padded sum is the naive one followed by the
    products of the zero padding. *)
Lemma ref_naive r c :
  0 <= r < M -> 0 <= c < N ->
  ref r c = padded (16 * tiles K - K) (gemm_naive A B N K r c).
Proof.
  intros Hr Hc. destruct (tiles_bound K) as [_ ?]; [lia|].
  unfold ref, partial, padded, gemm_naive.
  rewrite (zrange_app 0 K (16 * tiles K)) by lia. rewrite fold_left_app.
  rewrite (fold_left_ext_in
             (fun acc k => fadd acc (fmul (a_pad r k) (b_pad k c)))
             (fun acc k => fadd acc (fmul (cell A (r * K + k)) (cell B (k * N + c))))
             (zrange 0 K)).
  2:{ intros acc k Hk. apply in_zrange in Hk. unfold a_pad, b_pad.
      replace (r <? M) with true by (symmetry; apply Z.ltb_lt; lia).
      replace (k <? K) with true by (symmetry; apply Z.ltb_lt; lia).
      replace (c <? N) with true by (symmetry; apply Z.ltb_lt; lia).
      reflexivity. }
  rewrite (fold_left_ext_in
             (fun acc k => fadd acc (fmul (a_pad r k) (b_pad k c)))
             (fun acc _ => fadd acc (fmul fzero fzero))
             (zrange K (16 * tiles K))).
  2:{ intros acc k Hk. apply in_zrange in Hk. unfold a_pad, b_pad.
      replace (k <? K) with false by (symmetry; apply Z.ltb_ge; lia).
      rewrite andb_false_r. reflexivity. }
  rewrite (fold_zrange_shift (fun acc (_ : Z) => fadd acc (fmul fzero fzero))
             K (16 * tiles K - K)) by lia.
  do 2 f_equal. lia.
Qed.

(** *** The launch *)

Lemma launch_ok e (w : @world F) pA pB pC C0 :
  nth_error (device w) pA = Some A ->
  nth_error (device w) pB = Some B ->
  nth_error (device w) pC = Some C0 ->
  len C0 = M * N ->
  exists C',
    launch e fuel (grid_of M N) block16 (Some pA) (Some pB) (Some pC) M N K w
    = Done tt (record (Launch (grid_of M N) block16)
                 (set_device (update pC C' (device w)) w))
    /\ len C' = M * N
    /\ forall r c, 0 <= r < M -> 0 <= c < N -> cell C' (r * N + c) = ref r c.
Proof.
  intros EA EB EC Hlen. unfold launch, deref. rewrite EA, EB, EC.
  destruct (grid_ok {| sA := fresh_shared e; sB := fresh_shared e;
                       sum := fresh_shared e; gC := C0; ktrace := [] |} Hlen)
    as (s' & E & L & G & _).
  rewrite E. exists (gC s'). auto.
Qed.
End Kernel.
End GemmFacts.

(* ================================================================= *)
(** ** Host programs and the CUDA runtime *)

Module HostFacts.
Import Host.
Section World.
Context {F : Type} {FO : FloatOps F}.

(** *** Programs that leave the host heap alone *)

Definition host_frame {A} (m : prog (@world F) A) : Prop :=
  forall w,
    match m w with
    | Done _ w' | Exit _ w' => host w' = host w
    | _ => True
    end.

Lemma host_frame_ret {A} (a : A) : host_frame (ret a).
Proof. intros w. reflexivity. Qed.

Lemma host_frame_exit {A} code : host_frame (@exit _ A code).
Proof. intros w. reflexivity. Qed.

Lemma host_frame_fault {A} : host_frame (@fault _ A).
Proof. intros w. exact I. Qed.

Lemma host_frame_bind {A B} (m : prog world A) (k : A -> prog world B) :
  host_frame m -> (forall a, host_frame (k a)) -> host_frame (bind m k).
Proof.
  intros Hm Hk w. unfold bind. specialize (Hm w).
  destruct (m w) as [a w1|code w1| |]; auto.
  specialize (Hk a w1). destruct (k a w1); auto; congruence.
Qed.

Lemma host_frame_api e c : host_frame (api_call e c).
Proof. intros w. reflexivity. Qed.

Lemma host_frame_malloc e size : host_frame (cudaMalloc_ e size).
Proof.
  apply host_frame_bind; [apply host_frame_api|].
  intros [] w; reflexivity.
Qed.

Lemma host_frame_h2d e dst src size : host_frame (cudaMemcpy_h2d e dst src size).
Proof.
  apply host_frame_bind; [apply host_frame_api|].
  intros [] w; [|reflexivity].
  destruct dst; simpl; auto.
  destruct (nth_error (device w) n); auto.
  destruct (nth_error (host w) src); auto.
  destruct (copy b b0 (Z.quot size Size.sizeof_float)); auto.
Qed.

Lemma host_frame_sync e : host_frame (cudaDeviceSynchronize_ e).
Proof.
  apply host_frame_bind; [apply host_frame_api|].
  intros st. apply host_frame_ret.
Qed.

Lemma host_frame_free e p : host_frame (cudaFree_ e p).
Proof.
  apply host_frame_bind; [apply host_frame_api|].
  intros st. destruct p; [apply host_frame_ret | apply host_frame_fault].
Qed.

Lemma host_frame_check {A} (call : prog world (cudaError * A)) :
  host_frame call -> host_frame (Gemm.CHECK_CUDA call).
Proof.
  intros Hc. apply host_frame_bind; auto.
  intros [[] a]; [apply host_frame_ret | apply host_frame_exit].
Qed.

Lemma host_frame_launch e fuel grid block dA dB dC M N K :
  host_frame (Gemm.launch e fuel grid block dA dB dC M N K).
Proof.
  intros w. unfold Gemm.launch.
  destruct dC; auto. destruct (deref dA w); auto.
  destruct (deref dB w); auto. destruct (deref (Some n) w); auto.
  match goal with |- context [foreach ?l ?b ?s] => destruct (foreach l b s) end;
    auto.
Qed.

Lemma host_frame_gemm_kernel_test e fuel A B C M N K :
  host_frame (Gemm.gemm_kernel_test e fuel A B C M N K).
Proof.
  unfold Gemm.gemm_kernel_test. cbv zeta.
  repeat first
    [ apply host_frame_launch | apply host_frame_malloc | apply host_frame_h2d
    | apply host_frame_sync | apply host_frame_free | apply host_frame_check
    | apply host_frame_bind; [|intro] ].
Qed.

(** *** Programs that stop at the first failing runtime call *)

(** Every completed run saw no failing status; every aborted run exits
    with code 1 right after the one failing call, which is the newest
    event of its trace. *)
Definition checked {A} (m : prog (@world F) A) : Prop :=
  forall w,
    match m w with
    | Done _ w' =>
        exists new, events w' = new ++ events w /\ failures new = []
    | Exit code w' =>
        code = 1 /\
        exists new call,
          events w' = Api call cudaFailure :: new ++ events w /\ failures new = []
    | _ => True
    end.

(** A runtime call: one event, carrying the status it returns. *)
Definition reporting {A} (m : prog (@world F) (cudaError * A)) : Prop :=
  forall w,
    match m w with
    | Done (st, _) w' => exists c, events w' = Api c st :: events w
    | Exit _ _ => False
    | _ => True
    end.

Lemma failures_app l1 l2 : failures (l1 ++ l2) = failures l1 ++ failures l2.
Proof. apply filter_app. Qed.

Lemma checked_ret {A} (a : A) : checked (ret a).
Proof. intros w. exists []. auto. Qed.

Lemma checked_bind {A B} (m : prog world A) (k : A -> prog world B) :
  checked m -> (forall a, checked (k a)) -> checked (bind m k).
Proof.
  intros Hm Hk w. unfold bind. specialize (Hm w).
  destruct (m w) as [a w1|code w1| |]; auto.
  destruct Hm as (new1 & E1 & F1).
  specialize (Hk a w1). destruct (k a w1) as [b w2|code w2| |]; auto.
  - destruct Hk as (new2 & E2 & F2). exists (new2 ++ new1).
    rewrite E2, E1, app_assoc, failures_app, F1, F2. auto.
  - destruct Hk as (-> & new2 & call & E2 & F2). split; auto.
    exists (new2 ++ new1), call.
    rewrite E2, E1, app_assoc, failures_app, F1, F2. auto.
Qed.

Lemma checked_check {A} (call : prog world (cudaError * A)) :
  reporting call -> checked (Gemm.CHECK_CUDA call).
Proof.
  intros Hc w. unfold Gemm.CHECK_CUDA, bind. specialize (Hc w).
  destruct (call w) as [[st a] w1|code w1| |]; auto; [|contradiction].
  destruct Hc as (c & E). destruct st; simpl.
  - exists [Api c cudaSuccess]. rewrite E. auto.
  - split; auto. exists [], c. rewrite E. auto.
Qed.

Lemma reporting_malloc e size : reporting (cudaMalloc_ e size).
Proof.
  intros w. unfold cudaMalloc_, bind, api_call.
  destruct (api_status e (ncalls w)); simpl; eauto.
Qed.

Lemma reporting_h2d e dst src size : reporting (cudaMemcpy_h2d e dst src size).
Proof.
  intros w. unfold cudaMemcpy_h2d, bind, api_call.
  destruct (api_status e (ncalls w)); simpl; eauto.
  destruct dst; simpl; auto.
  destruct (nth_error (device w) n); auto.
  destruct (nth_error (host w) src); auto.
  destruct (copy b b0 (Z.quot size Size.sizeof_float)); simpl; eauto.
Qed.

Lemma reporting_sync e : reporting (cudaDeviceSynchronize_ e).
Proof.
  intros w. unfold cudaDeviceSynchronize_, bind, api_call, ret. simpl. eauto.
Qed.

Lemma reporting_free e p : reporting (cudaFree_ e p).
Proof.
  intros w. unfold cudaFree_, bind, api_call, ret, fault.
  destruct p; simpl; eauto.
Qed.

Lemma checked_launch e fuel grid block dA dB dC M N K :
  checked (Gemm.launch e fuel grid block dA dB dC M N K).
Proof.
  intros w. unfold Gemm.launch.
  destruct dC; auto. destruct (deref dA w); auto.
  destruct (deref dB w); auto. destruct (deref (Some n) w); auto.
  match goal with |- context [foreach ?l ?b ?s] => destruct (foreach l b s) end;
    auto.
  exists [Launch grid block]. auto.
Qed.

Lemma checked_gemm_kernel_test e fuel A B C M N K :
  checked (Gemm.gemm_kernel_test e fuel A B C M N K).
Proof.
  unfold Gemm.gemm_kernel_test. cbv zeta.
  repeat first
    [ apply checked_launch | apply reporting_malloc | apply reporting_h2d
    | apply reporting_sync | apply reporting_free | apply checked_check
    | apply checked_bind; [|intro] ].
Qed.

(** *** Programs that never call [exit] *)

Definition no_exit {A} (m : prog (@world F) A) : Prop :=
  forall w, match m w with Exit _ _ => False | _ => True end.

Lemma no_exit_ret {A} (a : A) : no_exit (ret a).
Proof. intros w. exact I. Qed.

Lemma no_exit_bind {A B} (m : prog world A) (k : A -> prog world B) :
  no_exit m -> (forall a, no_exit (k a)) -> no_exit (bind m k).
Proof.
  intros Hm Hk w. unfold bind. specialize (Hm w).
  destruct (m w) as [a w1|code w1| |]; auto. apply Hk.
Qed.

Lemma no_exit_reporting {A} (m : prog world (cudaError * A)) :
  reporting m -> no_exit m.
Proof.
  intros Hr w. specialize (Hr w). destruct (m w) as [[st a] w1|code w1| |]; auto.
Qed.

Lemma reporting_d2h e dst src size : reporting (cudaMemcpy_d2h e dst src size).
Proof.
  intros w. unfold cudaMemcpy_d2h, bind, api_call.
  destruct (api_status e (ncalls w)); simpl; eauto.
  destruct src; simpl; auto.
  destruct (nth_error (device w) n); auto.
  destruct (nth_error (host w) dst); auto.
  destruct (copy b0 b (Z.quot size Size.sizeof_float)); simpl; eauto.
Qed.

Lemma no_exit_gpu_launch fuel grid block d_in d_wt d_out H W I J C K :
  no_exit (Gpu.launch fuel grid block d_in d_wt d_out H W I J C K).
Proof.
  intros w. unfold Gpu.launch.
  destruct d_out; auto. destruct (deref d_in w); auto.
  destruct (deref d_wt w); auto. destruct (deref (Some n) w); auto.
  match goal with |- context [foreach ?l ?b ?s] => destruct (foreach l b s) end;
    auto.
Qed.

Lemma no_exit_gpu_conv2d e fuel input weight output H W I J C K :
  no_exit (Gpu.conv2d e fuel input weight output H W I J C K).
Proof.
  unfold Gpu.conv2d. cbv zeta.
  repeat first
    [ apply no_exit_gpu_launch | apply no_exit_ret
    | apply no_exit_reporting;
      first [ apply reporting_malloc | apply reporting_h2d | apply reporting_d2h
            | apply reporting_free ]
    | apply no_exit_bind; [|intro] ].
Qed.
End World.
End HostFacts.

(* ================================================================= *)
(** ** The GEMM host wrapper when every runtime call succeeds *)

Module GemmHostFacts.
Import Host Gemm.
Section Run.
Context {F : Type} {FO : FloatOps F}.
Variables (e : @env F) (fuel : nat).

(** The [count] runtime calls from call number [from] on succeed. *)
Definition succeeds (from count : nat) : Prop :=
  forall i, (from <= i < from + count)%nat -> api_status e i = cudaSuccess.

Definition after_call (c : api) (w : @world F) : world :=
  {| host := host w; device := device w; ncalls := S (ncalls w);
     events := Api c cudaSuccess :: events w |}.

Definition copied (dst src : buffer F) (n : Z) : buffer F :=
  {| len := len dst;
     cell := fun i => if (0 <=? i) && (i <? n) then cell src i else cell dst i |}.

Lemma check_ok {A} (call : prog (@world F) (cudaError * A)) w a w' :
  call w = Done (cudaSuccess, a) w' -> CHECK_CUDA call w = Done a w'.
Proof. intros E. unfold CHECK_CUDA, bind. rewrite E. reflexivity. Qed.

Lemma malloc_ok size w :
  api_status e (ncalls w) = cudaSuccess ->
  cudaMalloc_ e size w
  = Done (cudaSuccess, Some (length (device w)))
      (set_device (device w ++ [{| len := Z.quot size Size.sizeof_float;
                                   cell := fresh_device e (length (device w)) |}])
         (after_call cudaMalloc w)).
Proof.
  intros E. unfold cudaMalloc_, bind, api_call. rewrite E. reflexivity.
Qed.

Lemma h2d_ok p src size w d h :
  api_status e (ncalls w) = cudaSuccess ->
  nth_error (device w) p = Some d ->
  nth_error (host w) src = Some h ->
  Z.quot size Size.sizeof_float <= len h ->
  Z.quot size Size.sizeof_float <= len d ->
  cudaMemcpy_h2d e (Some p) src size w
  = Done (cudaSuccess, tt)
      (set_device (update p (copied d h (Z.quot size Size.sizeof_float)) (device w))
         (after_call cudaMemcpy w)).
Proof.
  intros E Ed Eh Lh Ld. unfold cudaMemcpy_h2d, bind, api_call. rewrite E.
  cbn [deref device host]. rewrite Ed, Eh. unfold copy.
  replace (Z.quot size Size.sizeof_float <=? len h) with true
    by (symmetry; apply Z.leb_le; lia).
  replace (Z.quot size Size.sizeof_float <=? len d) with true
    by (symmetry; apply Z.leb_le; lia).
  reflexivity.
Qed.

Lemma d2h_ok dst p size w d h :
  api_status e (ncalls w) = cudaSuccess ->
  nth_error (device w) p = Some d ->
  nth_error (host w) dst = Some h ->
  Z.quot size Size.sizeof_float <= len h ->
  Z.quot size Size.sizeof_float <= len d ->
  cudaMemcpy_d2h e dst (Some p) size w
  = Done (cudaSuccess, tt)
      (set_host (update dst (copied h d (Z.quot size Size.sizeof_float)) (host w))
         (after_call cudaMemcpy w)).
Proof.
  intros E Ed Eh Lh Ld. unfold cudaMemcpy_d2h, bind, api_call. rewrite E.
  cbn [deref device host]. rewrite Ed, Eh. unfold copy.
  replace (Z.quot size Size.sizeof_float <=? len h) with true
    by (symmetry; apply Z.leb_le; lia).
  replace (Z.quot size Size.sizeof_float <=? len d) with true
    by (symmetry; apply Z.leb_le; lia).
  reflexivity.
Qed.

Lemma sync_ok w :
  api_status e (ncalls w) = cudaSuccess ->
  cudaDeviceSynchronize_ e w = Done (cudaSuccess, tt) (after_call cudaDeviceSynchronize w).
Proof.
  intros E. unfold cudaDeviceSynchronize_, bind, api_call. rewrite E. reflexivity.
Qed.

Lemma free_ok p w :
  api_status e (ncalls w) = cudaSuccess ->
  cudaFree_ e (Some p) w = Done (cudaSuccess, tt) (after_call cudaFree w).
Proof.
  intros E. unfold cudaFree_, bind, api_call. rewrite E. reflexivity.
Qed.

Variables (M N K : Z).
Hypothesis HM : 1 <= M.
Hypothesis HN : 1 <= N.
Hypothesis HK : 1 <= K.
Hypothesis HMK : M * K <= Int.max_int.
Hypothesis HKN : K * N <= Int.max_int.
Hypothesis HMN : M * N <= Int.max_int.
Hypothesis HM16 : M + 16 <= Int.max_int.
Hypothesis HN16 : N + 16 <= Int.max_int.
Hypothesis HK16 : K + 16 <= Int.max_int.
Hypothesis Hfuel : (gemm_fuel K <= fuel)%nat.

Lemma gemm_naive_ext (A A' B B' : buffer F) r c :
  0 <= r < M -> 0 <= c < N ->
  (forall i, 0 <= i < M * K -> cell A' i = cell A i) ->
  (forall i, 0 <= i < K * N -> cell B' i = cell B i) ->
  gemm_naive A' B' N K r c = gemm_naive A B N K r c.
Proof.
  intros Hr Hc HA HB. unfold gemm_naive. apply fold_left_ext_in.
  intros acc k Hk. apply in_zrange in Hk.
  rewrite HA by (apply flat_bound; lia).
  rewrite HB by (apply flat_bound; lia). reflexivity.
Qed.

Lemma gemm_kernel_test_ok (w : @world F) pA pB pC hA hB :
  succeeds (ncalls w) 9 ->
  nth_error (host w) pA = Some hA ->
  nth_error (host w) pB = Some hB ->
  M * K <= len hA -> K * N <= len hB ->
  exists w' dA dB dC,
    gemm_kernel_test e fuel pA pB pC M N K w = Done tt w'
    /\ host w' = host w
    /\ device w' = device w ++ [dA; dB; dC]
    /\ len dC = M * N
    /\ (forall r c, 0 <= r < M -> 0 <= c < N ->
          cell dC (r * N + c)
          = padded (16 * tiles K - K) (gemm_naive hA hB N K r c))
    /\ ncalls w' = (ncalls w + 9)%nat
    /\ launches (events w') = Launch (grid_of M N) block16 :: launches (events w)
    /\ failures (events w') = failures (events w).
Proof.
  intros Hok EhA EhB LA LB.
  assert (S0 : forall i, (i < 9)%nat -> api_status e (i + ncalls w) = cudaSuccess)
    by (intros; apply Hok; lia).
  pose proof (S0 0%nat ltac:(lia)) as H0. pose proof (S0 1%nat ltac:(lia)) as H1.
  pose proof (S0 2%nat ltac:(lia)) as H2. pose proof (S0 3%nat ltac:(lia)) as H3.
  pose proof (S0 4%nat ltac:(lia)) as H4. pose proof (S0 5%nat ltac:(lia)) as H5.
  pose proof (S0 6%nat ltac:(lia)) as H6. pose proof (S0 7%nat ltac:(lia)) as H7.
  pose proof (S0 8%nat ltac:(lia)) as H8. simpl in H0, H1, H2, H3, H4, H5, H6, H7, H8.
  clear S0.
  assert (0 <= M * K /\ 0 <= K * N /\ 0 <= M * N) as (PA & PB & PC) by nia.
  unfold gemm_kernel_test. cbv zeta.
  rewrite (mul_id M K), (mul_id K N), (mul_id M N)
    by (unfold Int.in_range, Int.min_int, Int.max_int in *; lia).
  set (szA := Size.mul (Size.of_int (M * K)) Size.sizeof_float).
  set (szB := Size.mul (Size.of_int (K * N)) Size.sizeof_float).
  set (szC := Size.mul (Size.of_int (M * N)) Size.sizeof_float).
  assert (QA : Z.quot szA Size.sizeof_float = M * K) by (apply size_bytes; lia).
  assert (QB : Z.quot szB Size.sizeof_float = K * N) by (apply size_bytes; lia).
  assert (QC : Z.quot szC Size.sizeof_float = M * N) by (apply size_bytes; lia).
  (* the three allocations *)
  rewrite (bind_done _ _ _ _ _ (check_ok _ _ _ _ (malloc_ok szA w H0))).
  set (a0 := {| len := Z.quot szA Size.sizeof_float;
                cell := fresh_device e (length (device w)) |}).
  set (w1 := set_device (device w ++ [a0]) (after_call cudaMalloc w)).
  rewrite (bind_done _ _ _ _ _ (check_ok _ _ _ _ (malloc_ok szB w1 H1))).
  set (b0 := {| len := Z.quot szB Size.sizeof_float;
                cell := fresh_device e (length (device w1)) |}).
  set (w2 := set_device (device w1 ++ [b0]) (after_call cudaMalloc w1)).
  rewrite (bind_done _ _ _ _ _ (check_ok _ _ _ _ (malloc_ok szC w2 H2))).
  set (c0 := {| len := Z.quot szC Size.sizeof_float;
                cell := fresh_device e (length (device w2)) |}).
  set (w3 := set_device (device w2 ++ [c0]) (after_call cudaMalloc w2)).
  assert (D3 : device w3 = device w ++ [a0; b0; c0])
    by (cbn; rewrite <- !app_assoc; reflexivity).
  (* the two copies *)
  assert (E4 : cudaMemcpy_h2d e (Some (length (device w))) pA szA w3
               = Done (cudaSuccess, tt)
                   (set_device (update (length (device w))
                                  (copied a0 hA (Z.quot szA Size.sizeof_float))
                                  (device w3))
                      (after_call cudaMemcpy w3))).
  { apply h2d_ok; auto; try (rewrite QA; simpl; lia).
    rewrite D3. apply nth_error_mid. }
  rewrite (bind_done _ _ _ _ _ (check_ok _ _ _ _ E4)). clear E4.
  set (a1 := copied a0 hA (Z.quot szA Size.sizeof_float)).
  set (w4 := set_device (update (length (device w)) a1 (device w3))
               (after_call cudaMemcpy w3)).
  assert (D4 : device w4 = device w ++ [a1; b0; c0])
    by (cbn [device w4 set_device]; rewrite D3; apply update_mid).
  assert (P1 : length (device w1) = length (device w ++ [a1]))
    by (cbn; rewrite !length_snoc; reflexivity).
  assert (E5 : cudaMemcpy_h2d e (Some (length (device w1))) pB szB w4
               = Done (cudaSuccess, tt)
                   (set_device (update (length (device w1))
                                  (copied b0 hB (Z.quot szB Size.sizeof_float))
                                  (device w4))
                      (after_call cudaMemcpy w4))).
  { apply h2d_ok; auto; try (rewrite QB; simpl; lia).
    rewrite D4, P1. change (device w ++ [a1; b0; c0])
      with (device w ++ [a1] ++ b0 :: [c0]).
    rewrite app_assoc. apply nth_error_mid. }
  rewrite (bind_done _ _ _ _ _ (check_ok _ _ _ _ E5)). clear E5.
  set (b1 := copied b0 hB (Z.quot szB Size.sizeof_float)).
  set (w5 := set_device (update (length (device w1)) b1 (device w4))
               (after_call cudaMemcpy w4)).
  assert (D5 : device w5 = device w ++ [a1; b1; c0]).
  { cbn [device w5 set_device]. rewrite D4, P1.
    change (device w ++ [a1; b0; c0]) with (device w ++ [a1] ++ b0 :: [c0]).
    rewrite app_assoc, update_mid, <- app_assoc. reflexivity. }
  assert (P2 : length (device w2) = length (device w ++ [a1; b1]))
    by (cbn; rewrite !length_app; simpl; lia).
  (* the launch *)
  assert (NA : nth_error (device w5) (length (device w)) = Some a1)
    by (rewrite D5; apply nth_error_mid).
  assert (NB : nth_error (device w5) (length (device w1)) = Some b1).
  { rewrite D5, P1. change (device w ++ [a1; b1; c0])
      with (device w ++ [a1] ++ b1 :: [c0]).
    rewrite app_assoc. apply nth_error_mid. }
  assert (NC : nth_error (device w5) (length (device w2)) = Some c0).
  { rewrite D5, P2. change (device w ++ [a1; b1; c0])
      with (device w ++ [a1; b1] ++ c0 :: []).
    rewrite app_assoc. apply nth_error_mid. }
  destruct (GemmFacts.launch_ok a1 b1 M N K fuel HM HN HK QA QB HMK HKN HMN
              HM16 HN16 HK16 Hfuel e w5 _ _ _ c0 NA NB NC QC)
    as (c1 & E6 & L6 & G6).
  rewrite (bind_done _ _ _ _ _ E6). clear E6.
  set (w6 := record (Launch (grid_of M N) block16)
               (set_device (update (length (device w2)) c1 (device w5)) w5)).
  assert (D6 : device w6 = device w ++ [a1; b1; c1]).
  { cbn [device w6 set_device record]. rewrite D5, P2.
    change (device w ++ [a1; b1; c0]) with (device w ++ [a1; b1] ++ c0 :: []).
    rewrite app_assoc, update_mid, <- app_assoc. reflexivity. }
  (* synchronisation and release *)
  rewrite (bind_done _ _ _ _ _ (check_ok _ _ _ _ (sync_ok w6 H5))).
  set (w7 := after_call cudaDeviceSynchronize w6).
  rewrite (bind_done _ _ _ _ _ (check_ok _ _ _ _ (free_ok _ w7 H6))).
  set (w8 := after_call cudaFree w7).
  rewrite (bind_done _ _ _ _ _ (check_ok _ _ _ _ (free_ok _ w8 H7))).
  set (w9 := after_call cudaFree w8).
  rewrite (check_ok _ _ _ _ (free_ok _ w9 H8)).
  exists (after_call cudaFree w9), a1, b1, c1.
  split; [reflexivity|]. split; [reflexivity|]. split; [exact D6|].
  split; [exact L6|]. split; [|split; [cbn; lia | split; reflexivity]].
  intros r c Hr Hc. rewrite G6 by auto.
  rewrite (GemmFacts.ref_naive a1 b1 M N K fuel HK Hfuel) by auto.
  f_equal. apply gemm_naive_ext; auto.
  - intros i Hi. unfold a1, copied. cbn [cell]. rewrite QA.
    replace (0 <=? i) with true by (symmetry; apply Z.leb_le; lia).
    replace (i <? M * K) with true by (symmetry; apply Z.ltb_lt; lia).
    reflexivity.
  - intros i Hi. unfold b1, copied. cbn [cell]. rewrite QB.
    replace (0 <=? i) with true by (symmetry; apply Z.leb_le; lia).
    replace (i <? K * N) with true by (symmetry; apply Z.ltb_lt; lia).
    reflexivity.
Qed.
End Run.

Section Main.
Context {F : Type} {FO : FloatOps F}.
Variables (e : @env F) (fuel : nat).

Lemma update_update {A} (l : list A) n x y :
  update n y (update n x l) = update n y l.
Proof.
  revert n. induction l as [|z l IH]; intros [|n]; simpl; auto.
  rewrite IH. reflexivity.
Qed.

(** A loop that fills the first [n] cells of a host buffer. *)
Lemma fill_ok (w : @world F) p b v n :
  nth_error (host w) p = Some b -> len b = n ->
  0 <= n <= 18446744073709551615 -> (Z.to_nat n <= fuel)%nat ->
  exists b',
    for_size fuel 0 n (fun i _ => host_store p i v) tt w
    = Done tt (set_host (update p b' (host w)) w)
    /\ len b' = n /\ forall i, 0 <= i < n -> cell b' i = v.
Proof.
  intros Eb Hlen Hn Hf.
  destruct (for_size_rule (fun i (_ : unit) w' =>
      exists b', w' = set_host (update p b' (host w)) w /\ len b' = n
                 /\ forall j, 0 <= j < i -> cell b' j = v)
    fuel 0 n (fun i _ => host_store p i v) tt w)
    as ([] & w' & E & b' & -> & L & Hc); try lia.
  - exists b. repeat split; auto; [|intros; lia].
    destruct w as [h d nc ev]. unfold set_host. cbn in *. f_equal.
    clear - Eb. revert p Eb.
    induction h as [|z h IH]; intros [|p] Eb; simpl in *; try discriminate.
    + congruence.
    + rewrite <- IH; auto.
  - intros i [] w1 Hi (b1 & -> & L1 & H1).
    unfold host_store. cbn [host set_host].
    rewrite (nth_error_update _ _ _ _ Eb).
    unfold store, in_bounds. rewrite L1.
    replace (0 <=? i) with true by (symmetry; apply Z.leb_le; lia).
    replace (i <? n) with true by (symmetry; apply Z.ltb_lt; lia).
    cbn [andb]. eexists tt, _. split; [reflexivity|].
    eexists. split; [|split].
    + unfold set_host. cbn. rewrite update_update. reflexivity.
    + reflexivity.
    + intros j Hj. cbn [cell]. destruct (Z.eqb_spec j i); auto. apply H1. lia.
  - exists b'. auto.
Qed.

Lemma malloc_run (w : @world F) size :
  malloc e size w
  = Done (length (host w))
      (set_host (host w ++ [{| len := Z.quot size Size.sizeof_float;
                               cell := fresh_host e (length (host w)) |}]) w).
Proof. reflexivity. Qed.

(** [main] up to the return of [gemm_kernel_test], when every runtime
    call succeeds: the host buffer [C] is still all [0.0f]; the product
    is in the device buffer [dC] only. *)
Lemma main_run_ok (w : @world F) :
  (forall i, (ncalls w <= i < ncalls w + 9)%nat -> api_status e i = cudaSuccess) ->
  (4096 <= fuel)%nat ->
  exists w' hA hB hC dA dB dC,
    main_run e fuel w
    = Done (length (host w), S (length (host w)), S (S (length (host w)))) w'
    /\ host w' = host w ++ [hA; hB; hC]
    /\ device w' = device w ++ [dA; dB; dC]
    /\ len hC = 4096 /\ len dC = 4096
    /\ (forall i, 0 <= i < 4096 -> cell hA i = fone)
    /\ (forall i, 0 <= i < 4096 -> cell hB i = fone)
    /\ (forall i, 0 <= i < 4096 -> cell hC i = fzero)
    /\ (forall r c, 0 <= r < 64 -> 0 <= c < 64 ->
          cell dC (r * 64 + c) = gemm_naive hA hB 64 64 r c).
Proof.
  intros Hok Hf. unfold main_run. cbv zeta.
  change (Size.of_int (64 *i 64)) with 4096.
  change (Size.mul 4096 Size.sizeof_float) with 16384.
  rewrite (bind_done _ _ _ _ _ (malloc_run w 16384)).
  set (a0 := {| len := Z.quot 16384 Size.sizeof_float;
                cell := fresh_host e (length (host w)) |}).
  set (w1 := set_host (host w ++ [a0]) w).
  rewrite (bind_done _ _ _ _ _ (malloc_run w1 16384)).
  set (b0 := {| len := Z.quot 16384 Size.sizeof_float;
                cell := fresh_host e (length (host w1)) |}).
  set (w2 := set_host (host w1 ++ [b0]) w1).
  rewrite (bind_done _ _ _ _ _ (malloc_run w2 16384)).
  set (c0 := {| len := Z.quot 16384 Size.sizeof_float;
                cell := fresh_host e (length (host w2)) |}).
  set (w3 := set_host (host w2 ++ [c0]) w2).
  assert (D3 : host w3 = host w ++ [a0; b0; c0])
    by (cbn; rewrite <- !app_assoc; reflexivity).
  assert (P1 : length (host w1) = S (length (host w)))
    by (cbn; apply length_snoc).
  assert (P2 : length (host w2) = S (S (length (host w))))
    by (cbn; rewrite !length_snoc; reflexivity).
  rewrite P1, P2.
  assert (Q1 : S (length (host w)) = length (host w ++ [a0]))
    by (rewrite length_snoc; reflexivity).
  (* the three initialisation loops *)
  destruct (fill_ok w3 (length (host w)) a0 fone 4096) as (a1 & E4 & LA & CA);
    try reflexivity; try lia.
  { rewrite D3. apply nth_error_mid. }
  rewrite (bind_done _ _ _ _ _ E4). clear E4.
  set (w4 := set_host (update (length (host w)) a1 (host w3)) w3).
  assert (D4 : host w4 = host w ++ [a1; b0; c0])
    by (cbn [host w4 set_host]; rewrite D3; apply update_mid).
  assert (Q1' : S (length (host w)) = length (host w ++ [a1]))
    by (rewrite length_snoc; reflexivity).
  destruct (fill_ok w4 (S (length (host w))) b0 fone 4096) as (b1 & E5 & LB & CB);
    try reflexivity; try lia.
  { rewrite D4, Q1'. change (host w ++ [a1; b0; c0])
      with (host w ++ [a1] ++ b0 :: [c0]).
    rewrite app_assoc. apply nth_error_mid. }
  rewrite (bind_done _ _ _ _ _ E5). clear E5.
  set (w5 := set_host (update (S (length (host w))) b1 (host w4)) w4).
  assert (D5 : host w5 = host w ++ [a1; b1; c0]).
  { cbn [host w5 set_host]. rewrite D4, Q1'.
    change (host w ++ [a1; b0; c0]) with (host w ++ [a1] ++ b0 :: [c0]).
    rewrite app_assoc, update_mid, <- app_assoc. reflexivity. }
  assert (Q2 : S (S (length (host w))) = length (host w ++ [a1; b1]))
    by (rewrite length_app; simpl; lia).
  destruct (fill_ok w5 (S (S (length (host w)))) c0 fzero 4096)
    as (c1 & E6 & LC & CC); try reflexivity; try lia.
  { rewrite D5, Q2. change (host w ++ [a1; b1; c0])
      with (host w ++ [a1; b1] ++ c0 :: []).
    rewrite app_assoc. apply nth_error_mid. }
  rewrite (bind_done _ _ _ _ _ E6). clear E6.
  set (w6 := set_host (update (S (S (length (host w)))) c1 (host w5)) w5).
  assert (D6 : host w6 = host w ++ [a1; b1; c1]).
  { cbn [host w6 set_host]. rewrite D5, Q2.
    change (host w ++ [a1; b1; c0]) with (host w ++ [a1; b1] ++ c0 :: []).
    rewrite app_assoc, update_mid, <- app_assoc. reflexivity. }
  (* the wrapper *)
  destruct (gemm_kernel_test_ok e fuel 64 64 64) with
    (w := w6) (pA := length (host w)) (pB := S (length (host w)))
    (pC := S (S (length (host w)))) (hA := a1) (hB := b1)
    as (w7 & dA & dB & dC & E7 & H7 & D7 & L7 & G7 & _);
    try (unfold Int.max_int; lia).
  { unfold gemm_fuel. vm_compute Z.to_nat. lia. }
  { intros i Hi. apply Hok. exact Hi. }
  { rewrite D6. apply nth_error_mid. }
  { rewrite D6, Q1'. change (host w ++ [a1; b1; c1])
      with (host w ++ [a1] ++ b1 :: [c1]).
    rewrite app_assoc. apply nth_error_mid. }
  rewrite (bind_done _ _ _ _ _ E7). unfold ret.
  exists w7, a1, b1, c1, dA, dB, dC.
  split; [reflexivity|]. split; [congruence|]. split; [exact D7|].
  repeat split; auto.
Qed.
End Main.
End GemmHostFacts.

(* ================================================================= *)
(** ** The CUDA convolution host function when every call succeeds *)

Module GpuHostFacts.
Import Host ConvMem GemmHostFacts.
Section Run.
Context {F : Type} {FO : FloatOps F}.
Variables (e : @env F) (fuel : nat) (H W I J C K : Z).

Hypothesis HI : 1 <= I <= H.
Hypothesis HJ : 1 <= J <= W.
Hypothesis HC : 1 <= C.
Hypothesis HK : 1 <= K.
Hypothesis Hin_fit : H * W * C <= Int.max_int.
Hypothesis Hwt_fit : I * J * C * K <= Int.max_int.
Hypothesis Hout_fit : (H - I + 1) * (W - J + 1) * K <= Int.max_int.
Hypothesis Hfuel : (Seq.conv2d_fuel H W I J C K <= fuel)%nat.

(** The closed form reads the two arrays inside their extents only. *)
Lemma conv_sum_ext (input input' weight weight' : buffer F) h w k :
  0 <= h < H - I + 1 -> 0 <= w < W - J + 1 -> 0 <= k < K ->
  (forall i, 0 <= i < H * W * C -> cell input' i = cell input i) ->
  (forall i, 0 <= i < I * J * C * K -> cell weight' i = cell weight i) ->
  conv_sum input' weight' W I J C K h w k = conv_sum input weight W I J C K h w k.
Proof.
  intros Hh Hw Hk Hi Hwt. unfold conv_sum.
  apply fold_left_ext_in. intros acc1 i Hi1. apply in_zrange in Hi1.
  apply fold_left_ext_in. intros acc2 j Hj1. apply in_zrange in Hj1.
  apply fold_left_ext_in. intros acc3 c Hc1. apply in_zrange in Hc1.
  rewrite Hi by (apply flat3_bound; lia).
  rewrite Hwt.
  - reflexivity.
  - pose proof (flat_bound i j I J ltac:(lia) ltac:(lia)).
    apply flat3_bound; lia.
Qed.

Lemma sizes_id :
  H *i W *i C = H * W * C /\ I *i J *i C *i K = I * J * C * K
  /\ H -i I +i 1 = H - I + 1 /\ W -i J +i 1 = W - J + 1
  /\ (H - I + 1) *i (W - J + 1) *i K = (H - I + 1) * (W - J + 1) * K
  /\ 0 <= H * W * C /\ 0 <= I * J * C * K /\ 0 <= (H - I + 1) * (W - J + 1) * K.
Proof.
  unfold Int.max_int in *.
  pose proof (mul_ge_1 H W ltac:(lia) ltac:(lia)) as (? & ? & ?).
  pose proof (mul_ge_1 (H * W) C ltac:(lia) ltac:(lia)) as (? & ? & ?).
  pose proof (mul_ge_1 I J ltac:(lia) ltac:(lia)) as (? & ? & ?).
  pose proof (mul_ge_1 (I * J) C ltac:(lia) ltac:(lia)) as (? & ? & ?).
  pose proof (mul_ge_1 (I * J * C) K ltac:(lia) ltac:(lia)) as (? & ? & ?).
  pose proof (mul_ge_1 (H - I + 1) (W - J + 1) ltac:(lia) ltac:(lia)) as (? & ? & ?).
  pose proof (mul_ge_1 ((H - I + 1) * (W - J + 1)) K ltac:(lia) ltac:(lia))
    as (? & ? & ?).
  rewrite (mul_id H W), (mul_id (H * W) C), (mul_id I J), (mul_id (I * J) C),
    (mul_id (I * J * C) K), (sub_id H I), (add_id (H - I) 1),
    (sub_id W J), (add_id (W - J) 1),
    (mul_id (H - I + 1) (W - J + 1)), (mul_id ((H - I + 1) * (W - J + 1)) K)
    by (unfold Int.in_range, Int.min_int, Int.max_int; lia).
  repeat split; lia.
Qed.

Lemma gpu_conv2d_ok (w : @world F) pin pwt pout hin hwt hout :
  succeeds e (ncalls w) 9 ->
  nth_error (host w) pin = Some hin ->
  nth_error (host w) pwt = Some hwt ->
  nth_error (host w) pout = Some hout ->
  len hin = H * W * C -> len hwt = I * J * C * K ->
  len hout = (H - I + 1) * (W - J + 1) * K ->
  exists w' out',
    Gpu.conv2d e fuel pin pwt pout H W I J C K w = Done tt w'
    /\ host w' = update pout out' (host w)
    /\ len out' = len hout
    /\ (forall h w k, 0 <= h < H - I + 1 -> 0 <= w < W - J + 1 -> 0 <= k < K ->
          cell out' ((h * (W - J + 1) + w) * K + k)
          = conv_sum hin hwt W I J C K h w k)
    /\ launches (events w')
       = Launch (Gpu.grid_of (H - I + 1) (W - J + 1) K Gpu.block16) Gpu.block16
         :: launches (events w)
    /\ ncalls w' = (ncalls w + 9)%nat.
Proof.
  intros Hok Ein Ewt Eout Lin Lwt Lout.
  assert (S0 : forall i, (i < 9)%nat -> api_status e (i + ncalls w) = cudaSuccess)
    by (intros; apply Hok; lia).
  pose proof (S0 0%nat ltac:(lia)) as H0. pose proof (S0 1%nat ltac:(lia)) as H1.
  pose proof (S0 2%nat ltac:(lia)) as H2. pose proof (S0 3%nat ltac:(lia)) as H3.
  pose proof (S0 4%nat ltac:(lia)) as H4. pose proof (S0 5%nat ltac:(lia)) as H5.
  pose proof (S0 6%nat ltac:(lia)) as H6. pose proof (S0 7%nat ltac:(lia)) as H7.
  pose proof (S0 8%nat ltac:(lia)) as H8. simpl in H0, H1, H2, H3, H4, H5, H6, H7, H8.
  clear S0.
  destruct sizes_id as (Z1 & Z2 & Z3 & Z4 & Z5 & PA & PB & PC).
  unfold Gpu.conv2d. cbv zeta. rewrite Z3, Z4, Z5, Z1, Z2.
  set (szA := Size.mul (Size.of_int (H * W * C)) Size.sizeof_float).
  set (szB := Size.mul (Size.of_int (I * J * C * K)) Size.sizeof_float).
  set (szC := Size.mul (Size.of_int ((H - I + 1) * (W - J + 1) * K)) Size.sizeof_float).
  assert (QA : Z.quot szA Size.sizeof_float = H * W * C) by (apply size_bytes; lia).
  assert (QB : Z.quot szB Size.sizeof_float = I * J * C * K) by (apply size_bytes; lia).
  assert (QC : Z.quot szC Size.sizeof_float = (H - I + 1) * (W - J + 1) * K)
    by (apply size_bytes; lia).
  rewrite (bind_done _ _ _ _ _ (malloc_ok e szA w H0)). cbn [snd].
  set (a0 := {| len := Z.quot szA Size.sizeof_float;
                cell := fresh_device e (length (device w)) |}).
  set (w1 := set_device (device w ++ [a0]) (after_call cudaMalloc w)).
  rewrite (bind_done _ _ _ _ _ (malloc_ok e szB w1 H1)). cbn [snd].
  set (b0 := {| len := Z.quot szB Size.sizeof_float;
                cell := fresh_device e (length (device w1)) |}).
  set (w2 := set_device (device w1 ++ [b0]) (after_call cudaMalloc w1)).
  rewrite (bind_done _ _ _ _ _ (malloc_ok e szC w2 H2)). cbn [snd].
  set (c0 := {| len := Z.quot szC Size.sizeof_float;
                cell := fresh_device e (length (device w2)) |}).
  set (w3 := set_device (device w2 ++ [c0]) (after_call cudaMalloc w2)).
  assert (D3 : device w3 = device w ++ [a0; b0; c0])
    by (cbn; rewrite <- !app_assoc; reflexivity).
  assert (E4 : cudaMemcpy_h2d e (Some (length (device w))) pin szA w3
               = Done (cudaSuccess, tt)
                   (set_device (update (length (device w))
                                  (copied a0 hin (Z.quot szA Size.sizeof_float))
                                  (device w3))
                      (after_call cudaMemcpy w3))).
  { apply h2d_ok; auto; try (rewrite QA; simpl; lia).
    rewrite D3. apply nth_error_mid. }
  rewrite (bind_done _ _ _ _ _ E4). clear E4.
  set (a1 := copied a0 hin (Z.quot szA Size.sizeof_float)).
  set (w4 := set_device (update (length (device w)) a1 (device w3))
               (after_call cudaMemcpy w3)).
  assert (D4 : device w4 = device w ++ [a1; b0; c0])
    by (cbn [device w4 set_device]; rewrite D3; apply update_mid).
  assert (P1 : length (device w1) = length (device w ++ [a1]))
    by (cbn; rewrite !length_snoc; reflexivity).
  assert (E5 : cudaMemcpy_h2d e (Some (length (device w1))) pwt szB w4
               = Done (cudaSuccess, tt)
                   (set_device (update (length (device w1))
                                  (copied b0 hwt (Z.quot szB Size.sizeof_float))
                                  (device w4))
                      (after_call cudaMemcpy w4))).
  { apply h2d_ok; auto; try (rewrite QB; simpl; lia).
    rewrite D4, P1. change (device w ++ [a1; b0; c0])
      with (device w ++ [a1] ++ b0 :: [c0]).
    rewrite app_assoc. apply nth_error_mid. }
  rewrite (bind_done _ _ _ _ _ E5). clear E5.
  set (b1 := copied b0 hwt (Z.quot szB Size.sizeof_float)).
  set (w5 := set_device (update (length (device w1)) b1 (device w4))
               (after_call cudaMemcpy w4)).
  assert (D5 : device w5 = device w ++ [a1; b1; c0]).
  { cbn [device w5 set_device]. rewrite D4, P1.
    change (device w ++ [a1; b0; c0]) with (device w ++ [a1] ++ b0 :: [c0]).
    rewrite app_assoc, update_mid, <- app_assoc. reflexivity. }
  assert (P2 : length (device w2) = length (device w ++ [a1; b1]))
    by (cbn; rewrite !length_app; simpl; lia).
  assert (NA : nth_error (device w5) (length (device w)) = Some a1)
    by (rewrite D5; apply nth_error_mid).
  assert (NB : nth_error (device w5) (length (device w1)) = Some b1).
  { rewrite D5, P1. change (device w ++ [a1; b1; c0])
      with (device w ++ [a1] ++ b1 :: [c0]).
    rewrite app_assoc. apply nth_error_mid. }
  assert (NC : nth_error (device w5) (length (device w2)) = Some c0).
  { rewrite D5, P2. change (device w ++ [a1; b1; c0])
      with (device w ++ [a1; b1] ++ c0 :: []).
    rewrite app_assoc. apply nth_error_mid. }
  destruct (SeqFacts.gpu_launch_ok a1 b1 H W I J C K fuel HI HJ HC HK QA QB
              Hin_fit Hwt_fit Hout_fit Hfuel w5 _ _ _ c0 NA NB NC QC)
    as (c1 & E6 & L6 & G6).
  rewrite Z3, Z4 in E6.
  rewrite (bind_done _ _ _ _ _ E6). clear E6.
  set (grid := Gpu.grid_of (H - I + 1) (W - J + 1) K Gpu.block16).
  set (w6 := record (Launch grid Gpu.block16)
               (set_device (update (length (device w2)) c1 (device w5)) w5)).
  assert (D6 : device w6 = device w ++ [a1; b1; c1]).
  { cbn [device w6 set_device record]. rewrite D5, P2.
    change (device w ++ [a1; b1; c0]) with (device w ++ [a1; b1] ++ c0 :: []).
    rewrite app_assoc, update_mid, <- app_assoc. reflexivity. }
  assert (E7 : cudaMemcpy_d2h e pout (Some (length (device w2))) szC w6
               = Done (cudaSuccess, tt)
                   (set_host (update pout (copied hout c1 (Z.quot szC Size.sizeof_float))
                                (host w6))
                      (after_call cudaMemcpy w6))).
  { apply d2h_ok; auto; try (rewrite QC; lia).
    rewrite D6, P2. change (device w ++ [a1; b1; c1])
      with (device w ++ [a1; b1] ++ c1 :: []).
    rewrite app_assoc. apply nth_error_mid. }
  rewrite (bind_done _ _ _ _ _ E7). clear E7.
  set (o1 := copied hout c1 (Z.quot szC Size.sizeof_float)).
  set (w7 := set_host (update pout o1 (host w6)) (after_call cudaMemcpy w6)).
  rewrite (bind_done _ _ _ _ _ (free_ok e _ w7 H6)).
  set (w8 := after_call cudaFree w7).
  rewrite (bind_done _ _ _ _ _ (free_ok e _ w8 H7)).
  set (w9 := after_call cudaFree w8).
  rewrite (bind_done _ _ _ _ _ (free_ok e _ w9 H8)).
  unfold ret.
  exists (after_call cudaFree w9), o1.
  split; [reflexivity|]. split; [reflexivity|]. split; [reflexivity|].
  split; [|split; [reflexivity | cbn; lia]].
  intros h x k Hh Hx Hk.
  pose proof (flat3_bound h x k (H - I + 1) (W - J + 1) K Hh Hx Hk) as Bd.
  unfold o1, copied. cbn [cell]. rewrite QC.
  replace (0 <=? (h * (W - J + 1) + x) * K + k) with true
    by (symmetry; apply Z.leb_le; lia).
  replace ((h * (W - J + 1) + x) * K + k <? (H - I + 1) * (W - J + 1) * K) with true
    by (symmetry; apply Z.ltb_lt; lia).
  cbn [andb]. rewrite G6 by auto.
  apply conv_sum_ext; auto.
  - intros i Hi. unfold a1, copied. cbn [cell]. rewrite QA.
    replace (0 <=? i) with true by (symmetry; apply Z.leb_le; lia).
    replace (i <? H * W * C) with true by (symmetry; apply Z.ltb_lt; lia).
    reflexivity.
  - intros i Hi. unfold b1, copied. cbn [cell]. rewrite QB.
    replace (0 <=? i) with true by (symmetry; apply Z.leb_le; lia).
    replace (i <? I * J * C * K) with true by (symmetry; apply Z.ltb_lt; lia).
    reflexivity.
Qed.
End Run.
End GpuHostFacts.

(* ================================================================= *)
(** * Further facts *)

(** ** Loops that do nothing *)

Lemma for_empty {St A} fuel lo hi (body : Z -> A -> prog St A) a s :
  hi <= lo -> for_ fuel lo hi body a s = Done a s.
Proof.
  intros Hle. unfold for_.
  destruct fuel; simpl;
    (replace (lo <? hi) with false by (symmetry; apply Z.ltb_ge; lia));
    reflexivity.
Qed.

Lemma for_skip {St A} fuel lo hi (body : Z -> A -> prog St A) a s :
  Int.min_int <= lo -> hi <= Int.max_int ->
  (Z.to_nat (hi - lo) <= fuel)%nat ->
  (forall i, lo <= i < hi -> body i a s = Done a s) ->
  for_ fuel lo hi body a s = Done a s.
Proof.
  intros Hlo Hhi Hf Hb.
  destruct (Z_le_gt_dec hi lo) as [Hle | Hgt]; [apply for_empty; exact Hle|].
  destruct (for_rule (fun _ a' s' => a' = a /\ s' = s) fuel lo hi body a s)
    as (a' & s' & E & -> & ->); auto; try lia.
  intros i a1 s1 Hi [-> ->]. exists a, s. split; [apply Hb; exact Hi | auto].
Qed.

(** ** Counting accesses *)

Section Counting.
Context {F : Type} {FO : FloatOps F}.
Variable p : event -> bool.

Lemma count_events_cons ev tr :
  count_events p (ev :: tr) = count_events p tr + (if p ev then 1 else 0).
Proof.
  unfold count_events. simpl. destruct (p ev); simpl length; lia.
Qed.

Lemma adds_ret {A} (a : A) : adds p (@ret (@ConvMem.state F) A a) 0.
Proof. intros s a' s' E. injection E as <- <-. lia. Qed.

Lemma adds_bind {A B} (m : prog (@ConvMem.state F) A)
    (k : A -> prog (@ConvMem.state F) B) n1 n2 :
  adds p m n1 -> (forall a, adds p (k a) n2) -> adds p (bind m k) (n1 + n2).
Proof.
  intros Hm Hk s b s' E. unfold bind in E.
  destruct (m s) as [a s1| | |] eqn:Em; try discriminate E.
  rewrite (Hk a s1 b s' E), (Hm s a s1 Em). lia.
Qed.

Lemma adds_read arr (b : buffer F) idx :
  adds p (ConvMem.read arr b idx) (if p (Rd arr idx) then 1 else 0).
Proof.
  intros s a s' E. unfold ConvMem.read in E.
  destruct (load b idx); [|discriminate E]. injection E as <- <-.
  unfold ConvMem.log. cbn [ConvMem.trace]. apply count_events_cons.
Qed.

Lemma adds_write idx (v : F) :
  adds p (ConvMem.write idx v) (if p (Wr Output idx) then 1 else 0).
Proof.
  intros s a s' E. unfold ConvMem.write in E.
  destruct (store (ConvMem.output s) idx v); [|discriminate E].
  injection E as <- <-. cbn [ConvMem.trace]. apply count_events_cons.
Qed.

Lemma adds_for {A} fuel lo hi (body : Z -> A -> prog (@ConvMem.state F) A) a n :
  hi <= Int.max_int -> Int.min_int <= lo ->
  (forall i a, adds p (body i a) n) ->
  adds p (for_ fuel lo hi body a) (Z.max 0 (hi - lo) * n).
Proof.
  intros Hhi Hlo Hb. unfold for_. revert lo a Hlo.
  induction fuel as [|fuel IH]; intros lo a Hlo s a' s' E; simpl in E.
  - destruct (Z.ltb_spec lo hi); [discriminate E|].
    injection E as <- <-. replace (Z.max 0 (hi - lo)) with 0 by lia. lia.
  - destruct (Z.ltb_spec lo hi) as [Hlt | Hge].
    + unfold bind in E. destruct (body lo a s) as [a1 s1| | |] eqn:E1;
        try discriminate E.
      rewrite add_id in E
        by (unfold Int.in_range, Int.min_int, Int.max_int in *; lia).
      rewrite (IH (lo + 1) a1 ltac:(lia) s1 a' s' E), (Hb lo a s a1 s1 E1).
      replace (Z.max 0 (hi - lo)) with (hi - lo) by lia.
      replace (Z.max 0 (hi - (lo + 1))) with (hi - lo - 1) by lia. ring.
    + injection E as <- <-. replace (Z.max 0 (hi - lo)) with 0 by lia. lia.
Qed.

(** The accesses of the sequential [conv2d], for any parameters: 2 reads
    per innermost iteration and one write per output element. *)
Lemma adds_conv2d fuel (input weight : buffer F) H W I J C K rin rwt wout :
  (forall idx, (if p (Rd Input idx) then 1 else 0) = rin) ->
  (forall idx, (if p (Rd Weight idx) then 1 else 0) = rwt) ->
  (forall idx, (if p (Wr Output idx) then 1 else 0) = wout) ->
  Int.in_range I -> Int.in_range J -> Int.in_range C -> Int.in_range K ->
  adds p (Seq.conv2d fuel input weight H W I J C K)
    (Z.max 0 (H -i I +i 1 - 0) * (Z.max 0 (W -i J +i 1 - 0) * (Z.max 0 (K - 0) *
       (Z.max 0 (I - 0) * (Z.max 0 (J - 0) * (Z.max 0 (C - 0) * (rin + (rwt + 0))))
        + wout)))).
Proof.
  intros Hin Hwt Hout RI RJ RC RK. unfold Seq.conv2d. cbv zeta.
  assert (R0 : Int.min_int <= 0) by (unfold Int.min_int; lia).
  assert (RHo : H -i I +i 1 <= Int.max_int) by apply wrap_in_range.
  assert (RWo : W -i J +i 1 <= Int.max_int) by apply wrap_in_range.
  destruct RI as [_ RI], RJ as [_ RJ], RC as [_ RC], RK as [_ RK].
  apply adds_for; auto. intros h [].
  apply adds_for; auto. intros w [].
  apply adds_for; auto. intros k [].
  apply adds_bind.
  - apply adds_for; auto. intros i sum1.
    apply adds_for; auto. intros j sum2.
    apply adds_for; auto. intros c sum3.
    apply adds_bind; [rewrite <- (Hin (((h +i i) *i W +i (w +i j)) *i C +i c));
                      apply adds_read|].
    intros x. apply adds_bind; [rewrite <- (Hwt (((i *i J +i j) *i C +i c) *i K +i k));
                                apply adds_read|].
    intros y. apply adds_ret.
  - intros sum. rewrite <- (Hout ((h *i (W -i J +i 1) +i w) *i K +i k)).
    apply adds_write.
Qed.
End Counting.

(** ** The sequential convolution without terms *)

Section NoTerms.
Import ConvMem.
Context {F : Type} {FO : FloatOps F}.
Variables (input weight : buffer F) (H W I J C K : Z) (fuel : nat).

Let Ho := H - I + 1.
Let Wo := W - J + 1.

Hypothesis HHo : 1 <= Ho.
Hypothesis HWo : 1 <= Wo.
Hypothesis HK : 1 <= K.
Hypothesis Hout_fit : Ho * Wo * K <= Int.max_int.
Hypothesis RI : Int.in_range I.
Hypothesis RJ : Int.in_range J.
Hypothesis Hnone : I <= 0 \/ J <= 0 \/ C <= 0.
Hypothesis Hfuel : (Seq.conv2d_fuel H W I J C K <= fuel)%nat.

Lemma no_terms_sizes :
  H -i I +i 1 = Ho /\ W -i J +i 1 = Wo
  /\ Ho <= Int.max_int /\ Wo <= Int.max_int /\ K <= Int.max_int.
Proof.
  unfold Ho, Wo in *.
  pose proof (prod3_ge (H - I + 1) (W - J + 1) K HHo HWo HK) as (? & ? & ?).
  rewrite (sub_id H I), (add_id (H - I) 1), (sub_id W J), (add_id (W - J) 1)
    by (unfold Int.in_range, Int.min_int, Int.max_int in *; lia).
  repeat split; lia.
Qed.

Lemma no_terms_fuel :
  (Z.to_nat (Ho - 0) <= fuel /\ Z.to_nat (Wo - 0) <= fuel /\
   Z.to_nat (K - 0) <= fuel /\ Z.to_nat (I - 0) <= fuel /\
   Z.to_nat (J - 0) <= fuel)%nat.
Proof.
  destruct no_terms_sizes as (E1 & E2 & _).
  revert Hfuel. unfold Seq.conv2d_fuel. rewrite E1, E2. lia.
Qed.

(** The three inner loops add nothing to [0.0f] and read nothing. *)
Lemma no_terms_sum h w k (s : @state F) :
  for_ fuel 0 I (fun i sum =>
    for_ fuel 0 J (fun j sum =>
      for_ fuel 0 C (fun c sum =>
        let in_idx := ((h +i i) *i W +i (w +i j)) *i C +i c in
        let wt_idx := ((i *i J +i j) *i C +i c) *i K +i k in
        x <- read Input input in_idx ;;
        y <- read Weight weight wt_idx ;;
        ret (fadd sum (fmul x y))) sum) sum) fzero s
  = Done fzero s.
Proof.
  destruct no_terms_fuel as (_ & _ & _ & FI & FJ).
  assert (R0 : Int.min_int <= 0) by (unfold Int.min_int; lia).
  destruct RI as [_ RI'], RJ as [_ RJ'].
  apply for_skip; auto. intros i Hi.
  apply for_skip; auto. intros j Hj.
  apply for_empty. lia.
Qed.

Lemma no_terms_k h w k (s : @state F) :
  0 <= h < Ho -> 0 <= w < Wo -> 0 <= k < K ->
  zeroed (Ho * Wo * K) ((h * Wo + w) * K + k) s ->
  exists s',
    (sum <- for_ fuel 0 I (fun i sum =>
              for_ fuel 0 J (fun j sum =>
                for_ fuel 0 C (fun c sum =>
                  let in_idx := ((h +i i) *i W +i (w +i j)) *i C +i c in
                  let wt_idx := ((i *i J +i j) *i C +i c) *i K +i k in
                  x <- read Input input in_idx ;;
                  y <- read Weight weight wt_idx ;;
                  ret (fadd sum (fmul x y))) sum) sum) fzero ;;
     let out_idx := (h *i Wo +i w) *i K +i k in
     write out_idx sum) s = Done tt s'
    /\ zeroed (Ho * Wo * K) ((h * Wo + w) * K + (k + 1)) s'.
Proof.
  intros Hh Hw Hk [Hlen Hz].
  rewrite (bind_done _ _ _ _ _ (no_terms_sum h w k s)). cbv zeta.
  rewrite (flat3_id h w k Ho Wo K) by (auto; lia).
  pose proof (flat3_bound h w k Ho Wo K Hh Hw Hk) as Bd.
  unfold write, store, in_bounds. rewrite Hlen.
  replace (0 <=? (h * Wo + w) * K + k) with true by (symmetry; apply Z.leb_le; lia).
  replace ((h * Wo + w) * K + k <? Ho * Wo * K) with true
    by (symmetry; apply Z.ltb_lt; lia).
  cbn [andb]. eexists. split; [reflexivity|]. split; [reflexivity|].
  intros idx Hidx. cbn [output cell].
  destruct (Z.eqb_spec idx ((h * Wo + w) * K + k)); [reflexivity|].
  apply Hz. lia.
Qed.

Lemma no_terms_run (s : @state F) :
  len (output s) = Ho * Wo * K ->
  exists s',
    Seq.conv2d fuel input weight H W I J C K s = Done tt s'
    /\ zeroed (Ho * Wo * K) (Ho * Wo * K) s'.
Proof.
  intros Hlen. unfold Seq.conv2d. cbv zeta.
  destruct no_terms_sizes as (E1 & E2 & MHo & MWo & MK).
  destruct no_terms_fuel as (FH & FW & FK & _).
  rewrite E1, E2.
  assert (R0 : Int.min_int <= 0) by (unfold Int.min_int; lia).
  destruct (for_rule (fun h (_ : unit) s' => zeroed (Ho * Wo * K) (h * Wo * K) s') fuel 0 Ho
              (fun h _ =>
                 for_ fuel 0 Wo (fun w _ =>
                   for_ fuel 0 K (fun k _ =>
                     sum <- for_ fuel 0 I (fun i sum =>
                              for_ fuel 0 J (fun j sum =>
                                for_ fuel 0 C (fun c sum =>
                                  let in_idx := ((h +i i) *i W +i (w +i j)) *i C +i c in
                                  let wt_idx := ((i *i J +i j) *i C +i c) *i K +i k in
                                  x <- read Input input in_idx ;;
                                  y <- read Weight weight wt_idx ;;
                                  ret (fadd sum (fmul x y))) sum) sum) fzero ;;
                     let out_idx := (h *i Wo +i w) *i K +i k in
                     write out_idx sum) tt) tt) tt s)
    as ([] & s' & E & Hz); auto; try lia.
  - split; [exact Hlen | intros; lia].
  - intros h [] s1 Hh Z1.
    destruct (for_rule (fun w (_ : unit) s' => zeroed (Ho * Wo * K) ((h * Wo + w) * K) s') fuel 0 Wo
                (fun w _ =>
                   for_ fuel 0 K (fun k _ =>
                     sum <- for_ fuel 0 I (fun i sum =>
                              for_ fuel 0 J (fun j sum =>
                                for_ fuel 0 C (fun c sum =>
                                  let in_idx := ((h +i i) *i W +i (w +i j)) *i C +i c in
                                  let wt_idx := ((i *i J +i j) *i C +i c) *i K +i k in
                                  x <- read Input input in_idx ;;
                                  y <- read Weight weight wt_idx ;;
                                  ret (fadd sum (fmul x y))) sum) sum) fzero ;;
                     let out_idx := (h *i Wo +i w) *i K +i k in
                     write out_idx sum) tt) tt s1)
      as ([] & s2 & E2' & Z2); auto; try lia.
    + replace ((h * Wo + 0) * K) with (h * Wo * K) by lia. exact Z1.
    + intros w [] s3 Hw Z3.
      destruct (for_rule (fun k (_ : unit) s' => zeroed (Ho * Wo * K) ((h * Wo + w) * K + k) s')
                  fuel 0 K
                  (fun k _ =>
                     sum <- for_ fuel 0 I (fun i sum =>
                              for_ fuel 0 J (fun j sum =>
                                for_ fuel 0 C (fun c sum =>
                                  let in_idx := ((h +i i) *i W +i (w +i j)) *i C +i c in
                                  let wt_idx := ((i *i J +i j) *i C +i c) *i K +i k in
                                  x <- read Input input in_idx ;;
                                  y <- read Weight weight wt_idx ;;
                                  ret (fadd sum (fmul x y))) sum) sum) fzero ;;
                     let out_idx := (h *i Wo +i w) *i K +i k in
                     write out_idx sum) tt s3)
        as ([] & s4 & E4 & Z4); auto; try lia.
      * replace ((h * Wo + w) * K + 0) with ((h * Wo + w) * K) by lia. exact Z3.
      * intros k [] s5 Hk Z5.
        destruct (no_terms_k h w k s5 Hh Hw Hk Z5) as (s6 & E6 & Z6).
        exists tt, s6. split; [exact E6 | exact Z6].
      * exists tt, s4. split; [exact E4|].
        replace ((h * Wo + (w + 1)) * K) with ((h * Wo + w) * K + K) by lia.
        exact Z4.
    + exists tt, s2. split; [exact E2'|].
      replace ((h + 1) * Wo * K) with ((h * Wo + Wo) * K) by lia. exact Z2.
  - exists s'. split; [exact E | exact Hz].
Qed.
End NoTerms.

(** ** The last element of each array *)

Lemma for_preserves {St A} (P : St -> Prop) fuel lo hi
    (body : Z -> A -> prog St A) a s a' s' :
  (forall i a s a' s', body i a s = Done a' s' -> P s -> P s') ->
  for_ fuel lo hi body a s = Done a' s' -> P s -> P s'.
Proof.
  intros Hb. unfold for_. revert lo a s.
  induction fuel as [|fuel IH]; intros lo a s E HP; simpl in E.
  - destruct (lo <? hi); [discriminate E|]. injection E as <- <-. exact HP.
  - destruct (lo <? hi).
    + unfold bind in E. destruct (body lo a s) as [a1 s1| | |] eqn:E1;
        try discriminate E.
      apply (IH _ _ _ E). apply (Hb _ _ _ _ _ E1 HP).
    + injection E as <- <-. exact HP.
Qed.

(** A completed loop has run each of its iterations: what iteration [i0]
    establishes and the others preserve holds at the end. *)
Lemma for_establishes {St A} (P : St -> Prop) fuel lo hi i0
    (body : Z -> A -> prog St A) a s a' s' :
  Int.min_int <= lo -> lo <= i0 < hi -> hi <= Int.max_int ->
  (forall a s a' s', body i0 a s = Done a' s' -> P s') ->
  (forall i a s a' s', body i a s = Done a' s' -> P s -> P s') ->
  for_ fuel lo hi body a s = Done a' s' -> P s'.
Proof.
  intros Hlo Hi0 Hhi He Hp.
  remember (Z.to_nat (i0 - lo)) as n eqn:En.
  revert fuel lo a s Hlo Hi0 En.
  induction n as [|n IH]; intros fuel lo a s Hlo Hi0 En E;
    (destruct fuel as [|fuel]; unfold for_ in E; simpl in E;
     (replace (lo <? hi) with true in E by (symmetry; apply Z.ltb_lt; lia));
     [discriminate E|]);
    unfold bind in E; destruct (body lo a s) as [a1 s1| | |] eqn:E1;
      try discriminate E.
  - assert (lo = i0) by lia. subst lo.
    apply (for_preserves P fuel _ hi body a1 s1 a' s' Hp E).
    apply (He _ _ _ _ E1).
  - rewrite add_id in E
      by (unfold Int.in_range, Int.min_int, Int.max_int in *; lia).
    apply (IH fuel (lo + 1) a1 s1); auto; lia.
Qed.

Section Touches.
Import ConvMem.
Context {F : Type} {FO : FloatOps F}.
Variables (input weight : buffer F).

Lemma emits_ret {A} (a : A) : emits input weight (@ret (@state F) A a).
Proof.
  intros s a' s' E. injection E as <- <-. split; [reflexivity|].
  exists []. split; [reflexivity | constructor].
Qed.

Lemma emits_bind {A B} (m : prog (@state F) A) (k : A -> prog (@state F) B) :
  emits input weight m -> (forall a, emits input weight (k a)) ->
  emits input weight (bind m k).
Proof.
  intros Hm Hk s b s' E. unfold bind in E.
  destruct (m s) as [a s1| | |] eqn:Em; try discriminate E.
  destruct (Hm s a s1 Em) as (L1 & evs1 & T1 & F1).
  destruct (Hk a s1 b s' E) as (L2 & evs2 & T2 & F2).
  split; [congruence|]. exists (evs2 ++ evs1). split.
  - rewrite T2, T1, app_assoc. reflexivity.
  - apply Forall_app. split; [rewrite <- L1; exact F2 | exact F1].
Qed.

Lemma emits_for {A} fuel lo hi (body : Z -> A -> prog (@state F) A) a :
  (forall i a, emits input weight (body i a)) ->
  emits input weight (for_ fuel lo hi body a).
Proof.
  intros Hb. unfold for_. revert lo a.
  induction fuel as [|fuel IH]; intros lo a; simpl.
  - destruct (lo <? hi); [intros s a' s' E; discriminate E | apply emits_ret].
  - destruct (lo <? hi); [|apply emits_ret].
    apply emits_bind; [apply Hb|]. intros a1. apply IH.
Qed.

Lemma emits_read_input idx : emits input weight (read Input input idx).
Proof.
  intros s a s' E. unfold read, load in E.
  destruct (in_bounds input idx) eqn:B; [|discriminate E].
  injection E as <- <-. split; [reflexivity|].
  exists [Rd Input idx]. split; [reflexivity|]. constructor; [|constructor].
  unfold in_bounds in B. apply andb_true_iff in B as [B1 B2].
  apply Z.leb_le in B1. apply Z.ltb_lt in B2. simpl. lia.
Qed.

Lemma emits_read_weight idx : emits input weight (read Weight weight idx).
Proof.
  intros s a s' E. unfold read, load in E.
  destruct (in_bounds weight idx) eqn:B; [|discriminate E].
  injection E as <- <-. split; [reflexivity|].
  exists [Rd Weight idx]. split; [reflexivity|]. constructor; [|constructor].
  unfold in_bounds in B. apply andb_true_iff in B as [B1 B2].
  apply Z.leb_le in B1. apply Z.ltb_lt in B2. simpl. lia.
Qed.

Lemma emits_write idx (v : F) : emits input weight (write idx v).
Proof.
  intros s a s' E. unfold write, store in E.
  destruct (in_bounds (output s) idx) eqn:B; [|discriminate E].
  injection E as <- <-. split; [reflexivity|].
  exists [Wr Output idx]. split; [reflexivity|]. constructor; [|constructor].
  unfold in_bounds in B. apply andb_true_iff in B as [B1 B2].
  apply Z.leb_le in B1. apply Z.ltb_lt in B2. simpl. lia.
Qed.

Lemma emits_conv2d fuel H W I J C K :
  emits input weight (Seq.conv2d fuel input weight H W I J C K).
Proof.
  unfold Seq.conv2d. cbv zeta.
  repeat first
    [ apply emits_ret | apply emits_read_input | apply emits_read_weight
    | apply emits_write
    | apply emits_for; intros ? ?
    | apply emits_bind; [|intro] ].
Qed.

(** An event, once in the trace, stays there. *)
Lemma emits_keeps {A} (m : prog (@state F) A) ev s a s' :
  emits input weight m -> m s = Done a s' ->
  In ev (trace s) -> In ev (trace s').
Proof.
  intros Hm E Hin. destruct (Hm s a s' E) as (_ & evs & -> & _).
  apply in_or_app. right. exact Hin.
Qed.

Variables (H W I J C K : Z).
Hypothesis HI : 1 <= I <= H.
Hypothesis HJ : 1 <= J <= W.
Hypothesis HC : 1 <= C.
Hypothesis HK : 1 <= K.
Hypothesis Hin_fit : H * W * C <= Int.max_int.
Hypothesis Hwt_fit : I * J * C * K <= Int.max_int.
Hypothesis Hout_fit : (H - I + 1) * (W - J + 1) * K <= Int.max_int.

(** A completed run has read the last element of [input] and of [weight]
    and has written the last element of [output]. *)
Lemma conv2d_touches_last fuel s s' :
  Seq.conv2d fuel input weight H W I J C K s = Done tt s' ->
  In (Rd Input (H * W * C - 1)) (trace s')
  /\ In (Rd Weight (I * J * C * K - 1)) (trace s')
  /\ In (Wr Output ((H - I + 1) * (W - J + 1) * K - 1)) (trace s').
Proof.
  set (f0 := Seq.conv2d_fuel H W I J C K).
  destruct (SeqFacts.facts H W I J C K HI HJ HC HK Hin_fit Hwt_fit Hout_fit)
    as (PHo & PWo & _ & _ & [_ RI] & [_ RJ] & [_ RC] & [_ RK] & MHo & MWo).
  destruct (GpuHostFacts.sizes_id f0 H W I J C K HI HJ HC HK Hin_fit Hwt_fit
              Hout_fit (le_n _)) as (_ & _ & EHo & EWo & _).
  destruct (SeqFacts.in_idx_ok H W I J C K f0 HI HJ HC HK Hin_fit Hwt_fit Hout_fit
              (le_n _) (H - I) (W - J) (I - 1) (J - 1) (C - 1)) as [Ein _];
    try lia.
  destruct (SeqFacts.wt_idx_ok H W I J C K f0 HI HJ HC HK Hwt_fit
              (le_n _) (I - 1) (J - 1) (C - 1) (K - 1)) as [Ewt _]; try lia.
  destruct (SeqFacts.out_idx_ok H W I J C K f0 HI HJ HC HK Hin_fit Hwt_fit Hout_fit
              (le_n _) (H - I) (W - J) (K - 1)) as [Eout _]; try lia.
  rewrite EWo in Eout.
  replace (((H - I + (I - 1)) * W + (W - J + (J - 1))) * C + (C - 1))
    with (H * W * C - 1) in Ein by ring.
  replace ((((I - 1) * J + (J - 1)) * C + (C - 1)) * K + (K - 1))
    with (I * J * C * K - 1) in Ewt by ring.
  replace (((H - I) * (W - J + 1) + (W - J)) * K + (K - 1))
    with ((H - I + 1) * (W - J + 1) * K - 1) in Eout by ring.
  assert (R0 : Int.min_int <= 0) by (unfold Int.min_int; lia).
  assert (BH : 0 <= H - I < H - I + 1) by lia.
  assert (BW : 0 <= W - J < W - J + 1) by lia.
  assert (BK : 0 <= K - 1 < K) by lia.
  assert (BI : 0 <= I - 1 < I) by lia.
  assert (BJ : 0 <= J - 1 < J) by lia.
  assert (BC : 0 <= C - 1 < C) by lia.
  unfold Seq.conv2d. cbv zeta. rewrite EHo, EWo. intros E.
  (* whatever follows an event keeps it *)
  assert (Keep : forall ev,
            (forall h (u : unit) s a' s',
               for_ fuel 0 (W - J + 1) (fun w _ =>
                 for_ fuel 0 K (fun k _ =>
                   sum <- for_ fuel 0 I (fun i sum =>
                            for_ fuel 0 J (fun j sum =>
                              for_ fuel 0 C (fun c sum =>
                                let in_idx := ((h +i i) *i W +i (w +i j)) *i C +i c in
                                let wt_idx := ((i *i J +i j) *i C +i c) *i K +i k in
                                x <- read Input input in_idx ;;
                                y <- read Weight weight wt_idx ;;
                                ret (fadd sum (fmul x y))) sum) sum) fzero ;;
                   let out_idx := (h *i (W - J + 1) +i w) *i K +i k in
                   write out_idx sum) tt) u s = Done a' s' ->
               In ev (trace s) -> In ev (trace s'))).
  { intros ev h u s1 a1 s2 E1. eapply emits_keeps; [|exact E1].
    repeat first
      [ apply emits_ret | apply emits_read_input | apply emits_read_weight
      | apply emits_write
      | apply emits_for; intros ? ?
      | apply emits_bind; [|intro] ]. }
  assert (Last : forall ev,
            ev = Rd Input (H * W * C - 1) \/ ev = Rd Weight (I * J * C * K - 1)
            \/ ev = Wr Output ((H - I + 1) * (W - J + 1) * K - 1) ->
            In ev (trace s')).
  { intros ev Hev.
    apply (for_establishes (fun s => In ev (trace s)) _ _ _ (H - I) _ _ _ _ _
             R0 BH MHo) in E; [exact E| |intros; eapply Keep; eauto].
    clear E. intros [] s1 [] s2 E.
    apply (for_establishes (fun s => In ev (trace s)) _ _ _ (W - J) _ _ _ _ _
             R0 BW MWo) in E; [exact E| |].
    2:{ intros w [] s3 [] s4 E3. eapply emits_keeps; [|exact E3].
        repeat first
          [ apply emits_ret | apply emits_read_input | apply emits_read_weight
          | apply emits_write
          | apply emits_for; intros ? ?
          | apply emits_bind; [|intro] ]. }
    clear E. intros [] s3 [] s4 E.
    apply (for_establishes (fun s => In ev (trace s)) _ _ _ (K - 1) _ _ _ _ _
             R0 BK RK) in E; [exact E| |].
    2:{ intros k [] s5 [] s6 E5. eapply emits_keeps; [|exact E5].
        repeat first
          [ apply emits_ret | apply emits_read_input | apply emits_read_weight
          | apply emits_write
          | apply emits_for; intros ? ?
          | apply emits_bind; [|intro] ]. }
    clear E. intros [] s5 [] s6 E.
    unfold bind in E at 1.
    match type of E with
    | match ?loop s5 with _ => _ end = _ =>
        destruct (loop s5) as [sum s7| | |] eqn:Ei; try discriminate E
    end.
    cbv zeta in E. rewrite Eout in E.
    destruct Hev as [-> | [-> | ->]].
    - eapply emits_keeps; [apply emits_write | exact E |].
      apply (for_establishes (fun s => In (Rd Input (H * W * C - 1)) (trace s))
               _ _ _ (I - 1) _ _ _ _ _ R0 BI RI) in Ei; [exact Ei| |].
      2:{ intros i a1 s8 a2 s9 E8. eapply emits_keeps; [|exact E8].
          repeat first
            [ apply emits_ret | apply emits_read_input | apply emits_read_weight
            | apply emits_for; intros ? ?
            | apply emits_bind; [|intro] ]. }
      clear Ei. intros a1 s8 a2 s9 Ej.
      apply (for_establishes (fun s => In (Rd Input (H * W * C - 1)) (trace s))
               _ _ _ (J - 1) _ _ _ _ _ R0 BJ RJ) in Ej; [exact Ej| |].
      2:{ intros j a3 s10 a4 s11 E10. eapply emits_keeps; [|exact E10].
          repeat first
            [ apply emits_ret | apply emits_read_input | apply emits_read_weight
            | apply emits_for; intros ? ?
            | apply emits_bind; [|intro] ]. }
      clear Ej. intros a3 s10 a4 s11 Ec.
      apply (for_establishes (fun s => In (Rd Input (H * W * C - 1)) (trace s))
               _ _ _ (C - 1) _ _ _ _ _ R0 BC RC) in Ec; [exact Ec| |].
      2:{ intros c a5 s12 a6 s13 E12. eapply emits_keeps; [|exact E12].
          repeat first
            [ apply emits_ret | apply emits_read_input | apply emits_read_weight
            | apply emits_bind; [|intro] ]. }
      clear Ec. intros a5 s12 a6 s13 Eb. cbv zeta in Eb. rewrite Ein in Eb.
      unfold bind, read in Eb.
      destruct (load input (H * W * C - 1)); [|discriminate Eb].
      destruct (load weight _); [|discriminate Eb].
      injection Eb as _ <-. cbn [trace log]. right. left. reflexivity.
    - eapply emits_keeps; [apply emits_write | exact E |].
      apply (for_establishes (fun s => In (Rd Weight (I * J * C * K - 1)) (trace s))
               _ _ _ (I - 1) _ _ _ _ _ R0 BI RI) in Ei; [exact Ei| |].
      2:{ intros i a1 s8 a2 s9 E8. eapply emits_keeps; [|exact E8].
          repeat first
            [ apply emits_ret | apply emits_read_input | apply emits_read_weight
            | apply emits_for; intros ? ?
            | apply emits_bind; [|intro] ]. }
      clear Ei. intros a1 s8 a2 s9 Ej.
      apply (for_establishes (fun s => In (Rd Weight (I * J * C * K - 1)) (trace s))
               _ _ _ (J - 1) _ _ _ _ _ R0 BJ RJ) in Ej; [exact Ej| |].
      2:{ intros j a3 s10 a4 s11 E10. eapply emits_keeps; [|exact E10].
          repeat first
            [ apply emits_ret | apply emits_read_input | apply emits_read_weight
            | apply emits_for; intros ? ?
            | apply emits_bind; [|intro] ]. }
      clear Ej. intros a3 s10 a4 s11 Ec.
      apply (for_establishes (fun s => In (Rd Weight (I * J * C * K - 1)) (trace s))
               _ _ _ (C - 1) _ _ _ _ _ R0 BC RC) in Ec; [exact Ec| |].
      2:{ intros c a5 s12 a6 s13 E12. eapply emits_keeps; [|exact E12].
          repeat first
            [ apply emits_ret | apply emits_read_input | apply emits_read_weight
            | apply emits_bind; [|intro] ]. }
      clear Ec. intros a5 s12 a6 s13 Eb. cbv zeta in Eb. rewrite Ewt in Eb.
      unfold bind, read in Eb.
      destruct (load input _); [|discriminate Eb].
      destruct (load weight (I * J * C * K - 1)); [|discriminate Eb].
      injection Eb as _ <-. cbn [trace log]. left. reflexivity.
    - unfold write in E.
      destruct (store (output s7) _ sum); [|discriminate E].
      injection E as <-. cbn [trace]. left. reflexivity. }
  repeat split; apply Last; auto.
Qed.
End Touches.

(** ** Host memory across the CUDA convolution *)

Section HostBut.
Import Host.
Context {F : Type} {FO : FloatOps F}.
Variable p : nat.

Lemma keeps_ret {A} (a : A) : keeps_host_but p (@ret (@world F) A a).
Proof. intros w. split; reflexivity. Qed.

Lemma keeps_bind {A B} (m : prog (@world F) A) (k : A -> prog (@world F) B) :
  keeps_host_but p m -> (forall a, keeps_host_but p (k a)) ->
  keeps_host_but p (bind m k).
Proof.
  intros Hm Hk w. unfold bind. specialize (Hm w).
  destruct (m w) as [a w1|code w1| |]; auto.
  specialize (Hk a w1). destruct Hm as [L1 N1].
  destruct (k a w1) as [b w2|code w2| |]; auto; destruct Hk as [L2 N2];
    (split; [congruence | intros q Hq; rewrite N2, N1; auto]).
Qed.

Lemma keeps_frame {A} (m : prog (@world F) A) :
  HostFacts.host_frame m -> keeps_host_but p m.
Proof.
  intros Hm w. specialize (Hm w).
  destruct (m w) as [a w1|code w1| |]; auto; rewrite Hm; auto.
Qed.

Lemma keeps_d2h (e : @env F) src size : keeps_host_but p (cudaMemcpy_d2h e p src size).
Proof.
  apply keeps_bind; [apply keeps_frame, HostFacts.host_frame_api|].
  intros [] w; [|split; reflexivity].
  destruct (deref src w); auto.
  destruct (nth_error (host w) p); auto.
  destruct (copy b0 b (Z.quot size Size.sizeof_float)); auto.
  cbn [host set_host]. split; [apply length_update|].
  intros q Hq. apply nth_error_update_ne. congruence.
Qed.

Lemma keeps_gpu_launch fuel grid block d_in d_wt d_out H W I J C K :
  keeps_host_but p (@Gpu.launch F FO fuel grid block d_in d_wt d_out H W I J C K).
Proof.
  intros w. unfold Gpu.launch.
  destruct d_out; auto. destruct (deref d_in w); auto.
  destruct (deref d_wt w); auto. destruct (deref (Some n) w); auto.
  match goal with |- context [foreach ?l ?b ?s] => destruct (foreach l b s) end;
    auto.
Qed.

Lemma keeps_gpu_conv2d (e : @env F) fuel input weight H W I J C K :
  keeps_host_but p (Gpu.conv2d e fuel input weight p H W I J C K).
Proof.
  unfold Gpu.conv2d. cbv zeta.
  repeat first
    [ apply keeps_gpu_launch | apply keeps_ret | apply keeps_d2h
    | apply keeps_frame;
      first [ apply HostFacts.host_frame_malloc | apply HostFacts.host_frame_h2d
            | apply HostFacts.host_frame_free ]
    | apply keeps_bind; [|intro] ].
Qed.
End HostBut.

(** ** The CUDA convolution when a runtime call fails *)

Section GpuCalls.
Import Host.
Context {F : Type} {FO : FloatOps F}.
Variable e : @env F.

Lemma malloc_cases size (w : @world F) :
  exists p w',
    cudaMalloc_ e size w = Done (api_status e (ncalls w), p) w'
    /\ ncalls w' = S (ncalls w)
    /\ (api_status e (ncalls w) = cudaFailure -> p = None).
Proof.
  unfold cudaMalloc_, bind, api_call.
  destruct (api_status e (ncalls w)); eexists _, _;
    (split; [reflexivity|]); split; auto; discriminate.
Qed.

Lemma h2d_cases dst src size (w : @world F) :
  cudaMemcpy_h2d e dst src size w = Fault
  \/ exists st w', cudaMemcpy_h2d e dst src size w = Done (st, tt) w'
                   /\ ncalls w' = S (ncalls w).
Proof.
  unfold cudaMemcpy_h2d, bind, api_call.
  destruct (api_status e (ncalls w)); [|right; eexists _, _; split; reflexivity].
  destruct dst as [p|]; [|left; reflexivity].
  cbn [deref device host].
  destruct (nth_error (device w) p); [|left; reflexivity].
  destruct (nth_error (host w) src); [|left; reflexivity].
  destruct (copy b b0 (Z.quot size Size.sizeof_float));
    [right; eexists _, _; split; reflexivity | left; reflexivity].
Qed.

Lemma gpu_launch_unassigned fuel grid block d_in d_wt d_out H W I J C K
    (w : @world F) :
  d_in = None \/ d_wt = None \/ d_out = None ->
  Gpu.launch fuel grid block d_in d_wt d_out H W I J C K w = Fault.
Proof.
  intros Hn. unfold Gpu.launch.
  destruct d_out as [po|]; [|reflexivity].
  destruct d_in as [pi|]; [|reflexivity].
  destruct d_wt as [pw|].
  - destruct Hn as [Hn | [Hn | Hn]]; discriminate Hn.
  - destruct (deref (Some pi) w); reflexivity.
Qed.

End GpuCalls.

(** ** The CUDA convolution host function, whatever the last calls return *)

Section GpuRun.
Import Host GemmHostFacts.
Context {F : Type} {FO : FloatOps F}.
Variables (e : @env F) (fuel : nat) (H W I J C K : Z).

Hypothesis HI : 1 <= I <= H.
Hypothesis HJ : 1 <= J <= W.
Hypothesis HC : 1 <= C.
Hypothesis HK : 1 <= K.
Hypothesis Hin_fit : H * W * C <= Int.max_int.
Hypothesis Hwt_fit : I * J * C * K <= Int.max_int.
Hypothesis Hout_fit : (H - I + 1) * (W - J + 1) * K <= Int.max_int.
Hypothesis Hfuel : (Seq.conv2d_fuel H W I J C K <= fuel)%nat.

Lemma free_any p (w : @world F) :
  cudaFree_ e (Some p) w
  = Done (api_status e (ncalls w), tt)
      {| host := host w; device := device w; ncalls := S (ncalls w);
         events := Api cudaFree (api_status e (ncalls w)) :: events w |}.
Proof. reflexivity. Qed.

Lemma d2h_failed dst src size (w : @world F) :
  api_status e (ncalls w) = cudaFailure ->
  cudaMemcpy_d2h e dst src size w
  = Done (cudaFailure, tt)
      {| host := host w; device := device w; ncalls := S (ncalls w);
         events := Api cudaMemcpy cudaFailure :: events w |}.
Proof.
  intros E. unfold cudaMemcpy_d2h, bind, api_call. rewrite E. reflexivity.
Qed.

(** When the allocations and the copies to the device succeed, the host
    function returns after nine runtime calls; the host output is
    replaced by the result exactly when the copy back succeeds. *)
Lemma gpu_conv2d_run (w : @world F) pin pwt pout hin hwt hout :
  succeeds e (ncalls w) 5 ->
  nth_error (host w) pin = Some hin ->
  nth_error (host w) pwt = Some hwt ->
  nth_error (host w) pout = Some hout ->
  len hin = H * W * C -> len hwt = I * J * C * K ->
  len hout = (H - I + 1) * (W - J + 1) * K ->
  exists w' out',
    Gpu.conv2d e fuel pin pwt pout H W I J C K w = Done tt w'
    /\ host w' = match api_status e (ncalls w + 5) with
                 | cudaSuccess => update pout out' (host w)
                 | cudaFailure => host w
                 end
    /\ len out' = len hout
    /\ (forall h w k, 0 <= h < H - I + 1 -> 0 <= w < W - J + 1 -> 0 <= k < K ->
          cell out' ((h * (W - J + 1) + w) * K + k)
          = ConvMem.conv_sum hin hwt W I J C K h w k)
    /\ launches (events w')
       = Launch (Gpu.grid_of (H - I + 1) (W - J + 1) K Gpu.block16) Gpu.block16
         :: launches (events w)
    /\ ncalls w' = (ncalls w + 9)%nat.
Proof.
  intros Hok Ein Ewt Eout Lin Lwt Lout.
  assert (S0 : forall i, (i < 5)%nat -> api_status e (i + ncalls w) = cudaSuccess)
    by (intros; apply Hok; lia).
  pose proof (S0 0%nat ltac:(lia)) as H0. pose proof (S0 1%nat ltac:(lia)) as H1.
  pose proof (S0 2%nat ltac:(lia)) as H2. pose proof (S0 3%nat ltac:(lia)) as H3.
  pose proof (S0 4%nat ltac:(lia)) as H4. simpl in H0, H1, H2, H3, H4.
  clear S0.
  replace (ncalls w + 5)%nat with (5 + ncalls w)%nat by lia. cbn [Nat.add].
  destruct (GpuHostFacts.sizes_id fuel H W I J C K HI HJ HC HK Hin_fit Hwt_fit
              Hout_fit Hfuel) as (Z1 & Z2 & Z3 & Z4 & Z5 & PA & PB & PC).
  unfold Gpu.conv2d. cbv zeta. rewrite Z3, Z4, Z5, Z1, Z2.
  set (szA := Size.mul (Size.of_int (H * W * C)) Size.sizeof_float).
  set (szB := Size.mul (Size.of_int (I * J * C * K)) Size.sizeof_float).
  set (szC := Size.mul (Size.of_int ((H - I + 1) * (W - J + 1) * K)) Size.sizeof_float).
  assert (QA : Z.quot szA Size.sizeof_float = H * W * C) by (apply size_bytes; lia).
  assert (QB : Z.quot szB Size.sizeof_float = I * J * C * K) by (apply size_bytes; lia).
  assert (QC : Z.quot szC Size.sizeof_float = (H - I + 1) * (W - J + 1) * K)
    by (apply size_bytes; lia).
  rewrite (bind_done _ _ _ _ _ (malloc_ok e szA w H0)). cbn [snd].
  set (a0 := {| len := Z.quot szA Size.sizeof_float;
                cell := fresh_device e (length (device w)) |}).
  set (w1 := set_device (device w ++ [a0]) (after_call cudaMalloc w)).
  rewrite (bind_done _ _ _ _ _ (malloc_ok e szB w1 H1)). cbn [snd].
  set (b0 := {| len := Z.quot szB Size.sizeof_float;
                cell := fresh_device e (length (device w1)) |}).
  set (w2 := set_device (device w1 ++ [b0]) (after_call cudaMalloc w1)).
  rewrite (bind_done _ _ _ _ _ (malloc_ok e szC w2 H2)). cbn [snd].
  set (c0 := {| len := Z.quot szC Size.sizeof_float;
                cell := fresh_device e (length (device w2)) |}).
  set (w3 := set_device (device w2 ++ [c0]) (after_call cudaMalloc w2)).
  assert (D3 : device w3 = device w ++ [a0; b0; c0])
    by (cbn; rewrite <- !app_assoc; reflexivity).
  assert (E4 : cudaMemcpy_h2d e (Some (length (device w))) pin szA w3
               = Done (cudaSuccess, tt)
                   (set_device (update (length (device w))
                                  (copied a0 hin (Z.quot szA Size.sizeof_float))
                                  (device w3))
                      (after_call cudaMemcpy w3))).
  { apply h2d_ok; auto; try (rewrite QA; simpl; lia).
    rewrite D3. apply nth_error_mid. }
  rewrite (bind_done _ _ _ _ _ E4). clear E4.
  set (a1 := copied a0 hin (Z.quot szA Size.sizeof_float)).
  set (w4 := set_device (update (length (device w)) a1 (device w3))
               (after_call cudaMemcpy w3)).
  assert (D4 : device w4 = device w ++ [a1; b0; c0])
    by (cbn [device w4 set_device]; rewrite D3; apply update_mid).
  assert (P1 : length (device w1) = length (device w ++ [a1]))
    by (cbn; rewrite !length_snoc; reflexivity).
  assert (E5 : cudaMemcpy_h2d e (Some (length (device w1))) pwt szB w4
               = Done (cudaSuccess, tt)
                   (set_device (update (length (device w1))
                                  (copied b0 hwt (Z.quot szB Size.sizeof_float))
                                  (device w4))
                      (after_call cudaMemcpy w4))).
  { apply h2d_ok; auto; try (rewrite QB; simpl; lia).
    rewrite D4, P1. change (device w ++ [a1; b0; c0])
      with (device w ++ [a1] ++ b0 :: [c0]).
    rewrite app_assoc. apply nth_error_mid. }
  rewrite (bind_done _ _ _ _ _ E5). clear E5.
  set (b1 := copied b0 hwt (Z.quot szB Size.sizeof_float)).
  set (w5 := set_device (update (length (device w1)) b1 (device w4))
               (after_call cudaMemcpy w4)).
  assert (D5 : device w5 = device w ++ [a1; b1; c0]).
  { cbn [device w5 set_device]. rewrite D4, P1.
    change (device w ++ [a1; b0; c0]) with (device w ++ [a1] ++ b0 :: [c0]).
    rewrite app_assoc, update_mid, <- app_assoc. reflexivity. }
  assert (P2 : length (device w2) = length (device w ++ [a1; b1]))
    by (cbn; rewrite !length_app; simpl; lia).
  assert (NA : nth_error (device w5) (length (device w)) = Some a1)
    by (rewrite D5; apply nth_error_mid).
  assert (NB : nth_error (device w5) (length (device w1)) = Some b1).
  { rewrite D5, P1. change (device w ++ [a1; b1; c0])
      with (device w ++ [a1] ++ b1 :: [c0]).
    rewrite app_assoc. apply nth_error_mid. }
  assert (NC : nth_error (device w5) (length (device w2)) = Some c0).
  { rewrite D5, P2. change (device w ++ [a1; b1; c0])
      with (device w ++ [a1; b1] ++ c0 :: []).
    rewrite app_assoc. apply nth_error_mid. }
  destruct (SeqFacts.gpu_launch_ok a1 b1 H W I J C K fuel HI HJ HC HK QA QB
              Hin_fit Hwt_fit Hout_fit Hfuel w5 _ _ _ c0 NA NB NC QC)
    as (c1 & E6 & L6 & G6).
  rewrite Z3, Z4 in E6.
  rewrite (bind_done _ _ _ _ _ E6). clear E6.
  set (grid := Gpu.grid_of (H - I + 1) (W - J + 1) K Gpu.block16).
  set (w6 := record (Launch grid Gpu.block16)
               (set_device (update (length (device w2)) c1 (device w5)) w5)).
  assert (D6 : device w6 = device w ++ [a1; b1; c1]).
  { cbn [device w6 set_device record]. rewrite D5, P2.
    change (device w ++ [a1; b1; c0]) with (device w ++ [a1; b1] ++ c0 :: []).
    rewrite app_assoc, update_mid, <- app_assoc. reflexivity. }
  set (o1 := copied hout c1 (Z.quot szC Size.sizeof_float)).
  assert (Ho1 : forall h x k, 0 <= h < H - I + 1 -> 0 <= x < W - J + 1 -> 0 <= k < K ->
            cell o1 ((h * (W - J + 1) + x) * K + k)
            = ConvMem.conv_sum hin hwt W I J C K h x k).
  { intros h x k Hh Hx Hk.
    pose proof (flat3_bound h x k (H - I + 1) (W - J + 1) K Hh Hx Hk) as Bd.
    unfold o1, copied. cbn [cell]. rewrite QC.
    replace (0 <=? (h * (W - J + 1) + x) * K + k) with true
      by (symmetry; apply Z.leb_le; lia).
    replace ((h * (W - J + 1) + x) * K + k <? (H - I + 1) * (W - J + 1) * K) with true
      by (symmetry; apply Z.ltb_lt; lia).
    cbn [andb]. rewrite G6 by auto.
    apply (GpuHostFacts.conv_sum_ext fuel H); auto.
    - intros i Hi. unfold a1, copied. cbn [cell]. rewrite QA.
      replace (0 <=? i) with true by (symmetry; apply Z.leb_le; lia).
      replace (i <? H * W * C) with true by (symmetry; apply Z.ltb_lt; lia).
      reflexivity.
    - intros i Hi. unfold b1, copied. cbn [cell]. rewrite QB.
      replace (0 <=? i) with true by (symmetry; apply Z.leb_le; lia).
      replace (i <? I * J * C * K) with true by (symmetry; apply Z.ltb_lt; lia).
      reflexivity. }
  assert (N6 : ncalls w6 = S (S (S (S (S (ncalls w)))))) by reflexivity.
  rewrite <- N6.
  destruct (api_status e (ncalls w6)) eqn:H5.
  - assert (E7 : cudaMemcpy_d2h e pout (Some (length (device w2))) szC w6
                 = Done (cudaSuccess, tt)
                     (set_host (update pout o1 (host w6)) (after_call cudaMemcpy w6))).
    { apply d2h_ok; auto; try (rewrite QC; lia).
      rewrite D6, P2. change (device w ++ [a1; b1; c1])
        with (device w ++ [a1; b1] ++ c1 :: []).
      rewrite app_assoc. apply nth_error_mid. }
    rewrite (bind_done _ _ _ _ _ E7). clear E7.
    rewrite !(bind_done _ _ _ _ _ (free_any _ _)).
    unfold ret. eexists _, o1.
    split; [reflexivity|]. split; [reflexivity|]. split; [reflexivity|].
    split; [exact Ho1|]. split; [reflexivity | cbn; lia].
  - rewrite (bind_done _ _ _ _ _ (d2h_failed _ _ _ w6 H5)).
    rewrite !(bind_done _ _ _ _ _ (free_any _ _)).
    unfold ret. eexists _, o1.
    split; [reflexivity|]. split; [reflexivity|]. split; [reflexivity|].
    split; [exact Ho1|]. split; [reflexivity | cbn; lia].
Qed.
End GpuRun.

(** ** Which thread writes which output element *)

Lemma zsum_zero {T} (f : T -> Z) l :
  (forall x, In x l -> f x = 0) -> zsum f l = 0.
Proof.
  induction l as [|x l IH]; simpl; intros Hf; [reflexivity|].
  rewrite Hf, IH by auto. reflexivity.
Qed.

Lemma zsum_single {T} (f : T -> Z) l x0 :
  NoDup l -> In x0 l ->
  (forall x, In x l -> x <> x0 -> f x = 0) ->
  zsum f l = f x0.
Proof.
  induction 1 as [|x l Hx Hnd IH]; simpl; intros Hin Hf; [contradiction|].
  destruct Hin as [-> | Hin].
  - rewrite zsum_zero; [lia|]. intros y Hy. apply Hf; auto.
    intros ->. contradiction.
  - rewrite IH, (Hf x) by (auto; intros ->; contradiction). lia.
Qed.

Lemma zsum_flat_map {T U} (f : U -> Z) (g : T -> list U) l :
  zsum f (flat_map g l) = zsum (fun x => zsum f (g x)) l.
Proof.
  induction l as [|x l IH]; simpl; [reflexivity|].
  rewrite <- IH. clear IH. induction (g x) as [|y l' IH']; simpl; [reflexivity|].
  rewrite IH'. lia.
Qed.

Lemma zsum_map {T U} (f : U -> Z) (g : T -> U) l :
  zsum f (map g l) = zsum (fun x => f (g x)) l.
Proof. induction l as [|x l IH]; simpl; congruence. Qed.

(** A sum over the blocks of a grid, or the threads of a block, of a
    function that vanishes everywhere but at [t0]. *)
Lemma zsum_indices_single (f : dim3 -> Z) d t0 :
  In t0 (Host.indices d) ->
  (forall t, In t (Host.indices d) -> t <> t0 -> f t = 0) ->
  zsum f (Host.indices d) = f t0.
Proof.
  intros Hin Hf. pose proof (proj1 (in_indices_iff d t0) Hin) as (Hx & Hy & Hz).
  assert (Hf' : forall x y z, 0 <= x < dx d -> 0 <= y < dy d -> 0 <= z < dz d ->
                  {| dx := x; dy := y; dz := z |} <> t0 ->
                  f {| dx := x; dy := y; dz := z |} = 0).
  { intros x y z ? ? ? Hne. apply Hf; auto. apply in_indices_iff. simpl. lia. }
  clear Hf Hin. unfold Host.indices. rewrite zsum_flat_map.
  rewrite (zsum_single _ _ (dz t0)); [|apply NoDup_zrange|apply in_zrange; lia|].
  - rewrite zsum_flat_map.
    rewrite (zsum_single _ _ (dy t0)); [|apply NoDup_zrange|apply in_zrange; lia|].
    + rewrite zsum_map.
      rewrite (zsum_single _ _ (dx t0)); [|apply NoDup_zrange|apply in_zrange; lia|].
      * destruct t0; reflexivity.
      * intros x Hx' Hne. apply in_zrange in Hx'. apply Hf'; auto.
        intros E. apply Hne. rewrite <- E. reflexivity.
    + intros y Hy' Hne. apply in_zrange in Hy'. rewrite zsum_map.
      apply zsum_zero. intros x Hx'. apply in_zrange in Hx'. apply Hf'; auto.
      intros E. apply Hne. rewrite <- E. reflexivity.
  - intros z Hz' Hne. apply in_zrange in Hz'. rewrite zsum_flat_map.
    apply zsum_zero. intros y Hy'. apply in_zrange in Hy'. rewrite zsum_map.
    apply zsum_zero. intros x Hx'. apply in_zrange in Hx'. apply Hf'; auto.
    intros E. apply Hne. rewrite <- E. reflexivity.
Qed.

Section Cover.
Import ConvMem.
Context {F : Type} {FO : FloatOps F}.

Lemma adds_eq {A} p (m : prog (@state F) A) n n' :
  adds p m n -> n = n' -> adds p m n'.
Proof. intros Hm <-. exact Hm. Qed.

Lemma adds_foreach {T} p (l : list T) (body : T -> prog (@state F) unit)
    (n : T -> Z) :
  (forall x, In x l -> adds p (body x) (n x)) ->
  adds p (foreach l body) (zsum n l).
Proof.
  induction l as [|x l IH]; simpl; intros Hb.
  - apply adds_ret.
  - apply adds_bind; [apply Hb; auto|]. intros []. apply IH. auto.
Qed.

Variables (input weight : buffer F) (H W I J C K : Z) (fuel : nat).

Hypothesis HI : 1 <= I <= H.
Hypothesis HJ : 1 <= J <= W.
Hypothesis HC : 1 <= C.
Hypothesis HK : 1 <= K.
Hypothesis Hin_fit : H * W * C <= Int.max_int.
Hypothesis Hwt_fit : I * J * C * K <= Int.max_int.
Hypothesis Hout_fit : (H - I + 1) * (W - J + 1) * K <= Int.max_int.
Hypothesis Hfuel : (Seq.conv2d_fuel H W I J C K <= fuel)%nat.

Let Ho := H - I + 1.
Let Wo := W - J + 1.

(** The stores to [output[idx]] by the thread [t] of the block [b]. *)
Let hit (idx : Z) (b t : dim3) : Z :=
  if (dy b * 16 + dy t <? Ho) && (dx b * 16 + dx t <? Wo)
     && (((dy b * 16 + dy t) * Wo + (dx b * 16 + dx t)) * K + dz b =? idx)
  then 1 else 0.

Lemma thread_adds idx b t :
  0 <= dx b < Gemm.tiles Wo -> 0 <= dy b < Gemm.tiles Ho -> 0 <= dz b < K ->
  0 <= dx t < 16 -> 0 <= dy t < 16 -> dz t = 0 ->
  adds (writes_to idx)
    (Gpu.conv2d_kernel fuel input weight H W I J C K Gpu.block16 b t)
    (hit idx b t).
Proof.
  intros Hbx Hby Hbz Htx Hty Htz.
  destruct (SeqFacts.facts H W I J C K HI HJ HC HK Hin_fit Hwt_fit Hout_fit)
    as (PHo & PWo & _ & _ & [_ RI] & [_ RJ] & [_ RC] & _).
  destruct (GpuHostFacts.sizes_id fuel H W I J C K HI HJ HC HK Hin_fit Hwt_fit
              Hout_fit Hfuel) as (_ & _ & EHo & EWo & _).
  destruct (SeqFacts.thread_coords H W I J C K fuel HI HJ HC HK Hin_fit Hwt_fit
              Hout_fit Hfuel b t Hbx Hby Hbz Htx Hty Htz)
    as (Eh & Ew & Ek & Ph & Pw).
  assert (R0 : Int.min_int <= 0) by (unfold Int.min_int; lia).
  unfold Gpu.conv2d_kernel. cbv zeta. rewrite Eh, Ew, Ek, EHo, EWo.
  unfold hit. fold Ho Wo.
  replace (dz b <? K) with true by (symmetry; apply Z.ltb_lt; lia).
  rewrite andb_true_r.
  destruct ((dy b * 16 + dy t <? Ho) && (dx b * 16 + dx t <? Wo)) eqn:G.
  - apply andb_true_iff in G as [G1 G2]. apply Z.ltb_lt in G1, G2.
    destruct (SeqFacts.out_idx_ok H W I J C K fuel HI HJ HC HK Hin_fit Hwt_fit
                Hout_fit Hfuel (dy b * 16 + dy t) (dx b * 16 + dx t) (dz b))
      as [Eidx _]; try (fold Ho Wo; lia).
    rewrite EWo in Eidx. fold Wo in Eidx.
    apply adds_eq with
      (n := Z.max 0 (I - 0) * (Z.max 0 (J - 0) * (Z.max 0 (C - 0) * (0 + (0 + 0))))
            + (if writes_to idx
                    (Wr Output (((dy b * 16 + dy t) * Wo + (dx b * 16 + dx t)) * K + dz b))
               then 1 else 0)).
    + apply adds_bind.
      * apply adds_for; auto. intros i sum1.
        apply adds_for; auto. intros j sum2.
        apply adds_for; auto. intros c sum3.
        apply (adds_bind (writes_to idx) _ _ 0 (0 + 0));
          [exact (adds_read (writes_to idx) Input input _)|]. intros x.
        apply (adds_bind (writes_to idx) _ _ 0 0);
          [exact (adds_read (writes_to idx) Weight weight _)|]. intros y.
        apply adds_ret.
      * intros sum. rewrite Eidx. apply adds_write.
    + cbn [writes_to andb]. ring.
  - cbn [andb]. apply adds_ret.
Qed.

Lemma hit_bound idx b t :
  0 <= dx b -> 0 <= dy b -> 0 <= dz b < K -> 0 <= dx t -> 0 <= dy t ->
  hit idx b t <> 0 ->
  exists h w, h = dy b * 16 + dy t /\ w = dx b * 16 + dx t
              /\ 0 <= h < Ho /\ 0 <= w < Wo /\ idx = (h * Wo + w) * K + dz b.
Proof.
  intros Hbx Hby Hbz Htx Hty. unfold hit.
  destruct ((dy b * 16 + dy t <? Ho) && (dx b * 16 + dx t <? Wo)
            && (((dy b * 16 + dy t) * Wo + (dx b * 16 + dx t)) * K + dz b =? idx))
    eqn:G; [|intros Hne; contradiction Hne; reflexivity].
  intros _. apply andb_true_iff in G as [G G3]. apply andb_true_iff in G as [G1 G2].
  apply Z.ltb_lt in G1, G2. apply Z.eqb_eq in G3.
  exists (dy b * 16 + dy t), (dx b * 16 + dx t). repeat split; auto; lia.
Qed.

(** Every element of the output is stored to by one thread of the grid,
    once, and no thread stores anywhere else. *)
Lemma grid_adds idx :
  adds (writes_to idx)
    (conv2d_kernel_threads fuel input weight H W I J C K
       (Gpu.grid_of Ho Wo K Gpu.block16) Gpu.block16)
    (if (0 <=? idx) && (idx <? Ho * Wo * K) then 1 else 0).
Proof.
  unfold conv2d_kernel_threads.
  destruct (SeqFacts.facts H W I J C K HI HJ HC HK Hin_fit Hwt_fit Hout_fit)
    as (PHo & PWo & _).
  destruct (GpuHostFacts.sizes_id fuel H W I J C K HI HJ HC HK Hin_fit Hwt_fit
              Hout_fit Hfuel) as (_ & _ & EHo & EWo & _).
  assert (Hgrid : forall b,
            In b (Host.indices (Gpu.grid_of Ho Wo K Gpu.block16)) <->
            0 <= dx b < Gemm.tiles Wo /\ 0 <= dy b < Gemm.tiles Ho /\ 0 <= dz b < K).
  { intros b.
    pose proof (SeqFacts.in_gpu_grid H W I J C K fuel HI HJ HC HK Hin_fit Hwt_fit
                  Hout_fit Hfuel b) as Hb.
    rewrite EHo, EWo in Hb. exact Hb. }
  assert (Hblock : forall t,
            In t (Host.indices Gpu.block16) <->
            0 <= dx t < 16 /\ 0 <= dy t < 16 /\ dz t = 0).
  { intros t. apply (SeqFacts.in_gpu_block H W I J C K fuel); auto. }
  eapply adds_eq.
  { apply adds_foreach with
      (n := fun b => zsum (hit idx b) (Host.indices Gpu.block16)).
    intros b Hb. apply Hgrid in Hb as (Hbx & Hby & Hbz).
    apply adds_foreach. intros t Ht. apply Hblock in Ht as (Htx & Hty & Htz).
    apply thread_adds; auto. }
  destruct ((0 <=? idx) && (idx <? Ho * Wo * K)) eqn:G.
  - apply andb_true_iff in G as [G1 G2]. apply Z.leb_le in G1. apply Z.ltb_lt in G2.
    destruct (flat3_decode idx Ho Wo K) as (h & w & k & Hh & Hw & Hk & Eidx);
      try lia.
    destruct (tiles_bound Ho) as [_ ?]; [lia|].
    destruct (tiles_bound Wo) as [_ ?]; [lia|].
    pose proof (Z.div_mod h 16 ltac:(lia)).
    pose proof (Z.div_mod w 16 ltac:(lia)).
    pose proof (Z.mod_pos_bound h 16 ltac:(lia)).
    pose proof (Z.mod_pos_bound w 16 ltac:(lia)).
    assert (0 <= h / 16 < Gemm.tiles Ho)
      by (split; [apply Z.div_pos; lia | apply Z.div_lt_upper_bound; lia]).
    assert (0 <= w / 16 < Gemm.tiles Wo)
      by (split; [apply Z.div_pos; lia | apply Z.div_lt_upper_bound; lia]).
    set (b0 := {| dx := w / 16; dy := h / 16; dz := k |}).
    set (t0 := {| dx := w mod 16; dy := h mod 16; dz := 0 |}).
    assert (Only : forall b t,
              In b (Host.indices (Gpu.grid_of Ho Wo K Gpu.block16)) ->
              In t (Host.indices Gpu.block16) ->
              hit idx b t <> 0 -> b = b0 /\ t = t0).
    { intros b t Hb Ht Hne.
      apply Hgrid in Hb as (Hbx & Hby & Hbz). apply Hblock in Ht as (Htx & Hty & Htz).
      destruct (hit_bound idx b t) as (h' & w' & Eh' & Ew' & Hh' & Hw' & Eidx');
        auto; try lia.
      rewrite Eidx in Eidx'.
      destruct (flat3_inj h w k h' w' (dz b) Wo K) as (E1 & E2 & E3); auto.
      unfold b0, t0. destruct b as [bx by_ bz], t as [tx ty tz]. cbn [dx dy dz] in *.
      assert (by_ = h / 16) by (apply Z.div_unique with ty; lia).
      assert (bx = w / 16) by (apply Z.div_unique with tx; lia).
      split; f_equal; lia. }
    rewrite (zsum_indices_single _ _ b0).
    + rewrite (zsum_indices_single _ _ t0).
      * unfold hit, b0, t0. cbn [dx dy dz].
        replace (h / 16 * 16 + h mod 16) with h by lia.
        replace (w / 16 * 16 + w mod 16) with w by lia.
        replace (h <? Ho) with true by (symmetry; apply Z.ltb_lt; lia).
        replace (w <? Wo) with true by (symmetry; apply Z.ltb_lt; lia).
        rewrite <- Eidx, Z.eqb_refl. reflexivity.
      * apply Hblock. unfold t0. cbn. lia.
      * intros t Ht Hne.
        destruct (Z.eq_dec (hit idx b0 t) 0) as [E0 | N0]; [exact E0|].
        destruct (Only b0 t) as [_ Et]; auto; [|contradiction].
        apply Hgrid. unfold b0. cbn. lia.
    + apply Hgrid. unfold b0. cbn. lia.
    + intros b Hb Hne. apply zsum_zero. intros t Ht.
      destruct (Z.eq_dec (hit idx b t) 0) as [E0 | N0]; [exact E0|].
      destruct (Only b t) as [Eb _]; auto. contradiction.
  - apply zsum_zero. intros b Hb. apply zsum_zero. intros t Ht.
    apply Hgrid in Hb as (Hbx & Hby & Hbz). apply Hblock in Ht as (Htx & Hty & Htz).
    destruct (Z.eq_dec (hit idx b t) 0) as [E0 | N0]; [exact E0|].
    destruct (hit_bound idx b t) as (h' & w' & Eh' & Ew' & Hh' & Hw' & Eidx');
      auto; try lia.
    pose proof (flat3_bound h' w' (dz b) Ho Wo K Hh' Hw' Hbz) as Bd.
    apply andb_false_iff in G as [G | G];
      [apply Z.leb_gt in G | apply Z.ltb_ge in G]; lia.
Qed.
End Cover.

(** ** The drivers *)

Section Drivers.
Import Host.
Context {F : Type} {FO : FloatOps F}.

Lemma update_same {A} (l : list A) p b :
  nth_error l p = Some b -> update p b l = l.
Proof.
  revert p. induction l as [|z l IH]; intros [|p] E; simpl in *;
    try discriminate; [congruence|]. rewrite IH; auto.
Qed.

(** [for (int idx = 0; idx < n; idx++) p[idx] = v;] *)
Lemma fill_int_ok fuel (w : @world F) p b v n :
  nth_error (host w) p = Some b -> len b = n ->
  0 <= n <= Int.max_int -> (Z.to_nat n <= fuel)%nat ->
  exists b',
    for_ fuel 0 n (fun i _ => host_store p i v) tt w
    = Done tt (set_host (update p b' (host w)) w)
    /\ len b' = n /\ forall i, 0 <= i < n -> cell b' i = v.
Proof.
  intros Eb Hlen Hn Hf.
  destruct (for_rule (fun i (_ : unit) w' =>
      exists b', w' = set_host (update p b' (host w)) w /\ len b' = n
                 /\ forall j, 0 <= j < i -> cell b' j = v)
    fuel 0 n (fun i _ => host_store p i v) tt w)
    as ([] & w' & E & b' & -> & L & Hc); try lia.
  - unfold Int.min_int. lia.
  - exists b. repeat split; auto; [|intros; lia].
    rewrite (update_same _ _ _ Eb). destruct w; reflexivity.
  - intros i [] w1 Hi (b1 & -> & L1 & H1).
    unfold host_store. cbn [host set_host].
    rewrite (nth_error_update _ _ _ _ Eb).
    unfold store, in_bounds. rewrite L1.
    replace (0 <=? i) with true by (symmetry; apply Z.leb_le; lia).
    replace (i <? n) with true by (symmetry; apply Z.ltb_lt; lia).
    cbn [andb]. eexists tt, _. split; [reflexivity|].
    eexists. split; [|split].
    + unfold set_host. cbn. rewrite GemmHostFacts.update_update. reflexivity.
    + reflexivity.
    + intros j Hj. cbn [cell]. destruct (Z.eqb_spec j i); auto. apply H1. lia.
  - exists b'. auto.
Qed.
End Drivers.

(** Each output element of the two benchmarks: 288 products
    [1.0f * 0.1f] added up in single precision, 15099533 * 2^-19. *)
Lemma conv_sum_benchmark (hin hwt : buffer Binary32.float) K h w k :
  0 <= h < 7 - 3 + 1 -> 0 <= w < 56 - 3 + 1 -> 0 <= k < K ->
  (forall i, 0 <= i < 7 * 56 * 32 -> cell hin i = Binary32.one) ->
  (forall i, 0 <= i < 3 * 3 * 32 * K -> cell hwt i = tenth) ->
  ConvMem.conv_sum hin hwt 56 3 3 32 K h w k = S754_finite false 15099533 (-19).
Proof.
  intros Hh Hw Hk Hin Hwt.
  transitivity (ConvMem.conv_sum (filled 12544 Binary32.one) (filled 2304 tenth)
                  56 3 3 32 K h w k).
  - apply (GpuHostFacts.conv_sum_ext (Seq.conv2d_fuel 7 56 3 3 32 K) 7 56 3 3 32 K
             (le_n _)); auto.
  - vm_compute. reflexivity.
Qed.

(** The state in which both drivers call [conv2d]: three host
    allocations, the first filled with [1.0f], the second with [0.1f]. *)
Lemma driver_prefix (e : @Host.env Binary32.float) (fuel : nat) (n_wt n_out : Z)
    {A} (call : nat -> nat -> nat -> prog (@Host.world Binary32.float) A) :
  0 <= n_wt <= 12544 -> 0 <= n_out <= Int.max_int ->
  (Z.to_nat 12544 <= fuel)%nat ->
  exists hin hwt hout,
    len hin = 12544 /\ len hwt = n_wt /\ len hout = n_out
    /\ (forall i, 0 <= i < 12544 -> cell hin i = Binary32.one)
    /\ (forall i, 0 <= i < n_wt -> cell hwt i = tenth)
    /\ (input <- Host.malloc e (Size.mul (Size.of_int 12544) Size.sizeof_float) ;;
        weight <- Host.malloc e (Size.mul (Size.of_int n_wt) Size.sizeof_float) ;;
        output <- Host.malloc e (Size.mul (Size.of_int n_out) Size.sizeof_float) ;;
        for_ fuel 0 12544 (fun idx _ => Host.host_store input idx Binary32.one) tt ;;;
        for_ fuel 0 n_wt (fun idx _ => Host.host_store weight idx tenth) tt ;;;
        call input weight output) world0
       = call 0%nat 1%nat 2%nat {| Host.host := [hin; hwt; hout]; Host.device := [];
                 Host.ncalls := 0; Host.events := [] |}.
Proof.
  intros Hwt Hout Hf.
  assert (QA : Z.quot (Size.mul (Size.of_int 12544) Size.sizeof_float)
                 Size.sizeof_float = 12544) by reflexivity.
  assert (QB : Z.quot (Size.mul (Size.of_int n_wt) Size.sizeof_float)
                 Size.sizeof_float = n_wt)
    by (apply size_bytes; unfold Int.max_int; lia).
  assert (QC : Z.quot (Size.mul (Size.of_int n_out) Size.sizeof_float)
                 Size.sizeof_float = n_out)
    by (apply size_bytes; lia).
  rewrite (bind_done _ _ _ _ _ (GemmHostFacts.malloc_run e world0 _)).
  rewrite (bind_done _ _ _ _ _ (GemmHostFacts.malloc_run e _ _)).
  rewrite (bind_done _ _ _ _ _ (GemmHostFacts.malloc_run e _ _)).
  rewrite QA, QB, QC. cbn [Host.host Host.set_host world0 app length].
  set (a0 := {| len := 12544; cell := Host.fresh_host e 0 |}).
  set (b0 := {| len := n_wt; cell := Host.fresh_host e 1 |}).
  set (c0 := {| len := n_out; cell := Host.fresh_host e 2 |}).
  change (Host.set_host [a0; b0; c0]
            (Host.set_host [a0; b0] (Host.set_host [a0] world0)))
    with {| Host.host := [a0; b0; c0]; Host.device := []; Host.ncalls := 0;
            Host.events := @nil event |}.
  destruct (fill_int_ok fuel
              {| Host.host := [a0; b0; c0]; Host.device := []; Host.ncalls := 0;
                 Host.events := [] |} 0%nat a0 Binary32.one 12544)
    as (a1 & E4 & LA & CA); try reflexivity; try (unfold Int.max_int; lia).
  cbn [Host.set_host Host.host Host.device Host.ncalls Host.events Host.update]
    in E4.
  destruct (fill_int_ok fuel
              {| Host.host := [a1; b0; c0]; Host.device := []; Host.ncalls := 0;
                 Host.events := [] |} 1%nat b0 tenth n_wt)
    as (b1 & E5 & LB & CB); try reflexivity; try (unfold Int.max_int; lia).
  cbn [Host.set_host Host.host Host.device Host.ncalls Host.events Host.update]
    in E5.
  exists a1, b1, c0. repeat split; auto.
  rewrite (bind_done _ _ _ _ _ E4), (bind_done _ _ _ _ _ E5). reflexivity.
Qed.

(** ** The GEMM host wrapper, whatever the runtime calls return *)

Lemma bind_exit {St A B} (m : prog St A) (k : A -> prog St B) s code s' :
  m s = Exit code s' -> bind m k s = Exit code s'.
Proof. intros E. unfold bind. rewrite E. reflexivity. Qed.

Section GemmCalls.
Import Host Gemm GemmHostFacts.
Context {F : Type} {FO : FloatOps F}.
Variables (e : @env F) (fuel : nat).

Lemma check_malloc_fail size (w : @world F) :
  api_status e (ncalls w) = cudaFailure ->
  CHECK_CUDA (cudaMalloc_ e size) w = Exit 1 (failed cudaMalloc w).
Proof.
  intros E. unfold CHECK_CUDA, cudaMalloc_, bind, api_call. rewrite E. reflexivity.
Qed.

Lemma check_h2d_fail dst src size (w : @world F) :
  api_status e (ncalls w) = cudaFailure ->
  CHECK_CUDA (cudaMemcpy_h2d e dst src size) w = Exit 1 (failed cudaMemcpy w).
Proof.
  intros E. unfold CHECK_CUDA, cudaMemcpy_h2d, bind, api_call. rewrite E.
  reflexivity.
Qed.

Lemma check_sync_fail (w : @world F) :
  api_status e (ncalls w) = cudaFailure ->
  CHECK_CUDA (cudaDeviceSynchronize_ e) w
  = Exit 1 (failed cudaDeviceSynchronize w).
Proof.
  intros E. unfold CHECK_CUDA, cudaDeviceSynchronize_, bind, api_call. rewrite E.
  reflexivity.
Qed.

Lemma check_free_fail p (w : @world F) :
  api_status e (ncalls w) = cudaFailure ->
  CHECK_CUDA (cudaFree_ e (Some p)) w = Exit 1 (failed cudaFree w).
Proof.
  intros E. unfold CHECK_CUDA, cudaFree_, bind, api_call. rewrite E. reflexivity.
Qed.

Variables (M N K : Z).
Hypothesis HM : 1 <= M.
Hypothesis HN : 1 <= N.
Hypothesis HK : 1 <= K.
Hypothesis HMK : M * K <= Int.max_int.
Hypothesis HKN : K * N <= Int.max_int.
Hypothesis HMN : M * N <= Int.max_int.
Hypothesis HM16 : M + 16 <= Int.max_int.
Hypothesis HN16 : N + 16 <= Int.max_int.
Hypothesis HK16 : K + 16 <= Int.max_int.
Hypothesis Hfuel : (gemm_fuel K <= fuel)%nat.

(** The wrapper stops at the first failing call, with exit status 1 and
    before the launch if it is one of the first five; it never runs into
    an unassigned pointer or a copy of the wrong size. *)
Lemma gemm_kernel_test_cases (w : @world F) pA pB pC hA hB :
  nth_error (host w) pA = Some hA ->
  nth_error (host w) pB = Some hB ->
  M * K <= len hA -> K * N <= len hB ->
  match gemm_kernel_test e fuel pA pB pC M N K w with
  | Done _ w' => succeeds e (ncalls w) 9
  | Exit code w' =>
      code = 1 /\ host w' = host w /\
      exists k, (k < 9)%nat /\ succeeds e (ncalls w) k
                /\ api_status e (ncalls w + k) = cudaFailure
                /\ ncalls w' = (ncalls w + k + 1)%nat
                /\ launches (events w')
                   = (if (k <? 5)%nat then [] else [Launch (grid_of M N) block16])
                     ++ launches (events w)
  | _ => False
  end.
Proof.
  intros EhA EhB LA LB.
  assert (0 <= M * K /\ 0 <= K * N /\ 0 <= M * N) as (PA & PB & PC) by nia.
  assert (Stop : forall k wf,
            (k < 9)%nat -> succeeds e (ncalls w) k ->
            api_status e (ncalls w + k) = cudaFailure ->
            host wf = host w -> ncalls wf = (ncalls w + k + 1)%nat ->
            launches (events wf)
            = (if (k <? 5)%nat then [] else [Launch (grid_of M N) block16])
              ++ launches (events w) ->
            1 = 1 /\ host wf = host w /\
            exists k, (k < 9)%nat /\ succeeds e (ncalls w) k
                      /\ api_status e (ncalls w + k) = cudaFailure
                      /\ ncalls wf = (ncalls w + k + 1)%nat
                      /\ launches (events wf)
                         = (if (k <? 5)%nat then []
                            else [Launch (grid_of M N) block16])
                           ++ launches (events w)).
  { intros k wf ? ? ? ? ? ?. split; [reflexivity|]. split; [assumption|].
    exists k. auto. }
  assert (Upto : forall k,
            (forall i, (i < k)%nat -> api_status e (i + ncalls w) = cudaSuccess) ->
            succeeds e (ncalls w) k).
  { intros k Hs i Hi. replace i with ((i - ncalls w) + ncalls w)%nat by lia.
    apply Hs. lia. }
  unfold gemm_kernel_test. cbv zeta.
  rewrite (mul_id M K), (mul_id K N), (mul_id M N)
    by (unfold Int.in_range, Int.min_int, Int.max_int in *; lia).
  set (szA := Size.mul (Size.of_int (M * K)) Size.sizeof_float).
  set (szB := Size.mul (Size.of_int (K * N)) Size.sizeof_float).
  set (szC := Size.mul (Size.of_int (M * N)) Size.sizeof_float).
  assert (QA : Z.quot szA Size.sizeof_float = M * K) by (apply size_bytes; lia).
  assert (QB : Z.quot szB Size.sizeof_float = K * N) by (apply size_bytes; lia).
  assert (QC : Z.quot szC Size.sizeof_float = M * N) by (apply size_bytes; lia).
  (* the three allocations *)
  destruct (api_status e (ncalls w)) eqn:H0;
    [|rewrite (bind_exit _ _ _ _ _ (check_malloc_fail szA w H0));
      apply (Stop 0%nat); auto; try (cbn; lia);
      [apply Upto; intros; lia | rewrite Nat.add_0_r; exact H0]].
  rewrite (bind_done _ _ _ _ _ (check_ok _ _ _ _ (malloc_ok e szA w H0))).
  set (a0 := {| len := Z.quot szA Size.sizeof_float;
                cell := fresh_device e (length (device w)) |}).
  set (w1 := set_device (device w ++ [a0]) (after_call cudaMalloc w)).
  destruct (api_status e (ncalls w1)) eqn:H1;
    [|rewrite (bind_exit _ _ _ _ _ (check_malloc_fail szB w1 H1));
      apply (Stop 1%nat); auto; try (cbn; lia);
      [apply Upto; intros [|i] Hi; [exact H0 | lia]
      | rewrite Nat.add_1_r; exact H1]].
  rewrite (bind_done _ _ _ _ _ (check_ok _ _ _ _ (malloc_ok e szB w1 H1))).
  set (b0 := {| len := Z.quot szB Size.sizeof_float;
                cell := fresh_device e (length (device w1)) |}).
  set (w2 := set_device (device w1 ++ [b0]) (after_call cudaMalloc w1)).
  destruct (api_status e (ncalls w2)) eqn:H2;
    [|rewrite (bind_exit _ _ _ _ _ (check_malloc_fail szC w2 H2));
      apply (Stop 2%nat); auto; try (cbn; lia);
      [apply Upto; intros [|[|i]] Hi; [exact H0 | exact H1 | lia]
      | replace (ncalls w + 2)%nat with (S (S (ncalls w))) by lia; exact H2]].
  rewrite (bind_done _ _ _ _ _ (check_ok _ _ _ _ (malloc_ok e szC w2 H2))).
  set (c0 := {| len := Z.quot szC Size.sizeof_float;
                cell := fresh_device e (length (device w2)) |}).
  set (w3 := set_device (device w2 ++ [c0]) (after_call cudaMalloc w2)).
  assert (D3 : device w3 = device w ++ [a0; b0; c0])
    by (cbn; rewrite <- !app_assoc; reflexivity).
  (* the two copies *)
  destruct (api_status e (ncalls w3)) eqn:H3;
    [|rewrite (bind_exit _ _ _ _ _ (check_h2d_fail _ _ szA w3 H3));
      apply (Stop 3%nat); auto; try (cbn; lia);
      [apply Upto; intros [|[|[|i]]] Hi; [exact H0 | exact H1 | exact H2 | lia]
      | replace (ncalls w + 3)%nat with (S (S (S (ncalls w)))) by lia; exact H3]].
  assert (E4 : cudaMemcpy_h2d e (Some (length (device w))) pA szA w3
               = Done (cudaSuccess, tt)
                   (set_device (update (length (device w))
                                  (copied a0 hA (Z.quot szA Size.sizeof_float))
                                  (device w3))
                      (after_call cudaMemcpy w3))).
  { apply h2d_ok; auto; try (rewrite QA; simpl; lia).
    rewrite D3. apply nth_error_mid. }
  rewrite (bind_done _ _ _ _ _ (check_ok _ _ _ _ E4)). clear E4.
  set (a1 := copied a0 hA (Z.quot szA Size.sizeof_float)).
  set (w4 := set_device (update (length (device w)) a1 (device w3))
               (after_call cudaMemcpy w3)).
  assert (D4 : device w4 = device w ++ [a1; b0; c0])
    by (cbn [device w4 set_device]; rewrite D3; apply update_mid).
  assert (P1 : length (device w1) = length (device w ++ [a1]))
    by (cbn; rewrite !length_snoc; reflexivity).
  destruct (api_status e (ncalls w4)) eqn:H4;
    [|rewrite (bind_exit _ _ _ _ _ (check_h2d_fail _ _ szB w4 H4));
      apply (Stop 4%nat); auto; try (cbn; lia);
      [apply Upto; intros [|[|[|[|i]]]] Hi;
       [exact H0 | exact H1 | exact H2 | exact H3 | lia]
      | replace (ncalls w + 4)%nat with (S (S (S (S (ncalls w))))) by lia;
        exact H4]].
  assert (E5 : cudaMemcpy_h2d e (Some (length (device w1))) pB szB w4
               = Done (cudaSuccess, tt)
                   (set_device (update (length (device w1))
                                  (copied b0 hB (Z.quot szB Size.sizeof_float))
                                  (device w4))
                      (after_call cudaMemcpy w4))).
  { apply h2d_ok; auto; try (rewrite QB; simpl; lia).
    rewrite D4, P1. change (device w ++ [a1; b0; c0])
      with (device w ++ [a1] ++ b0 :: [c0]).
    rewrite app_assoc. apply nth_error_mid. }
  rewrite (bind_done _ _ _ _ _ (check_ok _ _ _ _ E5)). clear E5.
  set (b1 := copied b0 hB (Z.quot szB Size.sizeof_float)).
  set (w5 := set_device (update (length (device w1)) b1 (device w4))
               (after_call cudaMemcpy w4)).
  assert (D5 : device w5 = device w ++ [a1; b1; c0]).
  { cbn [device w5 set_device]. rewrite D4, P1.
    change (device w ++ [a1; b0; c0]) with (device w ++ [a1] ++ b0 :: [c0]).
    rewrite app_assoc, update_mid, <- app_assoc. reflexivity. }
  assert (P2 : length (device w2) = length (device w ++ [a1; b1]))
    by (cbn; rewrite !length_app; simpl; lia).
  (* the launch *)
  assert (NA : nth_error (device w5) (length (device w)) = Some a1)
    by (rewrite D5; apply nth_error_mid).
  assert (NB : nth_error (device w5) (length (device w1)) = Some b1).
  { rewrite D5, P1. change (device w ++ [a1; b1; c0])
      with (device w ++ [a1] ++ b1 :: [c0]).
    rewrite app_assoc. apply nth_error_mid. }
  assert (NC : nth_error (device w5) (length (device w2)) = Some c0).
  { rewrite D5, P2. change (device w ++ [a1; b1; c0])
      with (device w ++ [a1; b1] ++ c0 :: []).
    rewrite app_assoc. apply nth_error_mid. }
  destruct (GemmFacts.launch_ok a1 b1 M N K fuel HM HN HK QA QB HMK HKN HMN
              HM16 HN16 HK16 Hfuel e w5 _ _ _ c0 NA NB NC QC)
    as (c1 & E6 & L6 & G6).
  rewrite (bind_done _ _ _ _ _ E6). clear E6.
  set (w6 := record (Launch (grid_of M N) block16)
               (set_device (update (length (device w2)) c1 (device w5)) w5)).
  (* synchronisation and release *)
  destruct (api_status e (ncalls w6)) eqn:H5;
    [|rewrite (bind_exit _ _ _ _ _ (check_sync_fail w6 H5));
      apply (Stop 5%nat); auto; try (cbn; lia);
      [apply Upto; intros [|[|[|[|[|i]]]]] Hi;
       [exact H0 | exact H1 | exact H2 | exact H3 | exact H4 | lia]
      | replace (ncalls w + 5)%nat with (S (S (S (S (S (ncalls w)))))) by lia;
        exact H5]].
  rewrite (bind_done _ _ _ _ _ (check_ok _ _ _ _ (sync_ok e w6 H5))).
  set (w7 := after_call cudaDeviceSynchronize w6).
  destruct (api_status e (ncalls w7)) eqn:H6;
    [|rewrite (bind_exit _ _ _ _ _ (check_free_fail _ w7 H6));
      apply (Stop 6%nat); auto; try (cbn; lia);
      [apply Upto; intros [|[|[|[|[|[|i]]]]]] Hi;
       [exact H0 | exact H1 | exact H2 | exact H3 | exact H4 | exact H5 | lia]
      | replace (ncalls w + 6)%nat with (S (S (S (S (S (S (ncalls w)))))))
          by lia; exact H6]].
  rewrite (bind_done _ _ _ _ _ (check_ok _ _ _ _ (free_ok e _ w7 H6))).
  set (w8 := after_call cudaFree w7).
  destruct (api_status e (ncalls w8)) eqn:H7;
    [|rewrite (bind_exit _ _ _ _ _ (check_free_fail _ w8 H7));
      apply (Stop 7%nat); auto; try (cbn; lia);
      [apply Upto; intros [|[|[|[|[|[|[|i]]]]]]] Hi;
       [exact H0 | exact H1 | exact H2 | exact H3 | exact H4 | exact H5
       | exact H6 | lia]
      | replace (ncalls w + 7)%nat with (S (S (S (S (S (S (S (ncalls w))))))))
          by lia; exact H7]].
  rewrite (bind_done _ _ _ _ _ (check_ok _ _ _ _ (free_ok e _ w8 H7))).
  set (w9 := after_call cudaFree w8).
  destruct (api_status e (ncalls w9)) eqn:H8;
    [|rewrite (check_free_fail _ w9 H8);
      apply (Stop 8%nat); auto; try (cbn; lia);
      [apply Upto; intros [|[|[|[|[|[|[|[|i]]]]]]]] Hi;
       [exact H0 | exact H1 | exact H2 | exact H3 | exact H4 | exact H5
       | exact H6 | exact H7 | lia]
      | replace (ncalls w + 8)%nat
          with (S (S (S (S (S (S (S (S (ncalls w))))))))) by lia; exact H8]].
  rewrite (check_ok _ _ _ _ (free_ok e _ w9 H8)).
  apply Upto. intros [|[|[|[|[|[|[|[|[|i]]]]]]]]] Hi;
    [exact H0 | exact H1 | exact H2 | exact H3 | exact H4 | exact H5
    | exact H6 | exact H7 | exact H8 | lia].
Qed.
End GemmCalls.

(** The state in which the GEMM [main] calls [gemm_kernel_test]: three
    host allocations of 4096 elements, [A] and [B] filled with [1.0f], [C]
    with [0.0f]. *)
Lemma gemm_main_prefix {F : Type} {FO : FloatOps F} (e : @Host.env F)
    (fuel : nat) {A} (call : nat -> nat -> nat -> prog (@Host.world F) A)
    (w : @Host.world F) :
  Host.host w = [] ->
  (4096 <= fuel)%nat ->
  exists hA hB hC,
    len hA = 4096 /\ len hB = 4096 /\ len hC = 4096
    /\ (forall i, 0 <= i < 4096 -> cell hA i = fone)
    /\ (forall i, 0 <= i < 4096 -> cell hB i = fone)
    /\ (forall i, 0 <= i < 4096 -> cell hC i = fzero)
    /\ (A <- Host.malloc e 16384 ;;
        B <- Host.malloc e 16384 ;;
        C <- Host.malloc e 16384 ;;
        for_size fuel 0 4096 (fun i _ => Host.host_store A i fone) tt ;;;
        for_size fuel 0 4096 (fun i _ => Host.host_store B i fone) tt ;;;
        for_size fuel 0 4096 (fun i _ => Host.host_store C i fzero) tt ;;;
        call A B C) w
       = call 0%nat 1%nat 2%nat (Host.set_host [hA; hB; hC] w).
Proof.
  intros Hw Hf.
  rewrite (bind_done _ _ _ _ _ (GemmHostFacts.malloc_run e w _)).
  rewrite (bind_done _ _ _ _ _ (GemmHostFacts.malloc_run e _ _)).
  rewrite (bind_done _ _ _ _ _ (GemmHostFacts.malloc_run e _ _)).
  cbn [Host.host Host.set_host]. rewrite Hw. cbn [app length].
  change (Z.quot 16384 Size.sizeof_float) with 4096.
  set (a0 := {| len := 4096; cell := Host.fresh_host e 0 |}).
  set (b0 := {| len := 4096; cell := Host.fresh_host e 1 |}).
  set (c0 := {| len := 4096; cell := Host.fresh_host e 2 |}).
  set (w3 := {| Host.host := [a0; b0; c0]; Host.device := Host.device w;
                Host.ncalls := Host.ncalls w; Host.events := Host.events w |}).
  destruct (GemmHostFacts.fill_ok fuel w3 0%nat a0 fone 4096)
    as (a1 & E4 & LA & CA); try reflexivity; try lia.
  cbn [Host.set_host Host.host Host.device Host.ncalls Host.events Host.update w3]
    in E4.
  destruct (GemmHostFacts.fill_ok fuel
              {| Host.host := [a1; b0; c0]; Host.device := Host.device w;
                 Host.ncalls := Host.ncalls w; Host.events := Host.events w |}
              1%nat b0 fone 4096)
    as (b1 & E5 & LB & CB); try reflexivity; try lia.
  cbn [Host.set_host Host.host Host.device Host.ncalls Host.events Host.update]
    in E5.
  destruct (GemmHostFacts.fill_ok fuel
              {| Host.host := [a1; b1; c0]; Host.device := Host.device w;
                 Host.ncalls := Host.ncalls w; Host.events := Host.events w |}
              2%nat c0 fzero 4096)
    as (c1 & E6 & LC & CC); try reflexivity; try lia.
  cbn [Host.set_host Host.host Host.device Host.ncalls Host.events Host.update]
    in E6.
  exists a1, b1, c1. repeat split; auto.
  fold w3.
  rewrite (bind_done _ _ _ _ _ E4), (bind_done _ _ _ _ _ E5),
    (bind_done _ _ _ _ _ E6).
  reflexivity.
Qed.

(** ** The CUDA convolution host function, whatever its copies and
    releases return *)

Section GpuStatus.
Import Host GemmHostFacts.
Context {F : Type} {FO : FloatOps F}.
Variables (e : @env F) (fuel : nat) (H W I J C K : Z).

Hypothesis HI : 1 <= I <= H.
Hypothesis HJ : 1 <= J <= W.
Hypothesis HC : 1 <= C.
Hypothesis HK : 1 <= K.
Hypothesis Hin_fit : H * W * C <= Int.max_int.
Hypothesis Hwt_fit : I * J * C * K <= Int.max_int.
Hypothesis Hout_fit : (H - I + 1) * (W - J + 1) * K <= Int.max_int.
Hypothesis Hfuel : (Seq.conv2d_fuel H W I J C K <= fuel)%nat.

(** A copy to the device between buffers that are large enough returns,
    with the status the runtime gives it; the device buffer keeps its
    length. *)
Lemma h2d_any p src size (w : @world F) d h :
  nth_error (device w) p = Some d ->
  nth_error (host w) src = Some h ->
  Z.quot size Size.sizeof_float <= len h ->
  Z.quot size Size.sizeof_float <= len d ->
  exists d',
    len d' = len d
    /\ cudaMemcpy_h2d e (Some p) src size w
       = Done (api_status e (ncalls w), tt)
           {| host := host w; device := update p d' (device w);
              ncalls := S (ncalls w);
              events := Api cudaMemcpy (api_status e (ncalls w)) :: events w |}.
Proof.
  intros Ed Eh Lh Ld.
  destruct (api_status e (ncalls w)) eqn:E.
  - exists (copied d h (Z.quot size Size.sizeof_float)). split; [reflexivity|].
    rewrite (h2d_ok e p src size w d h E Ed Eh Lh Ld). reflexivity.
  - exists d. split; [reflexivity|].
    unfold cudaMemcpy_h2d, bind, api_call. rewrite E.
    rewrite (update_same _ _ _ Ed). reflexivity.
Qed.

(** From the launch on: the launch, the copy back and the three releases
    are all made, whatever the four calls return. *)
Lemma gpu_conv2d_tail (w : @world F) pa pb pc pout a b c0 hout size :
  nth_error (device w) pa = Some a ->
  nth_error (device w) pb = Some b ->
  nth_error (device w) pc = Some c0 ->
  len a = H * W * C -> len b = I * J * C * K ->
  len c0 = (H - I + 1) * (W - J + 1) * K ->
  nth_error (host w) pout = Some hout ->
  len hout = (H - I + 1) * (W - J + 1) * K ->
  Z.quot size Size.sizeof_float = (H - I + 1) * (W - J + 1) * K ->
  exists w',
    (Gpu.launch fuel (Gpu.grid_of (H - I + 1) (W - J + 1) K Gpu.block16)
       Gpu.block16 (Some pa) (Some pb) (Some pc) H W I J C K ;;;
     cudaMemcpy_d2h e pout (Some pc) size ;;;
     cudaFree_ e (Some pa) ;;;
     cudaFree_ e (Some pb) ;;;
     cudaFree_ e (Some pc) ;;;
     ret tt) w = Done tt w'
    /\ events w'
       = Api cudaFree (api_status e (3 + ncalls w))
         :: Api cudaFree (api_status e (2 + ncalls w))
         :: Api cudaFree (api_status e (1 + ncalls w))
         :: Api cudaMemcpy (api_status e (ncalls w))
         :: Launch (Gpu.grid_of (H - I + 1) (W - J + 1) K Gpu.block16) Gpu.block16
         :: events w
    /\ ncalls w' = (4 + ncalls w)%nat.
Proof.
  intros NA NB NC LA LB LC Eout Lout QC.
  destruct (GpuHostFacts.sizes_id fuel H W I J C K HI HJ HC HK Hin_fit Hwt_fit
              Hout_fit Hfuel) as (Z1 & Z2 & Z3 & Z4 & Z5 & PA & PB & PC).
  destruct (SeqFacts.gpu_launch_ok a b H W I J C K fuel HI HJ HC HK LA LB
              Hin_fit Hwt_fit Hout_fit Hfuel w _ _ _ c0 NA NB NC LC)
    as (c1 & E6 & L6 & _).
  rewrite Z3, Z4 in E6.
  rewrite (bind_done _ _ _ _ _ E6). clear E6.
  set (grid := Gpu.grid_of (H - I + 1) (W - J + 1) K Gpu.block16).
  set (w6 := record (Launch grid Gpu.block16)
               (set_device (update pc c1 (device w)) w)).
  assert (N6 : nth_error (device w6) pc = Some c1).
  { cbn [device w6 set_device record]. clear - NC. revert pc NC.
    induction (device w) as [|x l IH]; intros [|n] NC; simpl in *;
      try discriminate; auto. }
  change (ncalls w) with (ncalls w6).
  change (events w) with (match events w6 with _ :: l => l | [] => [] end).
  destruct (api_status e (ncalls w6)) eqn:H5.
  - rewrite (bind_done _ _ _ _ _
               (d2h_ok e pout pc size w6 c1 hout H5 N6 Eout
                  ltac:(rewrite QC; lia) ltac:(rewrite QC; lia))).
    rewrite !(bind_done _ _ _ _ _ (free_any _ _ _)).
    unfold ret. eexists. split; [reflexivity|]. split; reflexivity.
  - rewrite (bind_done _ _ _ _ _ (d2h_failed _ _ _ _ w6 H5)).
    rewrite !(bind_done _ _ _ _ _ (free_any _ _ _)).
    unfold ret. eexists. split; [reflexivity|]. split; reflexivity.
Qed.

(** When the three allocations succeed, the host function makes its six
    other runtime calls and the launch, in the order of the source, and
    returns, whatever the six calls return. *)
Lemma gpu_conv2d_any_status (w : @world F) pin pwt pout hin hwt hout :
  succeeds e (ncalls w) 3 ->
  nth_error (host w) pin = Some hin ->
  nth_error (host w) pwt = Some hwt ->
  nth_error (host w) pout = Some hout ->
  len hin = H * W * C -> len hwt = I * J * C * K ->
  len hout = (H - I + 1) * (W - J + 1) * K ->
  exists w',
    Gpu.conv2d e fuel pin pwt pout H W I J C K w = Done tt w'
    /\ events w'
       = Api cudaFree (api_status e (ncalls w + 8))
         :: Api cudaFree (api_status e (ncalls w + 7))
         :: Api cudaFree (api_status e (ncalls w + 6))
         :: Api cudaMemcpy (api_status e (ncalls w + 5))
         :: Launch (Gpu.grid_of (H - I + 1) (W - J + 1) K Gpu.block16) Gpu.block16
         :: Api cudaMemcpy (api_status e (ncalls w + 4))
         :: Api cudaMemcpy (api_status e (ncalls w + 3))
         :: Api cudaMalloc cudaSuccess
         :: Api cudaMalloc cudaSuccess
         :: Api cudaMalloc cudaSuccess
         :: events w
    /\ ncalls w' = (ncalls w + 9)%nat.
Proof.
  intros Hok Ein Ewt Eout Lin Lwt Lout.
  assert (S0 : forall i, (i < 3)%nat -> api_status e (i + ncalls w) = cudaSuccess)
    by (intros; apply Hok; lia).
  pose proof (S0 0%nat ltac:(lia)) as H0. pose proof (S0 1%nat ltac:(lia)) as H1.
  pose proof (S0 2%nat ltac:(lia)) as H2. simpl in H0, H1, H2. clear S0.
  replace (ncalls w + 8)%nat with (8 + ncalls w)%nat by lia.
  replace (ncalls w + 7)%nat with (7 + ncalls w)%nat by lia.
  replace (ncalls w + 6)%nat with (6 + ncalls w)%nat by lia.
  replace (ncalls w + 5)%nat with (5 + ncalls w)%nat by lia.
  replace (ncalls w + 4)%nat with (4 + ncalls w)%nat by lia.
  replace (ncalls w + 3)%nat with (3 + ncalls w)%nat by lia.
  replace (ncalls w + 9)%nat with (9 + ncalls w)%nat by lia.
  cbn [Nat.add].
  destruct (GpuHostFacts.sizes_id fuel H W I J C K HI HJ HC HK Hin_fit Hwt_fit
              Hout_fit Hfuel) as (Z1 & Z2 & Z3 & Z4 & Z5 & PA & PB & PC).
  unfold Gpu.conv2d. cbv zeta. rewrite Z3, Z4, Z5, Z1, Z2.
  set (szA := Size.mul (Size.of_int (H * W * C)) Size.sizeof_float).
  set (szB := Size.mul (Size.of_int (I * J * C * K)) Size.sizeof_float).
  set (szC := Size.mul (Size.of_int ((H - I + 1) * (W - J + 1) * K)) Size.sizeof_float).
  assert (QA : Z.quot szA Size.sizeof_float = H * W * C) by (apply size_bytes; lia).
  assert (QB : Z.quot szB Size.sizeof_float = I * J * C * K) by (apply size_bytes; lia).
  assert (QC : Z.quot szC Size.sizeof_float = (H - I + 1) * (W - J + 1) * K)
    by (apply size_bytes; lia).
  rewrite (bind_done _ _ _ _ _ (malloc_ok e szA w H0)). cbn [snd].
  set (a0 := {| len := Z.quot szA Size.sizeof_float;
                cell := fresh_device e (length (device w)) |}).
  set (w1 := set_device (device w ++ [a0]) (after_call cudaMalloc w)).
  rewrite (bind_done _ _ _ _ _ (malloc_ok e szB w1 H1)). cbn [snd].
  set (b0 := {| len := Z.quot szB Size.sizeof_float;
                cell := fresh_device e (length (device w1)) |}).
  set (w2 := set_device (device w1 ++ [b0]) (after_call cudaMalloc w1)).
  rewrite (bind_done _ _ _ _ _ (malloc_ok e szC w2 H2)). cbn [snd].
  set (c0 := {| len := Z.quot szC Size.sizeof_float;
                cell := fresh_device e (length (device w2)) |}).
  set (w3 := set_device (device w2 ++ [c0]) (after_call cudaMalloc w2)).
  assert (D3 : device w3 = device w ++ [a0; b0; c0])
    by (cbn; rewrite <- !app_assoc; reflexivity).
  (* the two copies to the device *)
  destruct (h2d_any (length (device w)) pin szA w3 a0 hin) as (a1 & La1 & E4);
    auto; try (rewrite QA; simpl; lia).
  { rewrite D3. apply nth_error_mid. }
  rewrite (bind_done _ _ _ _ _ E4). clear E4.
  set (w4 := {| host := host w3;
                device := update (length (device w)) a1 (device w3);
                ncalls := S (ncalls w3);
                events := Api cudaMemcpy (api_status e (ncalls w3)) :: events w3 |}).
  assert (D4 : device w4 = device w ++ [a1; b0; c0])
    by (cbn [device w4]; rewrite D3; apply update_mid).
  assert (P1 : length (device w1) = length (device w ++ [a1]))
    by (cbn; rewrite !length_snoc; reflexivity).
  destruct (h2d_any (length (device w1)) pwt szB w4 b0 hwt) as (b1 & Lb1 & E5);
    auto; try (rewrite QB; simpl; lia).
  { rewrite D4, P1. change (device w ++ [a1; b0; c0])
      with (device w ++ [a1] ++ b0 :: [c0]).
    rewrite app_assoc. apply nth_error_mid. }
  rewrite (bind_done _ _ _ _ _ E5). clear E5.
  set (w5 := {| host := host w4;
                device := update (length (device w1)) b1 (device w4);
                ncalls := S (ncalls w4);
                events := Api cudaMemcpy (api_status e (ncalls w4)) :: events w4 |}).
  assert (D5 : device w5 = device w ++ [a1; b1; c0]).
  { cbn [device w5]. rewrite D4, P1.
    change (device w ++ [a1; b0; c0]) with (device w ++ [a1] ++ b0 :: [c0]).
    rewrite app_assoc, update_mid, <- app_assoc. reflexivity. }
  assert (P2 : length (device w2) = length (device w ++ [a1; b1]))
    by (cbn; rewrite !length_app; simpl; lia).
  assert (NA : nth_error (device w5) (length (device w)) = Some a1)
    by (rewrite D5; apply nth_error_mid).
  assert (NB : nth_error (device w5) (length (device w1)) = Some b1).
  { rewrite D5, P1. change (device w ++ [a1; b1; c0])
      with (device w ++ [a1] ++ b1 :: [c0]).
    rewrite app_assoc. apply nth_error_mid. }
  assert (NC : nth_error (device w5) (length (device w2)) = Some c0).
  { rewrite D5, P2. change (device w ++ [a1; b1; c0])
      with (device w ++ [a1; b1] ++ c0 :: []).
    rewrite app_assoc. apply nth_error_mid. }
  destruct (gpu_conv2d_tail w5 _ _ _ pout a1 b1 c0 hout szC NA NB NC)
    as (w' & E & Ev & Nc); auto.
  - rewrite La1. exact QA.
  - rewrite Lb1. exact QB.
  - exists w'. split; [exact E|]. split; [exact Ev | exact Nc].
Qed.
End GpuStatus.

(** ** The trace of the GEMM host function *)

Section GemmTrace.
Import Host Gemm GemmHostFacts.
Context {F : Type} {FO : FloatOps F}.
Variables (e : @env F) (fuel : nat) (M N K : Z).

Hypothesis HM : 1 <= M.
Hypothesis HN : 1 <= N.
Hypothesis HK : 1 <= K.
Hypothesis HMK : M * K <= Int.max_int.
Hypothesis HKN : K * N <= Int.max_int.
Hypothesis HMN : M * N <= Int.max_int.
Hypothesis HM16 : M + 16 <= Int.max_int.
Hypothesis HN16 : N + 16 <= Int.max_int.
Hypothesis HK16 : K + 16 <= Int.max_int.
Hypothesis Hfuel : (gemm_fuel K <= fuel)%nat.

End GemmTrace.

(** ** Sequential runs, and launches under a failed allocation *)

(** The events of a completed run of the sequential [conv2d] are array
    accesses, whatever its arguments. *)
Lemma seq_conv2d_accesses {F : Type} {FO : FloatOps F}
    (input weight : buffer F) fuel H W I J C K s s' :
  Seq.conv2d fuel input weight H W I J C K s = Done tt s' ->
  exists evs, ConvMem.trace s' = evs ++ ConvMem.trace s /\ Forall is_access evs.
Proof.
  intros E.
  destruct (emits_conv2d input weight fuel H W I J C K s tt s' E)
    as (_ & evs & Etr & Hacc).
  exists evs. split; [exact Etr|].
  eapply Forall_impl; [|exact Hacc].
  intros [[| |] i|[| |] i| | |]; simpl; tauto.
Qed.

(** A kernel launch under a failed allocation: the CUDA host function
    goes on and uses the pointer that was never assigned. *)
Lemma gpu_conv2d_unassigned {F : Type} {FO : FloatOps F}
    (e : @Host.env F) fuel input weight output H W I J C K (w : @Host.world F) :
  (exists i, (i < 3)%nat
             /\ Host.api_status e (Host.ncalls w + i) = cudaFailure) ->
  Gpu.conv2d e fuel input weight output H W I J C K w = Fault.
Proof.
  intros (i & Hi & Hfail). unfold Gpu.conv2d. cbv zeta.
  set (in_size := Size.mul (Size.of_int (H *i W *i C)) Size.sizeof_float).
  set (wt_size := Size.mul (Size.of_int (I *i J *i C *i K)) Size.sizeof_float).
  set (out_size := Size.mul (Size.of_int ((H -i I +i 1) *i (W -i J +i 1) *i K))
                     Size.sizeof_float).
  destruct (malloc_cases e in_size w) as (p1 & w1 & E1 & N1 & F1).
  rewrite (bind_done _ _ _ _ _ E1). cbn [snd].
  destruct (malloc_cases e wt_size w1) as (p2 & w2 & E2 & N2 & F2).
  rewrite (bind_done _ _ _ _ _ E2). cbn [snd].
  destruct (malloc_cases e out_size w2) as (p3 & w3 & E3 & N3 & F3).
  rewrite (bind_done _ _ _ _ _ E3). cbn [snd].
  assert (Hnone : p1 = None \/ p2 = None \/ p3 = None).
  { destruct i as [|[|[|i]]]; [| | |lia].
    - left. apply F1. rewrite <- Hfail. f_equal. lia.
    - right. left. apply F2. rewrite <- Hfail. f_equal. lia.
    - right. right. apply F3. rewrite <- Hfail. f_equal. lia. }
  destruct (h2d_cases e p1 input in_size w3) as [E4 | (st4 & w4 & E4 & _)];
    [unfold bind at 1; rewrite E4; reflexivity|].
  rewrite (bind_done _ _ _ _ _ E4).
  destruct (h2d_cases e p2 weight wt_size w4) as [E5 | (st5 & w5 & E5 & _)];
    [unfold bind at 1; rewrite E5; reflexivity|].
  rewrite (bind_done _ _ _ _ _ E5).
  unfold bind at 1.
  rewrite (gpu_launch_unassigned fuel _ _ p1 p2 p3 H W I J C K w5 Hnone).
  reflexivity.
Qed.

Lemma accesses_launch_nothing (evs : list event) :
  Forall is_access evs -> Host.launches evs = [].
Proof.
  induction 1 as [|ev evs Hev _ IH]; [reflexivity|].
  destruct ev; simpl in *; try contradiction; exact IH.
Qed.

(** ** The tile loop as a whole *)

(** From whatever state of the block, the tile loop completes after two
    barriers per iteration. *)
Lemma tile_loop_barriers {F : Type} {FO : FloatOps F}
    (A B : buffer F) (M N K : Z) (fuel : nat) (blockIdx : dim3) :
  1 <= M -> 1 <= N -> 1 <= K ->
  len A = M * K -> len B = K * N ->
  M * K <= Int.max_int -> K * N <= Int.max_int ->
  M + 16 <= Int.max_int -> N + 16 <= Int.max_int -> K + 16 <= Int.max_int ->
  (Gemm.gemm_fuel K <= fuel)%nat ->
  0 <= dx blockIdx < Gemm.tiles N -> 0 <= dy blockIdx < Gemm.tiles M ->
  forall s : @Gemm.block_state F,
  exists s',
    for_ fuel 0 ((K +i Gemm.TILE_K -i 1) /i Gemm.TILE_K)
      (fun t _ => Gemm.tile_iteration fuel A B M N K Gemm.block16 blockIdx t) tt s
    = Done tt s'
    /\ Gemm.barriers (Gemm.ktrace s')
       = (Gemm.barriers (Gemm.ktrace s) + 2 * Z.to_nat (Gemm.tiles K))%nat.
Proof.
  intros HM HN HK LA LB FA FB FM FN FK Hfuel Hbx Hby s.
  unfold Gemm.TILE_K. rewrite (GemmFacts.tiles_id K) by lia.
  destruct (tiles_bound K) as [T0 T1]; [lia|].
  destruct (GemmFacts.gemm_fuel_facts K fuel HK FK Hfuel) as [_ FT].
  destruct (for_rule (fun t (_ : unit) s' =>
      Gemm.barriers (Gemm.ktrace s')
      = (Gemm.barriers (Gemm.ktrace s) + 2 * Z.to_nat t)%nat)
    fuel 0 (Gemm.tiles K)
    (fun t _ => Gemm.tile_iteration fuel A B M N K Gemm.block16 blockIdx t) tt s)
    as ([] & s' & E & E1);
    try (unfold Int.min_int, Int.max_int in *; lia).
  - intros t [] s1 Ht E1.
    destruct (GemmFacts.tile_iteration_runs A B M N K fuel HM HN HK LA LB FA FB
                FM FN FK blockIdx Hbx Hby Hfuel t s1 Ht) as (s2 & E & T2).
    exists tt, s2. split; [exact E|].
    rewrite T2, GemmFacts.barriers_cons2, E1. lia.
  - exists s'. split; [exact E | exact E1].
Qed.

(* ================================================================= *)
(** * The stated properties *)

Import ConvMem.

(** ** The sequential convolution *)

(** C1, amended. For every H >= I >= 1, W >= J >= 1, C >= 1, K >= 1 whose
    three flat lengths H*W*C, I*J*C*K and Ho*Wo*K (Ho = H-I+1, Wo = W-J+1)
    are at most INT_MAX, the sequential [conv2d] run on buffers of these
    lengths completes, and every output element
    output[(h*Wo+w)*K+k] is the closed-form sliding-window sum
    [conv_sum], its terms taken in ascending (i, j, c) order. *)
Theorem conv2d_closed_form {F : Type} {FO : FloatOps F}
    (input weight out0 : buffer F) (H W I J C K : Z) (fuel : nat) :
  1 <= I <= H -> 1 <= J <= W -> 1 <= C -> 1 <= K ->
  len input = H * W * C ->
  len weight = I * J * C * K ->
  len out0 = (H - I + 1) * (W - J + 1) * K ->
  H * W * C <= Int.max_int ->
  I * J * C * K <= Int.max_int ->
  (H - I + 1) * (W - J + 1) * K <= Int.max_int ->
  (Seq.conv2d_fuel H W I J C K <= fuel)%nat ->
  exists s',
    Seq.conv2d fuel input weight H W I J C K {| output := out0; trace := [] |}
    = Done tt s'
    /\ len (output s') = (H - I + 1) * (W - J + 1) * K
    /\ forall h w k,
         0 <= h < H - I + 1 -> 0 <= w < W - J + 1 -> 0 <= k < K ->
         cell (output s') ((h * (W - J + 1) + w) * K + k)
         = conv_sum input weight W I J C K h w k.
Proof.
  intros HI HJ HC HK Lin Lwt Lout Fin Fwt Fout Hfuel.
  destruct (SeqFacts.conv2d_processed input weight H W I J C K fuel
              HI HJ HC HK Lin Lwt Fin Fwt Fout Hfuel
              {| output := out0; trace := [] |} Lout)
    as (s' & E & Hlen & Hval & _).
  exists s'. split; [exact E|]. split; [exact Hlen|].
  intros h w k Hh Hw Hk. apply Hval; auto.
  pose proof (flat3_bound h w k (H - I + 1) (W - J + 1) K Hh Hw Hk). lia.
Qed.

Lemma conv2d_closed_form_witness :
  exists s',
    Seq.conv2d 3 image3 filter2 3 3 2 2 1 1
      {| output := filled 4 Binary32.nan; trace := [] |} = Done tt s'
    /\ len (output s') = (3 - 2 + 1) * (3 - 2 + 1) * 1
    /\ forall h w k,
         0 <= h < 3 - 2 + 1 -> 0 <= w < 3 - 2 + 1 -> 0 <= k < 1 ->
         cell (output s') ((h * (3 - 2 + 1) + w) * 1 + k)
         = conv_sum image3 filter2 3 2 2 1 1 h w k.
Proof.
  apply (conv2d_closed_form image3 filter2 (filled 4 Binary32.nan) 3 3 2 2 1 1 3);
    try reflexivity; try (unfold Int.max_int; lia).
  vm_compute. lia.
Defined.

(** C1 as stated fails when an index overflows [int]: with H = W = I = J
    = 1, C = 3 and K = 2^30 the weight index of (i, j, c, k) = (0, 0, 2, 0)
    is 2 * 2^30 = 2^31, and no run completes. *)
Lemma conv2d_closed_form_overflow :
  ~ exists fuel s',
      Seq.conv2d fuel (filled 3 Binary32.one) (filled 3221225472 Binary32.one)
        1 1 1 1 3 1073741824
        {| output := filled 1073741824 Binary32.zero; trace := [] |} = Done tt s'
      /\ forall h w k,
           0 <= h < 1 - 1 + 1 -> 0 <= w < 1 - 1 + 1 -> 0 <= k < 1073741824 ->
           cell (output s') ((h * (1 - 1 + 1) + w) * 1073741824 + k)
           = conv_sum (filled 3 Binary32.one) (filled 3221225472 Binary32.one)
               1 1 1 3 1073741824 h w k.
Proof.
  intros (fuel & s' & E & _).
  destruct fuel as [|[|[|fuel]]]; vm_compute in E; discriminate.
Qed.

(** C9, amended. Under the same bounds on the three flat lengths, every
    array access of the sequential [conv2d] is inside its array, and
    every index of [0, Ho*Wo*K) is written exactly once. *)
Theorem conv2d_accesses_in_bounds {F : Type} {FO : FloatOps F}
    (input weight out0 : buffer F) (H W I J C K : Z) (fuel : nat) :
  1 <= I <= H -> 1 <= J <= W -> 1 <= C -> 1 <= K ->
  len input = H * W * C ->
  len weight = I * J * C * K ->
  len out0 = (H - I + 1) * (W - J + 1) * K ->
  H * W * C <= Int.max_int ->
  I * J * C * K <= Int.max_int ->
  (H - I + 1) * (W - J + 1) * K <= Int.max_int ->
  (Seq.conv2d_fuel H W I J C K <= fuel)%nat ->
  exists s',
    Seq.conv2d fuel input weight H W I J C K {| output := out0; trace := [] |}
    = Done tt s'
    /\ Forall (access_ok (H * W * C) (I * J * C * K) ((H - I + 1) * (W - J + 1) * K))
         (trace s')
    /\ forall idx,
         0 <= idx < (H - I + 1) * (W - J + 1) * K ->
         count_occ Z.eq_dec (writes (trace s')) idx = 1%nat.
Proof.
  intros HI HJ HC HK Lin Lwt Lout Fin Fwt Fout Hfuel.
  destruct (SeqFacts.conv2d_processed input weight H W I J C K fuel
              HI HJ HC HK Lin Lwt Fin Fwt Fout Hfuel
              {| output := out0; trace := [] |} Lout)
    as (s' & E & _ & _ & evs & Etr & Hok & Hwr).
  simpl in Etr. rewrite app_nil_r in Etr. subst evs.
  exists s'. split; [exact E|]. split.
  - rewrite <- Lin, <- Lwt. exact Hok.
  - intros idx Hidx. rewrite Hwr.
    apply NoDup_count_occ'; [apply NoDup_zrange | apply in_zrange; lia].
Qed.

Lemma conv2d_accesses_in_bounds_witness :
  exists s',
    Seq.conv2d 3 image3 filter2 3 3 2 2 1 1
      {| output := filled 4 Binary32.nan; trace := [] |} = Done tt s'
    /\ Forall (access_ok (3 * 3 * 1) (2 * 2 * 1 * 1) ((3 - 2 + 1) * (3 - 2 + 1) * 1))
         (trace s')
    /\ forall idx,
         0 <= idx < (3 - 2 + 1) * (3 - 2 + 1) * 1 ->
         count_occ Z.eq_dec (writes (trace s')) idx = 1%nat.
Proof.
  apply (conv2d_accesses_in_bounds image3 filter2 (filled 4 Binary32.nan)
           3 3 2 2 1 1 3);
    try reflexivity; try (unfold Int.max_int; lia).
  vm_compute. lia.
Defined.

(** C9 as stated fails at the sizes H = W = I = J = 1, C = 3, K = 2^30:
    the third read of [weight] computes the index 2 * 2^30, which as an
    [int] is -2^31, outside [0, I*J*C*K); the run faults there. *)
Lemma conv2d_access_overflow :
  ((0 *i 1 +i 0) *i 3 +i 2) *i 1073741824 +i 0 = -2147483648
  /\ Seq.conv2d 3 (filled 3 Binary32.one) (filled 3221225472 Binary32.one)
       1 1 1 1 3 1073741824
       {| output := filled 1073741824 Binary32.zero; trace := [] |} = Fault
  /\ ~ exists fuel s',
         Seq.conv2d fuel (filled 3 Binary32.one) (filled 3221225472 Binary32.one)
           1 1 1 1 3 1073741824
           {| output := filled 1073741824 Binary32.zero; trace := [] |} = Done tt s'
         /\ Forall (access_ok (1 * 1 * 3) (1 * 1 * 3 * 1073741824)
                      ((1 - 1 + 1) * (1 - 1 + 1) * 1073741824)) (trace s').
Proof.
  split; [reflexivity|]. split; [vm_compute; reflexivity|].
  intros (fuel & s' & E & _).
  destruct fuel as [|[|[|fuel]]]; vm_compute in E; discriminate.
Qed.

Lemma bind_terminates {St A B} (m : prog St A) (k : A -> prog St B) s :
  m s <> OutOfFuel -> (forall a s', k a s' <> OutOfFuel) ->
  bind m k s <> OutOfFuel.
Proof.
  intros Hm Hk. unfold bind. destruct (m s); try discriminate; auto.
Qed.

(** C10. For every choice of the six [int] parameters and of the
    buffers, the sequential [conv2d] terminates: fuel covering the largest
    of the six loop bounds, which are fixed on entry, is never exhausted
    (the run completes or stops at an access outside an array). *)
Theorem conv2d_terminates {F : Type} {FO : FloatOps F}
    (input weight : buffer F) (H W I J C K : Z) (fuel : nat) (s : @state F) :
  Int.in_range H -> Int.in_range W -> Int.in_range I -> Int.in_range J ->
  Int.in_range C -> Int.in_range K ->
  (Seq.conv2d_fuel H W I J C K <= fuel)%nat ->
  Seq.conv2d fuel input weight H W I J C K s <> OutOfFuel.
Proof.
  intros RH RW RI RJ RC RK Hfuel. unfold Seq.conv2d. cbv zeta.
  assert (R0 : Int.in_range 0) by (unfold Int.in_range, Int.min_int, Int.max_int; lia).
  assert (RHo : Int.in_range (H -i I +i 1)) by apply wrap_in_range.
  assert (RWo : Int.in_range (W -i J +i 1)) by apply wrap_in_range.
  unfold Seq.conv2d_fuel in Hfuel.
  apply for_terminates; auto; [lia|]. intros h [] s1.
  apply for_terminates; auto; [lia|]. intros w [] s2.
  apply for_terminates; auto; [lia|]. intros k [] s3.
  apply bind_terminates.
  - apply for_terminates; auto; [lia|]. intros i sum1 s4.
    apply for_terminates; auto; [lia|]. intros j sum2 s5.
    apply for_terminates; auto; [lia|]. intros c sum3 s6.
    unfold bind, read, ret.
    destruct (load input _); [|discriminate].
    destruct (load weight _); discriminate.
  - intros sum s4. unfold write. destruct (store _ _ _); discriminate.
Qed.

Lemma conv2d_terminates_witness :
  Seq.conv2d 7 image3 filter2 3 (-4) 2 2 7 1
    {| output := filled 4 Binary32.nan; trace := [] |} <> OutOfFuel.
Proof.
  apply conv2d_terminates;
    try (unfold Int.in_range, Int.min_int, Int.max_int; lia).
  vm_compute. lia.
Defined.

(** ** The tiled GEMM kernel *)

Import Host Gemm.

(** C3, amended. For every M, N, K >= 1 with M*K, K*N and M*N at most
    INT_MAX and M + 16, N + 16, K + 16 at most INT_MAX, the launch of
    [gemm_kernel] with the grid and block of [gemm_kernel_test] completes,
    and for every (row, col) with row < M and col < N the element
    C[row*N+col] holds the naive product, its K terms added to [0.0f] in
    ascending k order, followed by the 16*ceil(K/16) - K products
    [0.0f * 0.0f] of the zero padding of the last tile (none when 16
    divides K). *)
Theorem gemm_kernel_tiled_eq_naive {F : Type} {FO : FloatOps F}
    (e : @env F) (w : @world F) (A B C0 : buffer F) (pA pB pC : nat)
    (M N K : Z) (fuel : nat) :
  1 <= M -> 1 <= N -> 1 <= K ->
  len A = M * K -> len B = K * N -> len C0 = M * N ->
  M * K <= Int.max_int -> K * N <= Int.max_int -> M * N <= Int.max_int ->
  M + 16 <= Int.max_int -> N + 16 <= Int.max_int -> K + 16 <= Int.max_int ->
  (gemm_fuel K <= fuel)%nat ->
  nth_error (device w) pA = Some A ->
  nth_error (device w) pB = Some B ->
  nth_error (device w) pC = Some C0 ->
  exists w' C',
    launch e fuel (grid_of M N) block16 (Some pA) (Some pB) (Some pC) M N K w
    = Done tt w'
    /\ nth_error (device w') pC = Some C'
    /\ len C' = M * N
    /\ forall row col,
         0 <= row < M -> 0 <= col < N ->
         cell C' (row * N + col)
         = padded (16 * tiles K - K) (gemm_naive A B N K row col).
Proof.
  intros HM HN HK LA LB LC FA FB FC FM FN FK Hfuel EA EB EC.
  destruct (GemmFacts.launch_ok A B M N K fuel HM HN HK LA LB FA FB FC FM FN FK
              Hfuel e w pA pB pC C0 EA EB EC LC) as (C' & E & L & G).
  eexists _, C'. split; [exact E|]. split; [|split; [exact L|]].
  - cbn [device record set_device]. eapply nth_error_update. exact EC.
  - intros row col Hr Hc. rewrite G by auto.
    apply (GemmFacts.ref_naive A B M N K fuel HK Hfuel); auto.
Qed.

(** A 2x3 by 3x2 product in single precision; K = 3 is not a multiple of
    the tile size. *)
Lemma gemm_kernel_tiled_eq_naive_witness :
  exists w' C',
    launch env_ok 16 (grid_of 2 2) block16 (Some 0%nat) (Some 1%nat) (Some 2%nat)
      2 2 3 (device3 (ones 6) (ones 6) (filled 4 Binary32.nan))
    = Done tt w'
    /\ nth_error (device w') 2 = Some C'
    /\ len C' = 2 * 2
    /\ forall row col,
         0 <= row < 2 -> 0 <= col < 2 ->
         cell C' (row * 2 + col)
         = padded (16 * tiles 3 - 3) (gemm_naive (ones 6) (ones 6) 2 3 row col).
Proof.
  apply (gemm_kernel_tiled_eq_naive env_ok
           (device3 (ones 6) (ones 6) (filled 4 Binary32.nan))
           (ones 6) (ones 6) (filled 4 Binary32.nan) 0 1 2 2 2 3 16);
    try reflexivity; try (unfold Int.max_int; lia).
Defined.

Lemma fold_nan {B} (g : B -> Binary32.float) l :
  fold_left (fun acc k => fadd acc (g k)) l Binary32.nan = Binary32.nan.
Proof. induction l as [|x l IH]; simpl; auto. Qed.

(** In single precision the padding products leave every sum but [-0.0f]
    unchanged. *)
Lemma padded_binary32 n (x : Binary32.float) :
  x <> S754_zero true -> padded n x = x.
Proof.
  intros Hx. unfold padded. generalize (zrange 0 n) as l.
  induction l as [|k l IH]; cbn [fold_left]; auto.
  assert (Hs : Binary32.add x (Binary32.mul Binary32.zero Binary32.zero) = x)
    by (destruct x as [[]| | |]; try reflexivity; congruence).
  change (fadd x (fmul fzero fzero))
    with (Binary32.add x (Binary32.mul Binary32.zero Binary32.zero)).
  rewrite Hs. exact IH.
Qed.

Lemma gemm_kernel_overflow_result fuel w' C' :
  launch env_ok fuel (grid_of 1 1) block16 (Some 0%nat) (Some 1%nat) (Some 2%nat)
    1 1 2147483647
    (device3 nan_row (ones 2147483647) (filled 1 Binary32.nan))
  = Done tt w' ->
  nth_error (device w') 2 = Some C' -> cell C' 0 = Binary32.zero.
Proof.
  destruct fuel as [|fuel]; intros E EC;
    vm_compute in E; inversion E; subst w'; clear E;
    vm_compute in EC; inversion EC; subst C'; reflexivity.
Qed.

Lemma padded_nan n : padded n Binary32.nan = Binary32.nan.
Proof. unfold padded. apply (fold_nan (fun _ : Z => fmul fzero fzero)). Qed.

(** A NaN in the first term makes the naive sum a NaN. *)
Lemma gemm_naive_nan (A B : buffer Binary32.float) N K row col :
  0 < K ->
  fmul (cell A (row * K + 0)) (cell B (0 * N + col)) = Binary32.nan ->
  gemm_naive A B N K row col = Binary32.nan.
Proof.
  intros HK Hnan. unfold gemm_naive. rewrite (zrange_cons 0 K) by lia.
  cbn [fold_left]. rewrite Hnan.
  change (fadd fzero Binary32.nan) with Binary32.nan.
  apply (fold_nan (fun k => fmul (cell A (row * K + k)) (cell B (k * N + col)))).
Qed.

(** C3 as stated fails for K = INT_MAX (M = N = 1): K + TILE_K - 1
    overflows [int], the tile loop runs zero times and the kernel stores
    [0.0f], while the naive sum of a row that starts with a NaN is NaN. *)
Lemma gemm_kernel_tile_count_overflow :
  ~ exists fuel w' C',
      launch env_ok fuel (grid_of 1 1) block16 (Some 0%nat) (Some 1%nat) (Some 2%nat)
        1 1 2147483647
        (device3 nan_row (ones 2147483647) (filled 1 Binary32.nan))
      = Done tt w'
      /\ nth_error (device w') 2 = Some C'
      /\ forall row col,
           0 <= row < 1 -> 0 <= col < 1 ->
           cell C' (row * 1 + col)
           = padded (16 * tiles 2147483647 - 2147483647)
               (gemm_naive nan_row (ones 2147483647) 1 2147483647 row col).
Proof.
  intros (fuel & w' & C' & E & EC & Hc).
  pose proof (gemm_kernel_overflow_result fuel w' C' E EC) as Hz.
  specialize (Hc 0 0 ltac:(lia) ltac:(lia)).
  rewrite (gemm_naive_nan nan_row (ones 2147483647) 1 2147483647 0 0
             ltac:(lia) eq_refl) in Hc.
  rewrite padded_nan in Hc.
  change (0 * 1 + 0) with 0 in Hc. rewrite Hz in Hc.
  discriminate Hc.
Qed.

(** C6, amended. Each iteration of the tile loop of [gemm_kernel] passes
    exactly two barriers, not one. For sizes in the range of C3 and a block
    of the grid: the trip count of the loop, computed in [int], is
    ceil(K/16); each iteration t = 0, ..., ceil(K/16) - 1 completes, from
    whatever state, the threads of the block having met at two
    [__syncthreads] and the trace holding nothing else new; the loop as a
    whole completes after 2 * ceil(K/16) barriers. *)
Theorem tile_iteration_two_barriers {F : Type} {FO : FloatOps F}
    (A B : buffer F) (M N K : Z) (fuel : nat) (blockIdx : dim3) :
  1 <= M -> 1 <= N -> 1 <= K ->
  len A = M * K -> len B = K * N ->
  M * K <= Int.max_int -> K * N <= Int.max_int ->
  M + 16 <= Int.max_int -> N + 16 <= Int.max_int -> K + 16 <= Int.max_int ->
  (gemm_fuel K <= fuel)%nat ->
  0 <= dx blockIdx < tiles N -> 0 <= dy blockIdx < tiles M ->
  (K +i TILE_K -i 1) /i TILE_K = tiles K
  /\ (forall t (s : @block_state F),
        0 <= t < tiles K ->
        exists s',
          tile_iteration fuel A B M N K block16 blockIdx t s = Done tt s'
          /\ ktrace s' = Barrier :: Barrier :: ktrace s
          /\ barriers (ktrace s') = (barriers (ktrace s) + 2)%nat)
  /\ (forall s : @block_state F,
        exists s',
          for_ fuel 0 ((K +i TILE_K -i 1) /i TILE_K)
            (fun t _ => tile_iteration fuel A B M N K block16 blockIdx t) tt s
          = Done tt s'
          /\ barriers (ktrace s')
             = (barriers (ktrace s) + 2 * Z.to_nat (tiles K))%nat).
Proof.
  intros HM HN HK LA LB FA FB FM FN FK Hfuel Hbx Hby.
  split; [|split].
  - unfold TILE_K. apply GemmFacts.tiles_id; lia.
  - intros t s Ht.
    destruct (GemmFacts.tile_iteration_runs A B M N K fuel HM HN HK LA LB FA FB
                FM FN FK blockIdx Hbx Hby Hfuel t s Ht) as (s' & E & T).
    exists s'. split; [exact E|]. split; [exact T|].
    rewrite T. unfold barriers. simpl. lia.
  - intros s.
    exact (tile_loop_barriers A B M N K fuel blockIdx HM HN HK LA LB FA FB
             FM FN FK Hfuel Hbx Hby s).
Qed.

Lemma tile_iteration_two_barriers_witness :
  (3 +i TILE_K -i 1) /i TILE_K = tiles 3
  /\ (exists s',
        tile_iteration 16 (ones 6) (ones 6) 2 2 3 block16 origin 0 block_idle
        = Done tt s'
        /\ ktrace s' = Barrier :: Barrier :: ktrace block_idle
        /\ barriers (ktrace s') = (barriers (ktrace block_idle) + 2)%nat)
  /\ (exists s',
        for_ 16 0 ((3 +i TILE_K -i 1) /i TILE_K)
          (fun t _ => tile_iteration 16 (ones 6) (ones 6) 2 2 3 block16 origin t)
          tt block_idle
        = Done tt s'
        /\ barriers (ktrace s')
           = (barriers (ktrace block_idle) + 2 * Z.to_nat (tiles 3))%nat).
Proof.
  destruct (tile_iteration_two_barriers (ones 6) (ones 6) 2 2 3 16 origin
              ltac:(lia) ltac:(lia) ltac:(lia) eq_refl eq_refl
              ltac:(unfold Int.max_int; lia) ltac:(unfold Int.max_int; lia)
              ltac:(unfold Int.max_int; lia) ltac:(unfold Int.max_int; lia)
              ltac:(unfold Int.max_int; lia)
              ltac:(vm_compute; lia)
              ltac:(vm_compute; split; [discriminate | reflexivity])
              ltac:(vm_compute; split; [discriminate | reflexivity]))
    as (Hbound & Hiter & Hloop).
  split; [exact Hbound|]. split; [|exact (Hloop block_idle)].
  apply (Hiter 0 block_idle). vm_compute. split; [discriminate | reflexivity].
Defined.

(** C6 as stated fails: the single tile iteration of a 2x3 by 3x2 product
    passes two barriers, not one. *)
Lemma tile_iteration_not_one_barrier :
  ~ forall s',
      tile_iteration 16 (ones 6) (ones 6) 2 2 3 block16 origin 0 block_idle
      = Done tt s' ->
      barriers (ktrace s') = (barriers (ktrace block_idle) + 1)%nat.
Proof.
  intros Hone.
  assert (Htwo :
    match tile_iteration 16 (ones 6) (ones 6) 2 2 3 block16 origin 0 block_idle with
    | Done _ s' => barriers (ktrace s') = 2%nat
    | _ => False
    end) by (vm_compute; reflexivity).
  destruct (tile_iteration 16 (ones 6) (ones 6) 2 2 3 block16 origin 0 block_idle)
    as [[] s'| | |]; try contradiction.
  specialize (Hone s' eq_refl). rewrite Htwo in Hone. discriminate Hone.
Qed.

(** ** The GEMM host program *)

Lemma sum_of_ones (hA hB : buffer Binary32.float) r c :
  0 <= r < 64 -> 0 <= c < 64 ->
  (forall i, 0 <= i < 4096 -> cell hA i = Binary32.one) ->
  (forall i, 0 <= i < 4096 -> cell hB i = Binary32.one) ->
  gemm_naive hA hB 64 64 r c = Binary32.sixty_four.
Proof.
  intros Hr Hc HA HB. unfold gemm_naive.
  rewrite (fold_left_ext_in _
             (fun acc (_ : Z) => Binary32.add acc (Binary32.mul Binary32.one Binary32.one))).
  - vm_compute. reflexivity.
  - intros acc k Hk. apply in_zrange in Hk.
    rewrite HA, HB by lia. reflexivity.
Qed.

(** C2, amended. In the GEMM program's [main] (M = N = K = 64, host A
    and B filled with [1.0f], host C with [0.0f]), when every runtime call
    succeeds, after [gemm_kernel_test] returns the host buffer C still
    holds [0.0f] in every element: the copy back to the host is disabled.
    The product, [64.0f] in every element, is in the device buffer dC
    only. *)
Theorem gemm_main_product_stays_on_device (e : @env Binary32.float) (fuel : nat) :
  (forall i, (i < 9)%nat -> api_status e i = cudaSuccess) ->
  (4096 <= fuel)%nat ->
  exists w' hC dC,
    main_run e fuel world0 = Done (0%nat, 1%nat, 2%nat) w'
    /\ nth_error (host w') 2 = Some hC
    /\ nth_error (device w') 2 = Some dC
    /\ (forall row col, 0 <= row < 64 -> 0 <= col < 64 ->
          cell hC (row * 64 + col) = Binary32.zero)
    /\ (forall row col, 0 <= row < 64 -> 0 <= col < 64 ->
          cell dC (row * 64 + col) = Binary32.sixty_four).
Proof.
  intros Hok Hfuel.
  destruct (GemmHostFacts.main_run_ok e fuel world0)
    as (w' & hA & hB & hC & dA & dB & dC & E & Hh & Hd & _ & _ & CA & CB & CC & G);
    auto.
  { intros i Hi. apply Hok. simpl in Hi. lia. }
  exists w', hC, dC. split; [exact E|].
  rewrite Hh, Hd. split; [reflexivity|]. split; [reflexivity|]. split.
  - intros row col Hr Hc. apply CC. lia.
  - intros row col Hr Hc. rewrite G by auto. apply sum_of_ones; auto.
Qed.

Lemma gemm_main_product_stays_on_device_witness :
  exists w' hC dC,
    main_run env_ok 4096 world0 = Done (0%nat, 1%nat, 2%nat) w'
    /\ nth_error (host w') 2 = Some hC
    /\ nth_error (device w') 2 = Some dC
    /\ (forall row col, 0 <= row < 64 -> 0 <= col < 64 ->
          cell hC (row * 64 + col) = Binary32.zero)
    /\ (forall row col, 0 <= row < 64 -> 0 <= col < 64 ->
          cell dC (row * 64 + col) = Binary32.sixty_four).
Proof.
  apply (gemm_main_product_stays_on_device env_ok 4096).
  - intros i _. reflexivity.
  - apply le_n.
Defined.

(** C2 as stated fails: after [gemm_kernel_test] returns in [main], the
    host element C[0] is [0.0f], not [64.0f]. *)
Lemma gemm_main_host_C_is_not_the_product :
  ~ exists w' p hC,
      main_run env_ok 4096 world0 = Done p w'
      /\ nth_error (host w') (snd p) = Some hC
      /\ forall row col, 0 <= row < 64 -> 0 <= col < 64 ->
           cell hC (row * 64 + col) = Binary32.sixty_four.
Proof.
  intros (w' & p & hC & E & EC & Hc).
  destruct (GemmHostFacts.main_run_ok env_ok 4096 world0)
    as (w1 & hA & hB & hC1 & dA & dB & dC & E1 & Hh & _ & _ & _ & _ & _ & CC & _).
  { intros i _. reflexivity. }
  { apply le_n. }
  rewrite E1 in E. clear E1. inversion E; subst p w1. clear E.
  rewrite Hh in EC. simpl in EC. inversion EC; subst hC1. clear EC.
  specialize (Hc 0 0 ltac:(lia) ltac:(lia)). simpl in Hc.
  rewrite CC in Hc by lia. discriminate Hc.
Qed.

(** C8. [gemm_kernel_test] never writes to host memory: whatever the
    runtime calls return and whatever the buffers hold, when it returns,
    and also when it exits at a failed call, the host heap is what it was
    before the call; in particular the buffer C it was passed holds what it
    held. *)
Theorem gemm_kernel_test_host_unchanged {F : Type} {FO : FloatOps F}
    (e : @env F) (fuel : nat) (A B C : nat) (M N K : Z) (w w' : @world F) :
  gemm_kernel_test e fuel A B C M N K w = Done tt w'
  \/ (exists code, gemm_kernel_test e fuel A B C M N K w = Exit code w') ->
  host w' = host w /\ nth_error (host w') C = nth_error (host w) C.
Proof.
  intros E.
  pose proof (HostFacts.host_frame_gemm_kernel_test e fuel A B C M N K w) as Hf.
  assert (Hh : host w' = host w).
  { destruct E as [E | [code E]]; rewrite E in Hf; exact Hf. }
  split; [exact Hh | rewrite Hh; reflexivity].
Qed.

Lemma gemm_kernel_test_host_unchanged_witness :
  exists w',
    gemm_kernel_test env_ok 16 0 1 2 2 2 3
      (host3 (ones 6) (ones 6) (filled 4 Binary32.zero)) = Done tt w'
    /\ host w' = host (host3 (ones 6) (ones 6) (filled 4 Binary32.zero))
    /\ nth_error (host w') 2
       = nth_error (host (host3 (ones 6) (ones 6) (filled 4 Binary32.zero))) 2.
Proof.
  assert (R :
    match gemm_kernel_test env_ok 16 0 1 2 2 2 3
            (host3 (ones 6) (ones 6) (filled 4 Binary32.zero)) with
    | Done _ _ => True
    | _ => False
    end) by (vm_compute; exact I).
  destruct (gemm_kernel_test env_ok 16 0 1 2 2 2 3
              (host3 (ones 6) (ones 6) (filled 4 Binary32.zero)))
    as [[] w'| | |] eqn:E; try contradiction.
  exists w'. split; [reflexivity|].
  apply (gemm_kernel_test_host_unchanged env_ok 16 0 1 2 2 2 3
           (host3 (ones 6) (ones 6) (filled 4 Binary32.zero)) w').
  left. exact E.
Defined.

(** ** Runtime errors *)

(** C4, amended. In the GEMM program every runtime call goes through
    [CHECK_CUDA]. Whatever the inputs, a run of [gemm_kernel_test] that
    returns has recorded no failing status, and a run that exits does so
    with status 1, the failing call being the last event of its trace and
    the only failure (no retry, no recovery). For sizes in the range of C3
    and host buffers of at least M*K and K*N elements a run does one or the
    other: it returns if its nine calls succeed and otherwise exits right
    after the first failing call. The GPGPU-Sim convolution checks no
    status. Its host function never exits; when one of its three
    [cudaMalloc] calls fails it goes on and uses the pointer that was never
    assigned, which is a fault; and when they succeed (sizes in the range
    of C5, host buffers of these sizes) it makes its six other calls and
    the launch in the order of the source and returns, whatever status each
    of the six returns. *)
Theorem cuda_status_checked_in_gemm_only {F : Type} {FO : FloatOps F} :
  (forall (e : @env F) fuel A B C M N K,
     HostFacts.checked (gemm_kernel_test e fuel A B C M N K))
  /\ (forall (e : @env F) fuel (w : @world F) pA pB pC hA hB M N K,
        1 <= M -> 1 <= N -> 1 <= K ->
        M * K <= Int.max_int -> K * N <= Int.max_int -> M * N <= Int.max_int ->
        M + 16 <= Int.max_int -> N + 16 <= Int.max_int -> K + 16 <= Int.max_int ->
        (gemm_fuel K <= fuel)%nat ->
        nth_error (host w) pA = Some hA ->
        nth_error (host w) pB = Some hB ->
        M * K <= len hA -> K * N <= len hB ->
        match gemm_kernel_test e fuel pA pB pC M N K w with
        | Done _ w' =>
            (forall i, (ncalls w <= i < ncalls w + 9)%nat ->
               api_status e i = cudaSuccess)
            /\ ncalls w' = (ncalls w + 9)%nat
        | Exit code w' =>
            code = 1
            /\ exists k, (k < 9)%nat
                 /\ (forall i, (ncalls w <= i < ncalls w + k)%nat ->
                       api_status e i = cudaSuccess)
                 /\ api_status e (ncalls w + k) = cudaFailure
                 /\ ncalls w' = (ncalls w + k + 1)%nat
        | _ => False
        end)
  /\ (forall (e : @env F) fuel input weight output H W I J C K,
        HostFacts.no_exit (Gpu.conv2d e fuel input weight output H W I J C K))
  /\ (forall (e : @env F) fuel input weight output H W I J C K (w : @world F),
        (exists i, (i < 3)%nat /\ api_status e (ncalls w + i) = cudaFailure) ->
        Gpu.conv2d e fuel input weight output H W I J C K w = Fault)
  /\ (forall (e : @env F) fuel (w : @world F) pin pwt pout hin hwt hout
             H W I J C K,
        1 <= I <= H -> 1 <= J <= W -> 1 <= C -> 1 <= K ->
        len hin = H * W * C ->
        len hwt = I * J * C * K ->
        len hout = (H - I + 1) * (W - J + 1) * K ->
        H * W * C <= Int.max_int ->
        I * J * C * K <= Int.max_int ->
        (H - I + 1) * (W - J + 1) * K <= Int.max_int ->
        (Seq.conv2d_fuel H W I J C K <= fuel)%nat ->
        (forall i, (ncalls w <= i < ncalls w + 3)%nat ->
           api_status e i = cudaSuccess) ->
        nth_error (host w) pin = Some hin ->
        nth_error (host w) pwt = Some hwt ->
        nth_error (host w) pout = Some hout ->
        exists w',
          Gpu.conv2d e fuel pin pwt pout H W I J C K w = Done tt w'
          /\ events w'
             = Api cudaFree (api_status e (ncalls w + 8))
               :: Api cudaFree (api_status e (ncalls w + 7))
               :: Api cudaFree (api_status e (ncalls w + 6))
               :: Api cudaMemcpy (api_status e (ncalls w + 5))
               :: Launch (Gpu.grid_of (H - I + 1) (W - J + 1) K Gpu.block16)
                    Gpu.block16
               :: Api cudaMemcpy (api_status e (ncalls w + 4))
               :: Api cudaMemcpy (api_status e (ncalls w + 3))
               :: Api cudaMalloc cudaSuccess
               :: Api cudaMalloc cudaSuccess
               :: Api cudaMalloc cudaSuccess
               :: events w
          /\ ncalls w' = (ncalls w + 9)%nat).
Proof.
  split; [|split; [|split; [|split]]].
  - intros. apply HostFacts.checked_gemm_kernel_test.
  - intros e fuel w pA pB pC hA hB M N K HM HN HK FA FB FC FM FN FK Hfuel
      EA EB LA LB.
    pose proof (gemm_kernel_test_cases e fuel M N K HM HN HK FA FB FC FM FN FK
                  Hfuel w pA pB pC hA hB EA EB LA LB) as Hc.
    destruct (gemm_kernel_test e fuel pA pB pC M N K w) as [u w'|code w'| |] eqn:E;
      try contradiction.
    + split; [exact Hc|].
      destruct (GemmHostFacts.gemm_kernel_test_ok e fuel M N K HM HN HK FA FB FC
                  FM FN FK Hfuel w pA pB pC hA hB Hc EA EB LA LB)
        as (w2 & _ & _ & _ & E2 & _ & _ & _ & _ & Nc & _).
      rewrite E in E2. inversion E2. subst w2. exact Nc.
    + destruct Hc as (Hcode & _ & k & Hk & Hs & Hf & Nc & _).
      split; [exact Hcode|]. exists k. repeat split; auto.
  - intros. apply HostFacts.no_exit_gpu_conv2d.
  - intros. apply gpu_conv2d_unassigned. assumption.
  - intros e fuel w pin pwt pout hin hwt hout H W I J C K HI HJ HC HK
      Lin Lwt Lout Fin Fwt Fout Hfuel Hok Ein Ewt Eout.
    exact (gpu_conv2d_any_status e fuel H W I J C K HI HJ HC HK Fin Fwt Fout
             Hfuel w pin pwt pout hin hwt hout Hok Ein Ewt Eout Lin Lwt Lout).
Qed.

Lemma cuda_status_checked_in_gemm_only_witness :
  match gemm_kernel_test (env_failing 2) 16 0 1 2 2 2 3
          (host3 (ones 6) (ones 6) (filled 4 Binary32.zero)) with
  | Done _ w' =>
      (forall i, (0 <= i < 0 + 9)%nat ->
         api_status (env_failing 2) i = cudaSuccess)
      /\ ncalls w' = (0 + 9)%nat
  | Exit code w' =>
      code = 1
      /\ exists k, (k < 9)%nat
           /\ (forall i, (0 <= i < 0 + k)%nat ->
                 api_status (env_failing 2) i = cudaSuccess)
           /\ api_status (env_failing 2) (0 + k) = cudaFailure
           /\ ncalls w' = (0 + k + 1)%nat
  | _ => False
  end
  /\ Gpu.conv2d (env_failing 1) 3 0 1 2 3 3 2 2 1 1
       (host3 image3 filter2 (filled 4 Binary32.nan)) = Fault
  /\ exists w',
       Gpu.conv2d (env_failing_from 3) 3 0 1 2 3 3 2 2 1 1
         (host3 image3 filter2 (filled 4 Binary32.nan)) = Done tt w'
       /\ events w'
          = [Api cudaFree cudaFailure; Api cudaFree cudaFailure;
             Api cudaFree cudaFailure; Api cudaMemcpy cudaFailure;
             Launch (Gpu.grid_of (3 - 2 + 1) (3 - 2 + 1) 1 Gpu.block16) Gpu.block16;
             Api cudaMemcpy cudaFailure; Api cudaMemcpy cudaFailure;
             Api cudaMalloc cudaSuccess; Api cudaMalloc cudaSuccess;
             Api cudaMalloc cudaSuccess]
       /\ ncalls w' = 9%nat.
Proof.
  destruct (@cuda_status_checked_in_gemm_only Binary32.float _)
    as (_ & Hgemm & _ & Hmalloc & Hrest).
  split; [|split].
  - apply (Hgemm (env_failing 2) 16%nat
             (host3 (ones 6) (ones 6) (filled 4 Binary32.zero)) 0%nat 1%nat 2%nat
             (ones 6) (ones 6) 2 2 3);
      try reflexivity; try (unfold Int.max_int; lia); vm_compute; lia.
  - apply (Hmalloc (env_failing 1) 3%nat 0%nat 1%nat 2%nat 3 3 2 2 1 1
             (host3 image3 filter2 (filled 4 Binary32.nan))).
    exists 1%nat. split; [lia | reflexivity].
  - apply (Hrest (env_failing_from 3) 3%nat
             (host3 image3 filter2 (filled 4 Binary32.nan)) 0%nat 1%nat 2%nat
             image3 filter2 (filled 4 Binary32.nan) 3 3 2 2 1 1);
      try reflexivity; try (unfold Int.max_int; lia); try (vm_compute; lia).
    intros i Hi. cbn in Hi. unfold env_failing_from. cbn [api_status].
    destruct (Nat.ltb_spec i 3); [reflexivity | lia].
Defined.

(** When the third [cudaMalloc] fails, the GEMM wrapper exits with status
    1 after three calls. *)
Example gemm_exits_at_failed_malloc :
  match gemm_kernel_test (env_failing 2) 16 0 1 2 2 2 3
          (host3 (ones 6) (ones 6) (filled 4 Binary32.zero)) with
  | Exit code w' =>
      code = 1 /\ ncalls w' = 3%nat
      /\ events w' = [Api cudaMalloc cudaFailure; Api cudaMalloc cudaSuccess;
                      Api cudaMalloc cudaSuccess]
  | _ => False
  end.
Proof. vm_compute. repeat split. Qed.

(** C4 as stated fails for the GPGPU-Sim convolution: when its last
    [cudaFree] fails, [conv2d] returns as usual, the failure unnoticed. *)
Lemma conv_ignores_failed_call :
  ~ HostFacts.checked
      (Gpu.conv2d (env_failing 8) 1 0 1 2 1 1 1 1 1 1).
Proof.
  intros Hc.
  specialize (Hc (host3 (ones 1) (ones 1) (filled 1 Binary32.zero))).
  assert (R :
    match Gpu.conv2d (env_failing 8) 1 0 1 2 1 1 1 1 1 1
            (host3 (ones 1) (ones 1) (filled 1 Binary32.zero)) with
    | Done _ w' => failures (events w') = [Api cudaFree cudaFailure]
    | _ => False
    end) by (vm_compute; reflexivity).
  destruct (Gpu.conv2d (env_failing 8) 1 0 1 2 1 1 1 1 1 1
              (host3 (ones 1) (ones 1) (filled 1 Binary32.zero)))
    as [[] w'| | |]; try contradiction.
  destruct Hc as (new & E & Hnone). simpl in E. rewrite app_nil_r in E.
  rewrite E, Hnone in R. discriminate R.
Qed.

(** ** The CUDA convolution *)

(** C5, amended. For every H >= I >= 1, W >= J >= 1, C >= 1, K >= 1 whose
    three flat lengths are at most INT_MAX, on the same input and weight
    buffers and when the runtime calls succeed, the CUDA host function
    [conv2d] (block (16,16,1), grid (ceil(Wo/16), ceil(Ho/16), K)) leaves
    in the host output buffer what the sequential six-loop [conv2d]
    computes: the same length and the same elements, each the closed form
    [conv_sum] with its terms in ascending (i, j, c) order. *)
Theorem cuda_conv2d_matches_sequential {F : Type} {FO : FloatOps F}
    (e : @env F) (w : @world F) (pin pwt pout : nat) (hin hwt hout : buffer F)
    (H W I J C K : Z) (fuel : nat) :
  1 <= I <= H -> 1 <= J <= W -> 1 <= C -> 1 <= K ->
  len hin = H * W * C ->
  len hwt = I * J * C * K ->
  len hout = (H - I + 1) * (W - J + 1) * K ->
  H * W * C <= Int.max_int ->
  I * J * C * K <= Int.max_int ->
  (H - I + 1) * (W - J + 1) * K <= Int.max_int ->
  (Seq.conv2d_fuel H W I J C K <= fuel)%nat ->
  (forall i, (ncalls w <= i < ncalls w + 9)%nat -> api_status e i = cudaSuccess) ->
  nth_error (host w) pin = Some hin ->
  nth_error (host w) pwt = Some hwt ->
  nth_error (host w) pout = Some hout ->
  exists w' out' s',
    Gpu.conv2d e fuel pin pwt pout H W I J C K w = Done tt w'
    /\ nth_error (host w') pout = Some out'
    /\ Seq.conv2d fuel hin hwt H W I J C K {| output := hout; trace := [] |}
       = Done tt s'
    /\ len out' = len (output s')
    /\ (forall idx, 0 <= idx < (H - I + 1) * (W - J + 1) * K ->
          cell out' idx = cell (output s') idx)
    /\ (forall h x k, 0 <= h < H - I + 1 -> 0 <= x < W - J + 1 -> 0 <= k < K ->
          cell out' ((h * (W - J + 1) + x) * K + k)
          = conv_sum hin hwt W I J C K h x k).
Proof.
  intros HI HJ HC HK Lin Lwt Lout Fin Fwt Fout Hfuel Hok Ein Ewt Eout.
  destruct (GpuHostFacts.gpu_conv2d_ok e fuel H W I J C K HI HJ HC HK Fin Fwt Fout
              Hfuel w pin pwt pout hin hwt hout Hok Ein Ewt Eout Lin Lwt Lout)
    as (w' & out' & E & Hh & L & G & _).
  destruct (SeqFacts.conv2d_processed hin hwt H W I J C K fuel
              HI HJ HC HK Lin Lwt Fin Fwt Fout Hfuel
              {| output := hout; trace := [] |} Lout)
    as (s' & Es & Ls & Vs & _).
  exists w', out', s'. split; [exact E|]. split.
  { rewrite Hh. eapply nth_error_update. exact Eout. }
  split; [exact Es|]. split; [congruence|]. split; [|exact G].
  intros idx Hidx.
  destruct (flat3_decode idx (H - I + 1) (W - J + 1) K) as (h & x & k & Hh' & Hx & Hk & ->);
    try lia.
  rewrite G by auto. symmetry. apply Vs; auto. lia.
Qed.

Lemma cuda_conv2d_matches_sequential_witness :
  exists w' out' s',
    Gpu.conv2d env_ok 3 0 1 2 3 3 2 2 1 1 (host3 image3 filter2 (filled 4 Binary32.nan))
    = Done tt w'
    /\ nth_error (host w') 2 = Some out'
    /\ Seq.conv2d 3 image3 filter2 3 3 2 2 1 1
         {| output := filled 4 Binary32.nan; trace := [] |} = Done tt s'
    /\ len out' = len (output s')
    /\ (forall idx, 0 <= idx < (3 - 2 + 1) * (3 - 2 + 1) * 1 ->
          cell out' idx = cell (output s') idx)
    /\ (forall h x k, 0 <= h < 3 - 2 + 1 -> 0 <= x < 3 - 2 + 1 -> 0 <= k < 1 ->
          cell out' ((h * (3 - 2 + 1) + x) * 1 + k)
          = conv_sum image3 filter2 3 2 2 1 1 h x k).
Proof.
  apply (cuda_conv2d_matches_sequential env_ok
           (host3 image3 filter2 (filled 4 Binary32.nan)) 0 1 2
           image3 filter2 (filled 4 Binary32.nan) 3 3 2 2 1 1 3);
    try reflexivity; try (unfold Int.max_int; lia);
    try (vm_compute; lia); intros i _; reflexivity.
Defined.

(** C5 as stated fails when a runtime call fails: the host function
    inspects no status, so when the copy back to the host (the sixth call)
    returns an error it still returns normally, and the host output keeps
    its old contents, here NaNs, where the sequential [conv2d] has stored
    the sums (3.0f in element 0). *)
Lemma cuda_conv2d_ignores_failed_copy :
  ~ exists w' out' s',
      Gpu.conv2d (env_failing 5) 3 0 1 2 3 3 2 2 1 1
        (host3 image3 filter2 (filled 4 Binary32.nan)) = Done tt w'
      /\ nth_error (host w') 2 = Some out'
      /\ Seq.conv2d 3 image3 filter2 3 3 2 2 1 1
           {| output := filled 4 Binary32.nan; trace := [] |} = Done tt s'
      /\ forall idx, 0 <= idx < (3 - 2 + 1) * (3 - 2 + 1) * 1 ->
           cell out' idx = cell (output s') idx.
Proof.
  intros (w' & out' & s' & E & Eo & Es & Heq).
  assert (Rg :
    match Gpu.conv2d (env_failing 5) 3 0 1 2 3 3 2 2 1 1
            (host3 image3 filter2 (filled 4 Binary32.nan)) with
    | Done _ w1 =>
        match nth_error (host w1) 2 with
        | Some o => cell o 0 = Binary32.nan
        | None => False
        end
    | _ => False
    end) by (vm_compute; reflexivity).
  assert (Rs :
    match Seq.conv2d 3 image3 filter2 3 3 2 2 1 1
            {| output := filled 4 Binary32.nan; trace := [] |} with
    | Done _ s1 => cell (output s1) 0 = S754_finite false 12582912 (-22)
    | _ => False
    end) by (vm_compute; reflexivity).
  rewrite E in Rg. rewrite Eo in Rg. rewrite Es in Rs.
  specialize (Heq 0 ltac:(lia)). rewrite Rg, Rs in Heq. discriminate Heq.
Qed.

(** The bounds of C5 are needed as well: at the sizes H = W = I = J = 1,
    C = 3, K = 2^30 the product I*J*C*K overflows [int], the size of the
    weight copy is wrong and the host function stops at it. *)
Example cuda_conv2d_size_overflow fuel :
  Gpu.conv2d env_ok fuel 0 1 2 1 1 1 1 3 1073741824
    (host3 (filled 3 Binary32.one) (filled 3221225472 Binary32.one)
       (filled 1073741824 Binary32.zero))
  = Fault.
Proof. vm_compute. reflexivity. Qed.

(** ** Sequential and parallel execution *)

(** C7, amended. The gem5 convolution is sequential: whatever its
    arguments, a completed run of its [conv2d] records array reads and
    writes only (no launch, no barrier, no runtime call). The GPGPU-Sim
    convolution is not: for sizes in the range of C5, host buffers of these
    sizes and nine successful runtime calls, its host function launches
    [conv2d_kernel] exactly once, on a grid of ceil(Wo/16) x ceil(Ho/16) x K
    blocks of 16 x 16 x 1 threads; the threads of this grid store every
    output element exactly once, and nothing anywhere else. *)
Theorem convolution_sequential_on_gem5_only {F : Type} {FO : FloatOps F} :
  (forall fuel (input weight : buffer F) H W I J C K s s',
     Seq.conv2d fuel input weight H W I J C K s = Done tt s' ->
     exists evs,
       trace s' = evs ++ trace s
       /\ Forall is_access evs
       /\ launches evs = [])
  /\ (forall (e : @env F) (w : @world F) pin pwt pout hin hwt hout
             H W I J C K fuel,
        1 <= I <= H -> 1 <= J <= W -> 1 <= C -> 1 <= K ->
        len hin = H * W * C ->
        len hwt = I * J * C * K ->
        len hout = (H - I + 1) * (W - J + 1) * K ->
        H * W * C <= Int.max_int ->
        I * J * C * K <= Int.max_int ->
        (H - I + 1) * (W - J + 1) * K <= Int.max_int ->
        (Seq.conv2d_fuel H W I J C K <= fuel)%nat ->
        (forall i, (ncalls w <= i < ncalls w + 9)%nat ->
           api_status e i = cudaSuccess) ->
        nth_error (host w) pin = Some hin ->
        nth_error (host w) pwt = Some hwt ->
        nth_error (host w) pout = Some hout ->
        exists w',
          Gpu.conv2d e fuel pin pwt pout H W I J C K w = Done tt w'
          /\ launches (events w')
             = Launch {| dx := (W - J + 1 + 15) / 16;
                         dy := (H - I + 1 + 15) / 16;
                         dz := K |}
                      {| dx := 16; dy := 16; dz := 1 |}
               :: launches (events w))
  /\ (forall (input weight out0 : buffer F) H W I J C K fuel,
        1 <= I <= H -> 1 <= J <= W -> 1 <= C -> 1 <= K ->
        len input = H * W * C ->
        len weight = I * J * C * K ->
        len out0 = (H - I + 1) * (W - J + 1) * K ->
        H * W * C <= Int.max_int ->
        I * J * C * K <= Int.max_int ->
        (H - I + 1) * (W - J + 1) * K <= Int.max_int ->
        (Seq.conv2d_fuel H W I J C K <= fuel)%nat ->
        exists s',
          conv2d_kernel_threads fuel input weight H W I J C K
            {| dx := (W - J + 1 + 15) / 16;
               dy := (H - I + 1 + 15) / 16;
               dz := K |}
            {| dx := 16; dy := 16; dz := 1 |}
            {| output := out0; trace := [] |} = Done tt s'
          /\ forall idx,
               count_events (writes_to idx) (trace s')
               = if (0 <=? idx) && (idx <? (H - I + 1) * (W - J + 1) * K)
                 then 1 else 0).
Proof.
  split; [|split].
  - intros fuel input weight H W I J C K s s' E.
    destruct (seq_conv2d_accesses input weight fuel H W I J C K s s' E)
      as (evs & Etr & Hacc).
    exists evs. split; [exact Etr|]. split; [exact Hacc|].
    apply accesses_launch_nothing. exact Hacc.
  - intros e w pin pwt pout hin hwt hout H W I J C K fuel HI HJ HC HK
      Lin Lwt Lout Fin Fwt Fout Hfuel Hok Ein Ewt Eout.
    destruct (GpuHostFacts.gpu_conv2d_ok e fuel H W I J C K HI HJ HC HK Fin Fwt
                Fout Hfuel w pin pwt pout hin hwt hout Hok Ein Ewt Eout Lin Lwt Lout)
      as (w' & out' & E & _ & _ & _ & HL & _).
    destruct (GpuHostFacts.sizes_id fuel H W I J C K HI HJ HC HK Fin Fwt Fout Hfuel)
      as (_ & _ & EHo & EWo & _).
    pose proof (SeqFacts.gpu_grid_id H W I J C K fuel HI HJ HC HK Fin Fwt Fout
                  Hfuel) as Hg.
    rewrite EHo, EWo in Hg. unfold tiles in Hg.
    exists w'. split; [exact E|]. rewrite HL, Hg. reflexivity.
  - intros input weight out0 H W I J C K fuel HI HJ HC HK Lin Lwt Lout
      Fin Fwt Fout Hfuel.
    destruct (SeqFacts.gpu_grid_ok input weight H W I J C K fuel
                HI HJ HC HK Lin Lwt Fin Fwt Fout Hfuel
                {| output := out0; trace := [] |} Lout) as (s' & E & _).
    destruct (GpuHostFacts.sizes_id fuel H W I J C K HI HJ HC HK Fin Fwt Fout Hfuel)
      as (_ & _ & EHo & EWo & _).
    pose proof (SeqFacts.gpu_grid_id H W I J C K fuel HI HJ HC HK Fin Fwt Fout
                  Hfuel) as Hg.
    pose proof (grid_adds input weight H W I J C K fuel HI HJ HC HK Fin Fwt Fout
                  Hfuel) as Ha.
    rewrite EHo, EWo in E, Hg. rewrite Hg in Ha. unfold tiles in Hg, Ha.
    rewrite Hg in E.
    exists s'. split; [exact E|].
    intros idx. rewrite (Ha idx _ tt s' E). reflexivity.
Qed.

Lemma convolution_sequential_on_gem5_only_witness :
  (exists s' evs,
     Seq.conv2d 3 image3 filter2 3 3 2 2 1 1
       {| output := filled 4 Binary32.nan; trace := [] |} = Done tt s'
     /\ trace s' = evs ++ []
     /\ Forall is_access evs
     /\ launches evs = [])
  /\ (exists w',
        Gpu.conv2d env_ok 3 0 1 2 3 3 2 2 1 1
          (host3 image3 filter2 (filled 4 Binary32.nan)) = Done tt w'
        /\ launches (events w')
           = Launch {| dx := (3 - 2 + 1 + 15) / 16;
                       dy := (3 - 2 + 1 + 15) / 16;
                       dz := 1 |}
                    {| dx := 16; dy := 16; dz := 1 |}
             :: launches (events (host3 image3 filter2 (filled 4 Binary32.nan))))
  /\ (exists s',
        conv2d_kernel_threads 3 image3 filter2 3 3 2 2 1 1
          {| dx := (3 - 2 + 1 + 15) / 16;
             dy := (3 - 2 + 1 + 15) / 16;
             dz := 1 |}
          {| dx := 16; dy := 16; dz := 1 |}
          {| output := filled 4 Binary32.nan; trace := [] |} = Done tt s'
        /\ forall idx,
             count_events (writes_to idx) (trace s')
             = if (0 <=? idx) && (idx <? (3 - 2 + 1) * (3 - 2 + 1) * 1)
               then 1 else 0).
Proof.
  destruct (@convolution_sequential_on_gem5_only Binary32.float _)
    as (Hseq & Hlaunch & Hthreads).
  split; [|split].
  - assert (R :
      match Seq.conv2d 3 image3 filter2 3 3 2 2 1 1
              {| output := filled 4 Binary32.nan; trace := [] |} with
      | Done _ _ => True
      | _ => False
      end) by (vm_compute; exact I).
    destruct (Seq.conv2d 3 image3 filter2 3 3 2 2 1 1
                {| output := filled 4 Binary32.nan; trace := [] |})
      as [[] s'| | |] eqn:E; try contradiction.
    destruct (Hseq _ _ _ _ _ _ _ _ _ _ _ E) as (evs & Etr & Hacc & Hl).
    exists s', evs. split; [reflexivity|]. split; [exact Etr|].
    split; [exact Hacc | exact Hl].
  - apply (Hlaunch env_ok (host3 image3 filter2 (filled 4 Binary32.nan))
             0%nat 1%nat 2%nat image3 filter2 (filled 4 Binary32.nan)
             3 3 2 2 1 1 3%nat);
      try reflexivity; try (unfold Int.max_int; lia);
      try (vm_compute; lia); intros i _; reflexivity.
  - apply (Hthreads image3 filter2 (filled 4 Binary32.nan) 3 3 2 2 1 1 3%nat);
      try reflexivity; try (unfold Int.max_int; lia); vm_compute; lia.
Defined.

(** C7 as stated fails for the GPGPU-Sim convolution: on a 3x3 image its
    host function launches a kernel, one block of 256 threads. *)
Lemma cuda_conv2d_launches_a_kernel :
  ~ forall w',
      Gpu.conv2d env_ok 3 0 1 2 3 3 2 2 1 1
        (host3 image3 filter2 (filled 4 Binary32.nan)) = Done tt w' ->
      launches (events w') = [].
Proof.
  intros Hnone.
  assert (R :
    match Gpu.conv2d env_ok 3 0 1 2 3 3 2 2 1 1
            (host3 image3 filter2 (filled 4 Binary32.nan)) with
    | Done _ w' =>
        launches (events w')
        = [Launch {| dx := 1; dy := 1; dz := 1 |} {| dx := 16; dy := 16; dz := 1 |}]
    | _ => False
    end) by (vm_compute; reflexivity).
  destruct (Gpu.conv2d env_ok 3 0 1 2 3 3 2 2 1 1
              (host3 image3 filter2 (filled 4 Binary32.nan)))
    as [[] w'| | |]; try contradiction.
  specialize (Hnone w' eq_refl). rewrite Hnone in R. discriminate R.
Qed.

(* ================================================================= *)
(** * Further properties of the programs *)

(** ** The sequential convolution *)

(** X1. For sizes in the range of C1, the sequential [conv2d] writes the
    output in row-major order: the indices it stores to are 0, 1, ...,
    Ho*Wo*K - 1, in this order and each once. *)
Theorem conv2d_writes_in_order {F : Type} {FO : FloatOps F}
    (input weight out0 : buffer F) (H W I J C K : Z) (fuel : nat) :
  1 <= I <= H -> 1 <= J <= W -> 1 <= C -> 1 <= K ->
  len input = H * W * C ->
  len weight = I * J * C * K ->
  len out0 = (H - I + 1) * (W - J + 1) * K ->
  H * W * C <= Int.max_int ->
  I * J * C * K <= Int.max_int ->
  (H - I + 1) * (W - J + 1) * K <= Int.max_int ->
  (Seq.conv2d_fuel H W I J C K <= fuel)%nat ->
  exists s',
    Seq.conv2d fuel input weight H W I J C K {| output := out0; trace := [] |}
    = Done tt s'
    /\ writes (trace s') = zrange 0 ((H - I + 1) * (W - J + 1) * K).
Proof.
  intros HI HJ HC HK Lin Lwt Lout Fin Fwt Fout Hfuel.
  destruct (SeqFacts.conv2d_processed input weight H W I J C K fuel
              HI HJ HC HK Lin Lwt Fin Fwt Fout Hfuel
              {| output := out0; trace := [] |} Lout)
    as (s' & E & _ & _ & evs & Etr & _ & Hwr).
  simpl in Etr. rewrite app_nil_r in Etr. subst evs.
  exists s'. split; [exact E | exact Hwr].
Qed.

Lemma conv2d_writes_in_order_witness :
  exists s',
    Seq.conv2d 3 image3 filter2 3 3 2 2 1 1
      {| output := filled 4 Binary32.nan; trace := [] |} = Done tt s'
    /\ writes (trace s') = zrange 0 ((3 - 2 + 1) * (3 - 2 + 1) * 1).
Proof.
  apply (conv2d_writes_in_order image3 filter2 (filled 4 Binary32.nan) 3 3 2 2 1 1 3);
    try reflexivity; try (unfold Int.max_int; lia); vm_compute; lia.
Defined.

(** X2. For sizes in the range of C1, a run of the sequential [conv2d]
    reads [input] and [weight] Ho*Wo*K*I*J*C times each, one pair of reads
    per multiply-accumulate, and writes [output] Ho*Wo*K times; it never
    reads [output]. *)
Theorem conv2d_access_count {F : Type} {FO : FloatOps F}
    (input weight out0 : buffer F) (H W I J C K : Z) (fuel : nat) :
  1 <= I <= H -> 1 <= J <= W -> 1 <= C -> 1 <= K ->
  len input = H * W * C ->
  len weight = I * J * C * K ->
  len out0 = (H - I + 1) * (W - J + 1) * K ->
  H * W * C <= Int.max_int ->
  I * J * C * K <= Int.max_int ->
  (H - I + 1) * (W - J + 1) * K <= Int.max_int ->
  (Seq.conv2d_fuel H W I J C K <= fuel)%nat ->
  exists s',
    Seq.conv2d fuel input weight H W I J C K {| output := out0; trace := [] |}
    = Done tt s'
    /\ count_events (is_read Input) (trace s')
       = (H - I + 1) * (W - J + 1) * K * (I * J * C)
    /\ count_events (is_read Weight) (trace s')
       = (H - I + 1) * (W - J + 1) * K * (I * J * C)
    /\ count_events (is_read Output) (trace s') = 0
    /\ count_events is_write (trace s') = (H - I + 1) * (W - J + 1) * K.
Proof.
  intros HI HJ HC HK Lin Lwt Lout Fin Fwt Fout Hfuel.
  destruct (SeqFacts.conv2d_processed input weight H W I J C K fuel
              HI HJ HC HK Lin Lwt Fin Fwt Fout Hfuel
              {| output := out0; trace := [] |} Lout) as (s' & E & _).
  destruct (SeqFacts.facts H W I J C K HI HJ HC HK Fin Fwt Fout)
    as (PHo & PWo & _ & _ & RI & RJ & RC & RK & _).
  destruct (GpuHostFacts.sizes_id fuel H W I J C K HI HJ HC HK Fin Fwt Fout Hfuel)
    as (_ & _ & EHo & EWo & _).
  assert (G : forall (p : event -> bool) rin rwt wout,
             (forall idx, (if p (Rd Input idx) then 1 else 0) = rin) ->
             (forall idx, (if p (Rd Weight idx) then 1 else 0) = rwt) ->
             (forall idx, (if p (Wr Output idx) then 1 else 0) = wout) ->
             count_events p (trace s')
             = (H - I + 1) * ((W - J + 1) * (K * (I * (J * (C * (rin + (rwt + 0)))) + wout)))).
  { intros p rin rwt wout Hin Hwt Hout.
    rewrite (adds_conv2d p fuel input weight H W I J C K rin rwt wout
               Hin Hwt Hout RI RJ RC RK _ _ _ E).
    rewrite EHo, EWo. cbn [trace]. unfold count_events. simpl filter. simpl length.
    rewrite !Z.sub_0_r. rewrite !Z.max_r by lia. ring. }
  exists s'. split; [exact E|].
  rewrite (G (is_read Input) 1 0 0), (G (is_read Weight) 0 1 0),
    (G (is_read Output) 0 0 0), (G is_write 0 0 1) by reflexivity.
  repeat split; ring.
Qed.

Lemma conv2d_access_count_witness :
  exists s',
    Seq.conv2d 3 image3 filter2 3 3 2 2 1 1
      {| output := filled 4 Binary32.nan; trace := [] |} = Done tt s'
    /\ count_events (is_read Input) (trace s')
       = (3 - 2 + 1) * (3 - 2 + 1) * 1 * (2 * 2 * 1)
    /\ count_events (is_read Weight) (trace s')
       = (3 - 2 + 1) * (3 - 2 + 1) * 1 * (2 * 2 * 1)
    /\ count_events (is_read Output) (trace s') = 0
    /\ count_events is_write (trace s') = (3 - 2 + 1) * (3 - 2 + 1) * 1.
Proof.
  apply (conv2d_access_count image3 filter2 (filled 4 Binary32.nan) 3 3 2 2 1 1 3);
    try reflexivity; try (unfold Int.max_int; lia); vm_compute; lia.
Defined.

(** X3. When the filter (I, J >= 1) is larger than the image (H < I or
    W < J) or there is no output channel (K <= 0), the sequential [conv2d]
    returns without any array access: output and trace are untouched. *)
Theorem conv2d_empty_output {F : Type} {FO : FloatOps F}
    (input weight : buffer F) (H W I J C K : Z) (fuel : nat) (s : @state F) :
  0 <= H <= Int.max_int -> 0 <= W <= Int.max_int ->
  1 <= I <= Int.max_int -> 1 <= J <= Int.max_int ->
  Int.in_range K ->
  H < I \/ W < J \/ K <= 0 ->
  (Seq.conv2d_fuel H W I J C K <= fuel)%nat ->
  Seq.conv2d fuel input weight H W I J C K s = Done tt s.
Proof.
  intros RH RW RI RJ RK Hempty Hfuel.
  assert (EHo : H -i I +i 1 = H - I + 1).
  { rewrite (sub_id H I), add_id;
      unfold Int.in_range, Int.min_int, Int.max_int in *; lia. }
  assert (EWo : W -i J +i 1 = W - J + 1).
  { rewrite (sub_id W J), add_id;
      unfold Int.in_range, Int.min_int, Int.max_int in *; lia. }
  unfold Seq.conv2d_fuel in Hfuel. rewrite EHo, EWo in Hfuel.
  unfold Seq.conv2d. cbv zeta. rewrite EHo, EWo.
  assert (R0 : Int.min_int <= 0) by (unfold Int.min_int; lia).
  destruct RK as [_ RK].
  apply for_skip; auto; try (unfold Int.max_int in *; lia).
  intros h Hh. apply for_skip; auto; try (unfold Int.max_int in *; lia).
  intros w Hw. apply for_empty. lia.
Qed.

Lemma conv2d_empty_output_witness :
  Seq.conv2d 4 image3 filter2 3 3 4 2 1 1
    {| output := filled 4 Binary32.nan; trace := [] |}
  = Done tt {| output := filled 4 Binary32.nan; trace := [] |}.
Proof.
  apply (conv2d_empty_output image3 filter2 3 3 4 2 1 1 4);
    try (unfold Int.in_range, Int.min_int, Int.max_int; lia).
  vm_compute. lia.
Defined.

(** X4. When the output is not empty (Ho, Wo, K >= 1, Ho*Wo*K at most
    INT_MAX) but there is nothing to add up (I <= 0, J <= 0 or C <= 0), the
    sequential [conv2d] completes and stores [0.0f] in every output
    element. *)
Theorem conv2d_no_terms_gives_zero {F : Type} {FO : FloatOps F}
    (input weight out0 : buffer F) (H W I J C K : Z) (fuel : nat) :
  1 <= H - I + 1 -> 1 <= W - J + 1 -> 1 <= K ->
  (H - I + 1) * (W - J + 1) * K <= Int.max_int ->
  Int.in_range I -> Int.in_range J ->
  I <= 0 \/ J <= 0 \/ C <= 0 ->
  len out0 = (H - I + 1) * (W - J + 1) * K ->
  (Seq.conv2d_fuel H W I J C K <= fuel)%nat ->
  exists s',
    Seq.conv2d fuel input weight H W I J C K {| output := out0; trace := [] |}
    = Done tt s'
    /\ len (output s') = (H - I + 1) * (W - J + 1) * K
    /\ forall idx, 0 <= idx < (H - I + 1) * (W - J + 1) * K ->
         cell (output s') idx = fzero.
Proof.
  intros HHo HWo HK Fout RI RJ Hnone Lout Hfuel.
  destruct (no_terms_run input weight H W I J C K fuel HHo HWo HK Fout RI RJ
              Hnone Hfuel {| output := out0; trace := [] |} Lout)
    as (s' & E & L & Z0).
  exists s'. split; [exact E|]. split; [exact L | exact Z0].
Qed.

Lemma conv2d_no_terms_gives_zero_witness :
  exists s',
    Seq.conv2d 3 (filled 0 Binary32.one) (filled 0 Binary32.one) 3 3 2 2 0 1
      {| output := filled 4 Binary32.nan; trace := [] |} = Done tt s'
    /\ len (output s') = (3 - 2 + 1) * (3 - 2 + 1) * 1
    /\ forall idx, 0 <= idx < (3 - 2 + 1) * (3 - 2 + 1) * 1 ->
         cell (output s') idx = fzero.
Proof.
  apply (conv2d_no_terms_gives_zero (filled 0 Binary32.one) (filled 0 Binary32.one)
           (filled 4 Binary32.nan) 3 3 2 2 0 1 3);
    try reflexivity; try (unfold Int.in_range, Int.min_int, Int.max_int; lia);
    vm_compute; lia.
Defined.


(** X5. For sizes in the range of C1, the sequential [conv2d] reads the
    last element of [input] and of [weight] and writes the last element of
    [output]: a run can complete only on buffers of at least H*W*C,
    I*J*C*K and Ho*Wo*K elements; on a shorter one it runs past the end. *)
Theorem conv2d_needs_full_buffers {F : Type} {FO : FloatOps F}
    (input weight out0 : buffer F) (H W I J C K : Z) (fuel : nat)
    (s' : @state F) :
  1 <= I <= H -> 1 <= J <= W -> 1 <= C -> 1 <= K ->
  H * W * C <= Int.max_int ->
  I * J * C * K <= Int.max_int ->
  (H - I + 1) * (W - J + 1) * K <= Int.max_int ->
  Seq.conv2d fuel input weight H W I J C K {| output := out0; trace := [] |}
  = Done tt s' ->
  H * W * C <= len input
  /\ I * J * C * K <= len weight
  /\ (H - I + 1) * (W - J + 1) * K <= len out0.
Proof.
  intros HI HJ HC HK Fin Fwt Fout E.
  destruct (conv2d_touches_last input weight H W I J C K HI HJ HC HK Fin Fwt Fout
              fuel _ _ E) as (Tin & Twt & Tout).
  destruct (emits_conv2d input weight fuel H W I J C K _ _ _ E)
    as (_ & evs & Etr & Hall).
  cbn [trace output] in Etr, Hall. rewrite app_nil_r in Etr. subst evs.
  rewrite Forall_forall in Hall.
  pose proof (Hall _ Tin) as Bin. pose proof (Hall _ Twt) as Bwt.
  pose proof (Hall _ Tout) as Bout. cbn [access_ok] in Bin, Bwt, Bout.
  repeat split; lia.
Qed.

Lemma conv2d_needs_full_buffers_witness :
  exists s',
    Seq.conv2d 3 image3 filter2 3 3 2 2 1 1
      {| output := filled 4 Binary32.nan; trace := [] |} = Done tt s'
    /\ 3 * 3 * 1 <= len image3
    /\ 2 * 2 * 1 * 1 <= len filter2
    /\ (3 - 2 + 1) * (3 - 2 + 1) * 1 <= len (filled 4 Binary32.nan).
Proof.
  assert (R :
    match Seq.conv2d 3 image3 filter2 3 3 2 2 1 1
            {| output := filled 4 Binary32.nan; trace := [] |} with
    | Done _ _ => True
    | _ => False
    end) by (vm_compute; exact I).
  destruct (Seq.conv2d 3 image3 filter2 3 3 2 2 1 1
              {| output := filled 4 Binary32.nan; trace := [] |})
    as [[] s'| | |] eqn:E; try contradiction.
  exists s'. split; [reflexivity|].
  apply (conv2d_needs_full_buffers image3 filter2 (filled 4 Binary32.nan)
           3 3 2 2 1 1 3 s'); try (unfold Int.max_int; lia).
  exact E.
Defined.

(** ** The CUDA convolution *)

(** X6. The CUDA host function [conv2d] writes to host memory through its
    [output] argument only: whatever the runtime calls return, when it
    returns every other host allocation, [input] and [weight] among them,
    holds what it held, and no host allocation has been added. *)
Theorem cuda_conv2d_host_frame {F : Type} {FO : FloatOps F}
    (e : @Host.env F) (fuel : nat) (input weight output : nat)
    (H W I J C K : Z) (w w' : @Host.world F) :
  Gpu.conv2d e fuel input weight output H W I J C K w = Done tt w' ->
  length (Host.host w') = length (Host.host w)
  /\ forall q, q <> output ->
       nth_error (Host.host w') q = nth_error (Host.host w) q.
Proof.
  intros E.
  pose proof (keeps_gpu_conv2d output e fuel input weight H W I J C K w) as Hk.
  rewrite E in Hk. exact Hk.
Qed.

Lemma cuda_conv2d_host_frame_witness :
  exists w',
    Gpu.conv2d env_ok 3 0 1 2 3 3 2 2 1 1
      (host3 image3 filter2 (filled 4 Binary32.nan)) = Done tt w'
    /\ length (Host.host w')
       = length (Host.host (host3 image3 filter2 (filled 4 Binary32.nan)))
    /\ forall q, q <> 2%nat ->
         nth_error (Host.host w') q
         = nth_error (Host.host (host3 image3 filter2 (filled 4 Binary32.nan))) q.
Proof.
  assert (R :
    match Gpu.conv2d env_ok 3 0 1 2 3 3 2 2 1 1
            (host3 image3 filter2 (filled 4 Binary32.nan)) with
    | Done _ _ => True
    | _ => False
    end) by (vm_compute; exact I).
  destruct (Gpu.conv2d env_ok 3 0 1 2 3 3 2 2 1 1
              (host3 image3 filter2 (filled 4 Binary32.nan)))
    as [[] w'| | |] eqn:E; try contradiction.
  exists w'. split; [reflexivity|].
  exact (cuda_conv2d_host_frame env_ok 3 0 1 2 3 3 2 2 1 1 _ w' E).
Defined.
(** X7. The CUDA host function [conv2d] does not notice a failed
    allocation: when one of its three [cudaMalloc] calls fails it goes on
    and uses the device pointer that was never assigned, in a copy or in
    the kernel launch, whatever the other calls return. *)
Theorem cuda_conv2d_failed_malloc_faults {F : Type} {FO : FloatOps F}
    (e : @Host.env F) (fuel : nat) (input weight output : nat)
    (H W I J C K : Z) (w : @Host.world F) :
  (exists i, (i < 3)%nat
             /\ Host.api_status e (Host.ncalls w + i) = cudaFailure) ->
  Gpu.conv2d e fuel input weight output H W I J C K w = Fault.
Proof.
  intros (i & Hi & Hfail). unfold Gpu.conv2d. cbv zeta.
  set (in_size := Size.mul (Size.of_int (H *i W *i C)) Size.sizeof_float).
  set (wt_size := Size.mul (Size.of_int (I *i J *i C *i K)) Size.sizeof_float).
  set (out_size := Size.mul (Size.of_int ((H -i I +i 1) *i (W -i J +i 1) *i K))
                     Size.sizeof_float).
  destruct (malloc_cases e in_size w) as (p1 & w1 & E1 & N1 & F1).
  rewrite (bind_done _ _ _ _ _ E1). cbn [snd].
  destruct (malloc_cases e wt_size w1) as (p2 & w2 & E2 & N2 & F2).
  rewrite (bind_done _ _ _ _ _ E2). cbn [snd].
  destruct (malloc_cases e out_size w2) as (p3 & w3 & E3 & N3 & F3).
  rewrite (bind_done _ _ _ _ _ E3). cbn [snd].
  assert (Hnone : p1 = None \/ p2 = None \/ p3 = None).
  { destruct i as [|[|[|i]]]; [| | |lia].
    - left. apply F1. rewrite <- Hfail. f_equal. lia.
    - right. left. apply F2. rewrite <- Hfail. f_equal. lia.
    - right. right. apply F3. rewrite <- Hfail. f_equal. lia. }
  destruct (h2d_cases e p1 input in_size w3) as [E4 | (st4 & w4 & E4 & _)];
    [unfold bind at 1; rewrite E4; reflexivity|].
  rewrite (bind_done _ _ _ _ _ E4).
  destruct (h2d_cases e p2 weight wt_size w4) as [E5 | (st5 & w5 & E5 & _)];
    [unfold bind at 1; rewrite E5; reflexivity|].
  rewrite (bind_done _ _ _ _ _ E5).
  unfold bind at 1.
  rewrite (gpu_launch_unassigned fuel _ _ p1 p2 p3 H W I J C K w5 Hnone).
  reflexivity.
Qed.

Lemma cuda_conv2d_failed_malloc_faults_witness :
  Gpu.conv2d (env_failing 1) 3 0 1 2 3 3 2 2 1 1
    (host3 image3 filter2 (filled 4 Binary32.nan)) = Fault.
Proof.
  apply (cuda_conv2d_failed_malloc_faults (env_failing 1) 3 0 1 2 3 3 2 2 1 1
           (host3 image3 filter2 (filled 4 Binary32.nan))).
  exists 1%nat. split; [lia | reflexivity].
Defined.

(** X8. When its three allocations and its two copies to the device
    succeed (sizes in the range of C5), the CUDA host function [conv2d]
    returns after nine runtime calls and one launch, whatever the last
    four calls return. The host output holds the convolution if the copy
    back (the sixth call) succeeded and is left as it was if that copy
    failed: the failure goes unreported. *)
Theorem cuda_conv2d_result_by_copy_status {F : Type} {FO : FloatOps F}
    (e : @Host.env F) (w : @Host.world F) (pin pwt pout : nat)
    (hin hwt hout : buffer F) (H W I J C K : Z) (fuel : nat) :
  1 <= I <= H -> 1 <= J <= W -> 1 <= C -> 1 <= K ->
  len hin = H * W * C ->
  len hwt = I * J * C * K ->
  len hout = (H - I + 1) * (W - J + 1) * K ->
  H * W * C <= Int.max_int ->
  I * J * C * K <= Int.max_int ->
  (H - I + 1) * (W - J + 1) * K <= Int.max_int ->
  (Seq.conv2d_fuel H W I J C K <= fuel)%nat ->
  (forall i, (Host.ncalls w <= i < Host.ncalls w + 5)%nat ->
     Host.api_status e i = cudaSuccess) ->
  nth_error (Host.host w) pin = Some hin ->
  nth_error (Host.host w) pwt = Some hwt ->
  nth_error (Host.host w) pout = Some hout ->
  exists w' out',
    Gpu.conv2d e fuel pin pwt pout H W I J C K w = Done tt w'
    /\ Host.ncalls w' = (Host.ncalls w + 9)%nat
    /\ Host.launches (Host.events w')
       = Launch (Gpu.grid_of (H - I + 1) (W - J + 1) K Gpu.block16) Gpu.block16
         :: Host.launches (Host.events w)
    /\ len out' = len hout
    /\ (forall h x k, 0 <= h < H - I + 1 -> 0 <= x < W - J + 1 -> 0 <= k < K ->
          cell out' ((h * (W - J + 1) + x) * K + k)
          = conv_sum hin hwt W I J C K h x k)
    /\ Host.host w'
       = match Host.api_status e (Host.ncalls w + 5) with
         | cudaSuccess => Host.update pout out' (Host.host w)
         | cudaFailure => Host.host w
         end.
Proof.
  intros HI HJ HC HK Lin Lwt Lout Fin Fwt Fout Hfuel Hok Ein Ewt Eout.
  destruct (gpu_conv2d_run e fuel H W I J C K HI HJ HC HK Fin Fwt Fout Hfuel
              w pin pwt pout hin hwt hout Hok Ein Ewt Eout Lin Lwt Lout)
    as (w' & out' & E & Hh & L & G & HL & N).
  exists w', out'. repeat split; auto.
Qed.

Lemma cuda_conv2d_result_by_copy_status_witness :
  exists w' out',
    Gpu.conv2d (env_failing 5) 3 0 1 2 3 3 2 2 1 1
      (host3 image3 filter2 (filled 4 Binary32.nan)) = Done tt w'
    /\ Host.ncalls w'
       = (Host.ncalls (host3 image3 filter2 (filled 4 Binary32.nan)) + 9)%nat
    /\ Host.launches (Host.events w')
       = Launch (Gpu.grid_of (3 - 2 + 1) (3 - 2 + 1) 1 Gpu.block16) Gpu.block16
         :: Host.launches
              (Host.events (host3 image3 filter2 (filled 4 Binary32.nan)))
    /\ len out' = len (filled 4 Binary32.nan)
    /\ (forall h x k, 0 <= h < 3 - 2 + 1 -> 0 <= x < 3 - 2 + 1 -> 0 <= k < 1 ->
          cell out' ((h * (3 - 2 + 1) + x) * 1 + k)
          = conv_sum image3 filter2 3 2 2 1 1 h x k)
    /\ Host.host w'
       = match Host.api_status (env_failing 5)
                 (Host.ncalls (host3 image3 filter2 (filled 4 Binary32.nan)) + 5) with
         | cudaSuccess =>
             Host.update 2 out'
               (Host.host (host3 image3 filter2 (filled 4 Binary32.nan)))
         | cudaFailure => Host.host (host3 image3 filter2 (filled 4 Binary32.nan))
         end.
Proof.
  apply (cuda_conv2d_result_by_copy_status (env_failing 5)
           (host3 image3 filter2 (filled 4 Binary32.nan)) 0 1 2
           image3 filter2 (filled 4 Binary32.nan) 3 3 2 2 1 1 3);
    try reflexivity; try (unfold Int.max_int; lia); try (vm_compute; lia).
  intros i Hi. cbn in Hi. unfold env_failing. cbn [Host.api_status].
  destruct (Nat.eqb_spec i 5); [lia | reflexivity].
Defined.

(** X9. In a launch of [conv2d_kernel] on the grid and block of the host
    function (sizes in the range of C5), every output element is stored to
    by the threads exactly once and nothing is stored outside the output:
    no two threads write the same element. *)
Theorem cuda_conv2d_threads_write_once {F : Type} {FO : FloatOps F}
    (input weight out0 : buffer F) (H W I J C K : Z) (fuel : nat) :
  1 <= I <= H -> 1 <= J <= W -> 1 <= C -> 1 <= K ->
  len input = H * W * C ->
  len weight = I * J * C * K ->
  len out0 = (H - I + 1) * (W - J + 1) * K ->
  H * W * C <= Int.max_int ->
  I * J * C * K <= Int.max_int ->
  (H - I + 1) * (W - J + 1) * K <= Int.max_int ->
  (Seq.conv2d_fuel H W I J C K <= fuel)%nat ->
  exists s',
    conv2d_kernel_threads fuel input weight H W I J C K
      (Gpu.grid_of (H - I + 1) (W - J + 1) K Gpu.block16) Gpu.block16
      {| output := out0; trace := [] |} = Done tt s'
    /\ forall idx,
         count_events (writes_to idx) (trace s')
         = if (0 <=? idx) && (idx <? (H - I + 1) * (W - J + 1) * K) then 1 else 0.
Proof.
  intros HI HJ HC HK Lin Lwt Lout Fin Fwt Fout Hfuel.
  destruct (SeqFacts.gpu_grid_ok input weight H W I J C K fuel
              HI HJ HC HK Lin Lwt Fin Fwt Fout Hfuel
              {| output := out0; trace := [] |} Lout) as (s' & E & _).
  destruct (GpuHostFacts.sizes_id fuel H W I J C K HI HJ HC HK Fin Fwt Fout Hfuel)
    as (_ & _ & EHo & EWo & _).
  rewrite EHo, EWo in E.
  exists s'. split; [exact E|]. intros idx.
  rewrite (grid_adds input weight H W I J C K fuel HI HJ HC HK Fin Fwt Fout Hfuel
             idx _ _ _ E).
  reflexivity.
Qed.

Lemma cuda_conv2d_threads_write_once_witness :
  exists s',
    conv2d_kernel_threads 3 image3 filter2 3 3 2 2 1 1
      (Gpu.grid_of (3 - 2 + 1) (3 - 2 + 1) 1 Gpu.block16) Gpu.block16
      {| output := filled 4 Binary32.nan; trace := [] |} = Done tt s'
    /\ forall idx,
         count_events (writes_to idx) (trace s')
         = if (0 <=? idx) && (idx <? (3 - 2 + 1) * (3 - 2 + 1) * 1) then 1 else 0.
Proof.
  apply (cuda_conv2d_threads_write_once image3 filter2 (filled 4 Binary32.nan)
           3 3 2 2 1 1 3);
    try reflexivity; try (unfold Int.max_int; lia); vm_compute; lia.
Defined.

(** ** The drivers of the convolution programs *)

(** X10. [main] of the gem5 benchmark (H = 7, W = 56, I = J = 3, C = 32,
    K = 8, input filled with [1.0f], weights with [0.1f]) allocates buffers
    of exactly the sizes [conv2d] needs, so the call completes without an
    access out of bounds: whatever [malloc] memory holds, every one of the
    5*54*8 output elements ends up as the single-precision sum of 288
    products [1.0f * 0.1f], 15099533 * 2^-19 (about 28.800074), and [main]
    returns 0. *)
Theorem gem5_main_result (e : @Host.env Binary32.float) (fuel : nat) :
  (Z.to_nat 12544 <= fuel)%nat ->
  exists w' hin hwt hout,
    SeqMain.main_run e fuel world0 = Done (0%nat, 1%nat, 2%nat) w'
    /\ Host.host w' = [hin; hwt; hout]
    /\ len hout = 2160
    /\ (forall idx, 0 <= idx < 2160 ->
          cell hout idx = S754_finite false 15099533 (-19))
    /\ SeqMain.main e fuel world0 = Done 0 w'.
Proof.
  intros Hf.
  assert (Hrun : exists w' hin hwt hout,
            SeqMain.main_run e fuel world0 = Done (0%nat, 1%nat, 2%nat) w'
            /\ Host.host w' = [hin; hwt; hout]
            /\ len hout = 2160
            /\ (forall idx, 0 <= idx < 2160 ->
                  cell hout idx = S754_finite false 15099533 (-19))).
  { unfold SeqMain.main_run. cbv zeta.
    change (7 *i 56 *i 32) with 12544. change (3 *i 3 *i 32 *i 8) with 2304.
    change ((7 -i 3 +i 1) *i (56 -i 3 +i 1) *i 8) with 2160.
    destruct (driver_prefix e fuel 2304 2160
                (fun input weight output =>
                   SeqMain.conv2d_call fuel input weight output 7 56 3 3 32 8 ;;;
                   ret (input, weight, output)))
      as (hin & hwt & hout & Lin & Lwt & Lout & Cin & Cwt & E);
      try (unfold Int.max_int; lia).
    rewrite E. clear E.
    destruct (SeqFacts.conv2d_processed hin hwt 7 56 3 3 32 8 fuel)
      with (s0 := {| output := hout; trace := [] |})
      as (s' & Es & Ls & Vs & _);
      try (unfold Int.max_int; lia); auto.
    { unfold Seq.conv2d_fuel. change (7 -i 3 +i 1) with 5.
      change (56 -i 3 +i 1) with 54. lia. }
    unfold bind, SeqMain.conv2d_call. cbn [Host.host nth_error]. rewrite Es.
    unfold ret. eexists _, hin, hwt, (output s').
    split; [reflexivity|]. split; [reflexivity|]. split; [exact Ls|].
    intros idx Hidx.
    destruct (flat3_decode idx 5 54 8) as (h & x & k & Hh & Hx & Hk & ->);
      try lia.
    change 54 with (56 - 3 + 1). rewrite Vs by lia.
    apply conv_sum_benchmark; auto; lia. }
  destruct Hrun as (w' & hin & hwt & hout & E & Hh & L & V).
  exists w', hin, hwt, hout. repeat split; auto.
  unfold SeqMain.main. rewrite (bind_done _ _ _ _ _ E). reflexivity.
Qed.

Lemma gem5_main_result_witness :
  exists w' hin hwt hout,
    SeqMain.main_run env_ok (Z.to_nat 12544) world0
    = Done (0%nat, 1%nat, 2%nat) w'
    /\ Host.host w' = [hin; hwt; hout]
    /\ len hout = 2160
    /\ (forall idx, 0 <= idx < 2160 ->
          cell hout idx = S754_finite false 15099533 (-19))
    /\ SeqMain.main env_ok (Z.to_nat 12544) world0 = Done 0 w'.
Proof.
  apply (gem5_main_result env_ok (Z.to_nat 12544)). lia.
Defined.

(** X11. [main] of the GPGPU-Sim benchmark (the same sizes with K = 32):
    when its first six runtime calls succeed, whatever [malloc] and
    [cudaMalloc] memory holds and whatever the three [cudaFree] calls
    return, every one of the 5*54*32 elements of the host output ends up
    as the same sum as in the gem5 benchmark, 15099533 * 2^-19, and [main]
    returns 0. *)
Theorem gpgpusim_main_result (e : @Host.env Binary32.float) (fuel : nat) :
  (forall i, (i < 6)%nat -> Host.api_status e i = cudaSuccess) ->
  (Z.to_nat 12544 <= fuel)%nat ->
  exists w' hin hwt hout,
    GpuMain.main_run e fuel world0 = Done (0%nat, 1%nat, 2%nat) w'
    /\ Host.host w' = [hin; hwt; hout]
    /\ len hout = 8640
    /\ (forall idx, 0 <= idx < 8640 ->
          cell hout idx = S754_finite false 15099533 (-19))
    /\ GpuMain.main e fuel world0 = Done 0 w'.
Proof.
  intros Hok Hf.
  assert (Hrun : exists w' hin hwt hout,
            GpuMain.main_run e fuel world0 = Done (0%nat, 1%nat, 2%nat) w'
            /\ Host.host w' = [hin; hwt; hout]
            /\ len hout = 8640
            /\ (forall idx, 0 <= idx < 8640 ->
                  cell hout idx = S754_finite false 15099533 (-19))).
  { unfold GpuMain.main_run. cbv zeta.
    change (7 *i 56 *i 32) with 12544. change (3 *i 3 *i 32 *i 32) with 9216.
    change ((7 -i 3 +i 1) *i (56 -i 3 +i 1) *i 32) with 8640.
    destruct (driver_prefix e fuel 9216 8640
                (fun input weight output =>
                   Gpu.conv2d e fuel input weight output 7 56 3 3 32 32 ;;;
                   ret (input, weight, output)))
      as (hin & hwt & hout & Lin & Lwt & Lout & Cin & Cwt & E);
      try (unfold Int.max_int; lia).
    rewrite E. clear E.
    destruct (gpu_conv2d_run e fuel 7 56 3 3 32 32) with
      (w := {| Host.host := [hin; hwt; hout]; Host.device := [];
               Host.ncalls := 0; Host.events := [] |})
      (pin := 0%nat) (pwt := 1%nat) (pout := 2%nat)
      (hin := hin) (hwt := hwt) (hout := hout)
      as (w' & out' & Eg & Hh & L & G & _);
      try (unfold Int.max_int; lia); auto.
    { unfold Seq.conv2d_fuel. change (7 -i 3 +i 1) with 5.
      change (56 -i 3 +i 1) with 54. lia. }
    { intros i Hi. apply Hok. cbn [Host.ncalls] in Hi. lia. }
    rewrite (bind_done _ _ _ _ _ Eg). unfold ret.
    cbn [Host.ncalls Host.host Host.update Nat.add] in Hh.
    rewrite (Hok 5%nat ltac:(lia)) in Hh.
    exists w', hin, hwt, out'.
    split; [reflexivity|]. split; [exact Hh|]. split; [congruence|].
    intros idx Hidx.
    destruct (flat3_decode idx 5 54 32) as (h & x & k & Hh' & Hx & Hk & ->);
      try lia.
    change 54 with (56 - 3 + 1). rewrite G by lia.
    apply conv_sum_benchmark; auto; lia. }
  destruct Hrun as (w' & hin & hwt & hout & E & Hh & L & V).
  exists w', hin, hwt, hout. repeat split; auto.
  unfold GpuMain.main. rewrite (bind_done _ _ _ _ _ E). reflexivity.
Qed.

Lemma gpgpusim_main_result_witness :
  exists w' hin hwt hout,
    GpuMain.main_run env_ok (Z.to_nat 12544) world0
    = Done (0%nat, 1%nat, 2%nat) w'
    /\ Host.host w' = [hin; hwt; hout]
    /\ len hout = 8640
    /\ (forall idx, 0 <= idx < 8640 ->
          cell hout idx = S754_finite false 15099533 (-19))
    /\ GpuMain.main env_ok (Z.to_nat 12544) world0 = Done 0 w'.
Proof.
  apply (gpgpusim_main_result env_ok (Z.to_nat 12544)).
  - intros i _. reflexivity.
  - lia.
Defined.

(** ** The GEMM host program *)



(** X13. For sizes in the range of C3 and host buffers [A], [B] of at
    least M*K and K*N elements, [gemm_kernel_test] returns or exits with
    status 1, whatever the runtime calls return: it never uses an
    unassigned device pointer and never copies or indexes out of bounds. *)
Theorem gemm_kernel_test_returns_or_exits {F : Type} {FO : FloatOps F}
    (e : @Host.env F) (w : @Host.world F) (pA pB pC : nat)
    (hA hB : buffer F) (M N K : Z) (fuel : nat) :
  1 <= M -> 1 <= N -> 1 <= K ->
  M * K <= Int.max_int -> K * N <= Int.max_int -> M * N <= Int.max_int ->
  M + 16 <= Int.max_int -> N + 16 <= Int.max_int -> K + 16 <= Int.max_int ->
  (Gemm.gemm_fuel K <= fuel)%nat ->
  nth_error (Host.host w) pA = Some hA ->
  nth_error (Host.host w) pB = Some hB ->
  M * K <= len hA -> K * N <= len hB ->
  (exists w', Gemm.gemm_kernel_test e fuel pA pB pC M N K w = Done tt w')
  \/ (exists w', Gemm.gemm_kernel_test e fuel pA pB pC M N K w = Exit 1 w').
Proof.
  intros HM HN HK FA FB FC FM FN FK Hfuel EA EB LA LB.
  pose proof (gemm_kernel_test_cases e fuel M N K HM HN HK FA FB FC FM FN FK
                Hfuel w pA pB pC hA hB EA EB LA LB) as Hc.
  destruct (Gemm.gemm_kernel_test e fuel pA pB pC M N K w)
    as [[] w'|code w'| |]; try contradiction.
  - left. exists w'. reflexivity.
  - right. destruct Hc as [-> _]. exists w'. reflexivity.
Qed.

Lemma gemm_kernel_test_returns_or_exits_witness :
  (exists w', Gemm.gemm_kernel_test (env_failing 3) 16 0 1 2 2 2 3
                (host3 (ones 6) (ones 6) (filled 4 Binary32.zero)) = Done tt w')
  \/ (exists w', Gemm.gemm_kernel_test (env_failing 3) 16 0 1 2 2 2 3
                   (host3 (ones 6) (ones 6) (filled 4 Binary32.zero)) = Exit 1 w').
Proof.
  apply (gemm_kernel_test_returns_or_exits (env_failing 3)
           (host3 (ones 6) (ones 6) (filled 4 Binary32.zero)) 0 1 2
           (ones 6) (ones 6) 2 2 3 16);
    try reflexivity; try (unfold Int.max_int; lia); vm_compute; lia.
Defined.

(** X14. Under the same conditions, if the call number k (counting from
    0, k < 9) is the first that fails, [gemm_kernel_test] exits with
    status 1 right after it, having made k + 1 runtime calls and left host
    memory as it was; the kernel has been launched only if the three
    allocations and the two copies came first (k >= 5). *)
Theorem gemm_kernel_test_stops_at_first_failure {F : Type} {FO : FloatOps F}
    (e : @Host.env F) (w : @Host.world F) (pA pB pC : nat)
    (hA hB : buffer F) (M N K : Z) (fuel k : nat) :
  1 <= M -> 1 <= N -> 1 <= K ->
  M * K <= Int.max_int -> K * N <= Int.max_int -> M * N <= Int.max_int ->
  M + 16 <= Int.max_int -> N + 16 <= Int.max_int -> K + 16 <= Int.max_int ->
  (Gemm.gemm_fuel K <= fuel)%nat ->
  nth_error (Host.host w) pA = Some hA ->
  nth_error (Host.host w) pB = Some hB ->
  M * K <= len hA -> K * N <= len hB ->
  (k < 9)%nat ->
  (forall i, (Host.ncalls w <= i < Host.ncalls w + k)%nat ->
     Host.api_status e i = cudaSuccess) ->
  Host.api_status e (Host.ncalls w + k) = cudaFailure ->
  exists w',
    Gemm.gemm_kernel_test e fuel pA pB pC M N K w = Exit 1 w'
    /\ Host.ncalls w' = (Host.ncalls w + k + 1)%nat
    /\ Host.host w' = Host.host w
    /\ Host.launches (Host.events w')
       = (if (k <? 5)%nat then [] else [Launch (Gemm.grid_of M N) Gemm.block16])
         ++ Host.launches (Host.events w).
Proof.
  intros HM HN HK FA FB FC FM FN FK Hfuel EA EB LA LB Hk Hok Hfail.
  pose proof (gemm_kernel_test_cases e fuel M N K HM HN HK FA FB FC FM FN FK
                Hfuel w pA pB pC hA hB EA EB LA LB) as Hc.
  destruct (Gemm.gemm_kernel_test e fuel pA pB pC M N K w)
    as [[] w'|code w'| |]; try contradiction.
  - rewrite (Hc (Host.ncalls w + k)%nat) in Hfail by lia. discriminate Hfail.
  - destruct Hc as (-> & Hh & k' & Hk' & Hok' & Hfail' & Nc & HL).
    assert (k' = k).
    { destruct (Nat.lt_trichotomy k' k) as [Hlt | [Heq | Hgt]]; [|exact Heq|].
      - rewrite (Hok (Host.ncalls w + k')%nat) in Hfail' by lia.
        discriminate Hfail'.
      - rewrite (Hok' (Host.ncalls w + k)%nat) in Hfail by lia.
        discriminate Hfail. }
    subst k'. exists w'. repeat split; auto.
Qed.

Lemma gemm_kernel_test_stops_at_first_failure_witness :
  exists w',
    Gemm.gemm_kernel_test (env_failing 3) 16 0 1 2 2 2 3
      (host3 (ones 6) (ones 6) (filled 4 Binary32.zero)) = Exit 1 w'
    /\ Host.ncalls w'
       = (Host.ncalls (host3 (ones 6) (ones 6) (filled 4 Binary32.zero)) + 3 + 1)%nat
    /\ Host.host w' = Host.host (host3 (ones 6) (ones 6) (filled 4 Binary32.zero))
    /\ Host.launches (Host.events w')
       = (if (3 <? 5)%nat then [] else [Launch (Gemm.grid_of 2 2) Gemm.block16])
         ++ Host.launches
              (Host.events (host3 (ones 6) (ones 6) (filled 4 Binary32.zero))).
Proof.
  apply (gemm_kernel_test_stops_at_first_failure (env_failing 3)
           (host3 (ones 6) (ones 6) (filled 4 Binary32.zero)) 0 1 2
           (ones 6) (ones 6) 2 2 3 16 3);
    try reflexivity; try (unfold Int.max_int; lia); try (vm_compute; lia).
  intros i Hi. cbn in Hi. unfold env_failing. cbn [Host.api_status].
  destruct (Nat.eqb_spec i 3); [lia | reflexivity].
Defined.

(** X15. For sizes in the range of C3, every block of the grid of
    [gemm_kernel_test] runs [gemm_kernel] to completion and passes
    2 * ceil(K/16) barriers, the same number whatever its position in the
    grid and whatever the matrices hold. *)
Theorem gemm_kernel_barrier_count {F : Type} {FO : FloatOps F}
    (A B : buffer F) (M N K : Z) (fuel : nat) (blockIdx : dim3)
    (s : @Gemm.block_state F) :
  1 <= M -> 1 <= N -> 1 <= K ->
  len A = M * K -> len B = K * N -> len (Gemm.gC s) = M * N ->
  M * K <= Int.max_int -> K * N <= Int.max_int -> M * N <= Int.max_int ->
  M + 16 <= Int.max_int -> N + 16 <= Int.max_int -> K + 16 <= Int.max_int ->
  (Gemm.gemm_fuel K <= fuel)%nat ->
  In blockIdx (Host.indices (Gemm.grid_of M N)) ->
  exists s',
    Gemm.gemm_kernel fuel A B M N K Gemm.block16 blockIdx s = Done tt s'
    /\ Gemm.barriers (Gemm.ktrace s')
       = (Gemm.barriers (Gemm.ktrace s) + 2 * Z.to_nat (Gemm.tiles K))%nat.
Proof.
  intros HM HN HK LA LB LC FA FB FC FM FN FK Hfuel Hin.
  destruct (proj1 (GemmFacts.in_grid M N K fuel HM HN FM FN Hfuel blockIdx) Hin)
    as (Hbx & Hby & _).
  clear Hin.
  destruct (GemmFacts.kernel_ok A B M N K fuel HM HN HK LA LB FA FB FC FM FN FK
              blockIdx Hbx Hby Hfuel s LC) as (s' & E & _ & _ & _ & Hb).
  exists s'. split; [exact E | exact Hb].
Qed.

Lemma gemm_kernel_barrier_count_witness :
  exists s',
    Gemm.gemm_kernel 16 (ones 6) (ones 6) 2 2 3 Gemm.block16 origin block_idle
    = Done tt s'
    /\ Gemm.barriers (Gemm.ktrace s')
       = (Gemm.barriers (Gemm.ktrace block_idle) + 2 * Z.to_nat (Gemm.tiles 3))%nat.
Proof.
  apply (gemm_kernel_barrier_count (ones 6) (ones 6) 2 2 3 16 origin block_idle);
    try reflexivity; try (unfold Int.max_int; lia); try (vm_compute; lia).
  vm_compute. left. reflexivity.
Defined.

(** X16. The GEMM program as a whole: whatever the runtime calls return
    and whatever fresh memory holds, [main] either returns 0, when all its
    nine runtime calls succeed, or exits with status 1 right after the
    first call that fails; it never accesses memory out of bounds. *)
Theorem gemm_main_returns_or_exits {F : Type} {FO : FloatOps F}
    (e : @Host.env F) (fuel : nat) (w : @Host.world F) :
  Host.host w = [] ->
  (4096 <= fuel)%nat ->
  ((forall i, (Host.ncalls w <= i < Host.ncalls w + 9)%nat ->
      Host.api_status e i = cudaSuccess)
   /\ exists w', Gemm.main e fuel w = Done 0 w'
                 /\ Host.ncalls w' = (Host.ncalls w + 9)%nat)
  \/ (exists k w',
        (k < 9)%nat
        /\ (forall i, (Host.ncalls w <= i < Host.ncalls w + k)%nat ->
              Host.api_status e i = cudaSuccess)
        /\ Host.api_status e (Host.ncalls w + k) = cudaFailure
        /\ Gemm.main e fuel w = Exit 1 w'
        /\ Host.ncalls w' = (Host.ncalls w + k + 1)%nat).
Proof.
  intros Hw Hf. unfold Gemm.main, Gemm.main_run. cbv zeta.
  change (Size.of_int (64 *i 64)) with 4096.
  change (Size.mul 4096 Size.sizeof_float) with 16384.
  destruct (gemm_main_prefix e fuel
              (fun A B C => Gemm.gemm_kernel_test e fuel A B C 64 64 64 ;;;
                            ret (A, B, C)) w Hw Hf)
    as (hA & hB & hC & LA & LB & LC & CA & CB & CC & E).
  set (w6 := Host.set_host [hA; hB; hC] w) in *.
  assert (Ep : forall k : nat * nat * nat -> prog (@Host.world F) Z,
            bind (Gemm.main_run e fuel) k w
            = bind (Gemm.gemm_kernel_test e fuel 0 1 2 64 64 64 ;;; ret (0%nat, 1%nat, 2%nat))
                k w6).
  { intros k. unfold bind at 1 3. unfold Gemm.main_run. cbv zeta.
    change (Size.of_int (64 *i 64)) with 4096.
    change (Size.mul 4096 Size.sizeof_float) with 16384.
    rewrite E. reflexivity. }
  fold (Gemm.main_run e fuel). rewrite Ep. clear Ep E.
  pose proof (gemm_kernel_test_cases e fuel 64 64 64) as Hc.
  specialize (Hc ltac:(lia) ltac:(lia) ltac:(lia)
                 ltac:(unfold Int.max_int; lia) ltac:(unfold Int.max_int; lia)
                 ltac:(unfold Int.max_int; lia) ltac:(unfold Int.max_int; lia)
                 ltac:(unfold Int.max_int; lia) ltac:(unfold Int.max_int; lia)).
  specialize (Hc ltac:(unfold Gemm.gemm_fuel; vm_compute Z.to_nat; lia)
                 w6 0%nat 1%nat 2%nat hA hB eq_refl eq_refl
                 ltac:(lia) ltac:(lia)).
  unfold bind.
  destruct (Gemm.gemm_kernel_test e fuel 0 1 2 64 64 64 w6)
    as [[] w'|code w'| |] eqn:Et; try contradiction.
  - left. split; [exact Hc|]. unfold ret, Host.free. eexists. split; [reflexivity|].
    destruct (GemmHostFacts.gemm_kernel_test_ok e fuel 64 64 64) with
      (w := w6) (pA := 0%nat) (pB := 1%nat) (pC := 2%nat) (hA := hA) (hB := hB)
      as (w'' & _ & _ & _ & E' & _ & _ & _ & _ & Nc & _);
      try (unfold Int.max_int; lia); try reflexivity; auto.
    { unfold Gemm.gemm_fuel. vm_compute Z.to_nat. lia. }
    rewrite Et in E'. injection E' as <-. exact Nc.
  - right. destruct Hc as (-> & _ & k & Hk & Hok & Hfail & Nc & _).
    exists k, w'. repeat split; auto.
Qed.

Lemma gemm_main_returns_or_exits_witness :
  ((forall i, (Host.ncalls world0 <= i < Host.ncalls world0 + 9)%nat ->
      Host.api_status (env_failing 7) i = cudaSuccess)
   /\ exists w', Gemm.main (env_failing 7) 4096 world0 = Done 0 w'
                 /\ Host.ncalls w' = (Host.ncalls world0 + 9)%nat)
  \/ (exists k w',
        (k < 9)%nat
        /\ (forall i, (Host.ncalls world0 <= i < Host.ncalls world0 + k)%nat ->
              Host.api_status (env_failing 7) i = cudaSuccess)
        /\ Host.api_status (env_failing 7) (Host.ncalls world0 + k) = cudaFailure
        /\ Gemm.main (env_failing 7) 4096 world0 = Exit 1 w'
        /\ Host.ncalls w' = (Host.ncalls world0 + k + 1)%nat).
Proof.
  apply (gemm_main_returns_or_exits (env_failing 7) 4096 world0).
  - reflexivity.
  - lia.
Defined.
